(** * bangunpack: carvers and verifiers for binary formats

    A shallow embedding of [src/bangunpack.py] (WebP, WAV, ANI, PNG, gzip,
    BMP, LZMA, XZ, TZif, tar, ar and squashfs unpackers) and the properties
    of the uniform unpacker contract that hold, or fail, on it.

    Conventions of the embedding.
    - The file being scanned is its content, a list of bytes; [os.stat(...).st_size]
      is its length.  A Python file object is a content together with a
      position ([FileObj]).
    - Python integers are [Z]; [bytes] objects are [list byte]; [str] is [string].
    - The output and temporary directories are a finite map from paths to nodes.
    - A call either returns its 5-tuple, raises a Python exception, or runs
      for ever: [Outcome].
    - The standard library decompressors, [tarfile], PIL and the external
      programs are interfaces (records of operations); every theorem is
      stated for an arbitrary implementation of the interfaces it uses.
    - Operating system failures (disk full, permissions) are not modelled. *)

From Stdlib Require Import ZArith List String Ascii Lia Bool.
From Stdlib Require Import Strings.Byte.
From stdpp Require Import base gmap strings list.
Import ListNotations.
Open Scope Z_scope.

(** ** Bytes and integers *)

Definition bytes := list byte.

#[global] Instance byte_eq_dec : EqDecision byte := Byte.byte_eq_dec.

(** [b'...'] literals. *)
Definition b (s : string) : bytes := list_byte_of_string s.

(** [len(x)] *)
Definition len {A : Type} (l : list A) : Z := Z.of_nat (length l).

(** the value of one byte, [x[0]] or [ord(x)] *)
Definition byte_val (x : byte) : Z := Z.of_N (Byte.to_N x).

(** [int.from_bytes(x, byteorder='big')] *)
Definition from_bytes_big (x : bytes) : Z :=
  fold_left (fun acc c => acc * 256 + byte_val c) x 0.

(** [int.from_bytes(x, byteorder='little')] *)
Fixpoint from_bytes_little (x : bytes) : Z :=
  match x with
  | [] => 0
  | c :: rest => byte_val c + 256 * from_bytes_little rest
  end.

(** [x[i:j]] for [0 <= i <= j] *)
Definition slice (i j : nat) (x : bytes) : bytes := take (j - i) (drop i x).

(** [b'\x00' * n] *)
Definition zeros (n : nat) : bytes := repeat x00 n.

(** [x == y] on bytes, as a boolean *)
Definition bytes_eqb (x y : bytes) : bool := bool_decide (x = y).

(** [x >> k & 1] *)
Definition bit (x : Z) (k : Z) : Z := Z.land (Z.shiftr x k) 1.

(** ** CRC-32 ([binascii.crc32], [zlib.crc32]) *)

Definition crc32_poly : Z := 0xEDB88320.

Definition crc32_shift (c : Z) : Z :=
  if Z.testbit c 0 then Z.lxor (Z.shiftr c 1) crc32_poly else Z.shiftr c 1.

Definition crc32_byte (c : Z) (x : byte) : Z :=
  Nat.iter 8 crc32_shift (Z.lxor c (byte_val x)).

(** [zlib.crc32(data, value)] *)
Definition crc32_update (data : bytes) (value : Z) : Z :=
  Z.lxor (fold_left crc32_byte data (Z.lxor value 0xFFFFFFFF)) 0xFFFFFFFF.

(** [binascii.crc32(data)] *)
Definition crc32 (data : bytes) : Z := crc32_update data 0.

(** ** Strings and paths *)

Definition lower_ascii (c : ascii) : ascii :=
  let n := nat_of_ascii c in
  if ((65 <=? n)%nat && (n <=? 90)%nat)%bool then ascii_of_nat (n + 32) else c.

(** [s.lower()] (ASCII letters) *)
Fixpoint lower (s : string) : string :=
  match s with
  | EmptyString => EmptyString
  | String c r => String (lower_ascii c) (lower r)
  end.

(** [s.endswith(suffix)] *)
Definition endswith (s suffix : string) : bool :=
  let n := String.length s in
  let k := String.length suffix in
  ((k <=? n)%nat && String.eqb (substring (n - k) k s) suffix)%bool.

(** [s.startswith(prefix)] *)
Definition startswith (s pre : string) : bool := String.prefix pre s.

(** [s[:-k]] for [k > 0] *)
Definition drop_last (k : nat) (s : string) : string :=
  substring 0 (String.length s - k) s.

(** the part of [s] after its last slash, given the part [acc] read since
    the last slash *)
Fixpoint basename_from (acc : string) (s : string) : string :=
  match s with
  | EmptyString => acc
  | String c r =>
      if Ascii.eqb c "/" then basename_from EmptyString r
      else basename_from (acc ++ String c EmptyString) r
  end.

(** [os.path.basename(p)] *)
Definition basename (p : string) : string := basename_from EmptyString p.

(** [os.path.join(a, p)] (posixpath) *)
Definition path_join (a p : string) : string :=
  if startswith p "/" then p
  else if (String.eqb a "" || endswith a "/")%bool then a ++ p
  else a ++ "/" ++ p.

(** ** File objects opened for reading *)

Record FileObj := mkFile { fdata : bytes; fpos : Z }.

(** [open(filename, 'rb')] *)
Definition open_rb (data : bytes) : FileObj := mkFile data 0.

(** [f.seek(pos)] *)
Definition seek (f : FileObj) (pos : Z) : FileObj := mkFile (fdata f) pos.

(** [f.seek(delta, os.SEEK_CUR)] *)
Definition seek_cur (f : FileObj) (delta : Z) : FileObj :=
  mkFile (fdata f) (fpos f + delta).

(** [f.tell()] *)
Definition tell (f : FileObj) : Z := fpos f.

(** [f.read(n)]: at most [n] bytes, fewer at the end of the file *)
Definition read (f : FileObj) (n : Z) : bytes * FileObj :=
  let got := take (Z.to_nat n) (drop (Z.to_nat (fpos f)) (fdata f)) in
  (got, mkFile (fdata f) (fpos f + len got)).

(** [f.readinto(buf)]: overwrites the start of [buf] with what could be
    read, and leaves the rest of [buf] as it was *)
Definition readinto (f : FileObj) (buf : bytes) : bytes * FileObj :=
  let got := take (length buf) (drop (Z.to_nat (fpos f)) (fdata f)) in
  (got ++ drop (length got) buf, mkFile (fdata f) (fpos f + len got)).


(** ** The file system below the output and temporary directories *)

Inductive node :=
  | RegFile (content : bytes)
  | Directory
  | Symlink (target : string).

Abbreviation FS := (gmap string node).

(** [open(path, 'wb')], the writes and [close()]: the file holds [content] *)
Definition write_file (path : string) (content : bytes) (fs : FS) : FS :=
  <[path := RegFile content]> fs.

(** [os.sendfile(out, in, offset, count)]: the bytes of the input from
    [offset], at most [count] of them *)
Definition sendfile (data : bytes) (offset count : Z) : bytes :=
  take (Z.to_nat count) (drop (Z.to_nat offset) data).

(** [os.stat(path).st_size]; [None] when the path does not name a file *)
Definition st_size (path : string) (fs : FS) : option Z :=
  match fs !! path with
  | Some (RegFile content) => Some (len content)
  | _ => None
  end.

(** [os.unlink(path)]; [None] when the call raises *)
Definition os_unlink (path : string) (fs : FS) : option FS :=
  match fs !! path with
  | Some (RegFile _) | Some (Symlink _) => Some (delete path fs)
  | _ => None
  end.

(** [os.path.isdir(path)] and [os.path.islink(path)] *)
Definition os_path_isdir (path : string) (fs : FS) : bool :=
  match fs !! path with Some Directory => true | _ => false end.

Definition os_path_islink (path : string) (fs : FS) : bool :=
  match fs !! path with Some (Symlink _) => true | _ => false end.

(** [os.chmod(path, mode)]: modes are not recorded, the call raises on a
    missing path *)
Definition os_chmod (path : string) (fs : FS) : option FS :=
  match fs !! path with Some _ => Some fs | None => None end.

(** [shutil.rmtree(path)]: the directory and everything below it *)
Definition shutil_rmtree (path : string) (fs : FS) : FS :=
  filter (fun kv => negb (String.eqb kv.1 path || startswith kv.1 (path ++ "/")) = true) fs.

(** ** Outcomes of a call *)

Inductive PyException :=
  | NameError (name : string)
  | UnboundLocalError (name : string)
  | FileNotFoundError (path : string)
  | UnicodeDecodeError
  | ReadError (msg : string)
  | OSError (msg : string).

Inductive Outcome (A : Type) :=
  | Returned (a : A)
  | Raised (e : PyException)
  | Diverged.
Arguments Returned {A} a.
Arguments Raised {A} e.
Arguments Diverged {A}.

(** the error dictionary [{'offset': .., 'reason': .., 'fatal': ..}] *)
Record UnpackError := Error {
  err_offset : Z;
  err_fatal : bool;
  err_reason : string
}.

(** the 5-tuple every unpacker returns; [error = None] is the empty dict *)
Record UnpackResult := Result {
  ok : bool;
  consumed : Z;
  carved : list (string * list string);
  stream_tags : list string;
  error : option UnpackError
}.

(** what a call leaves behind: its outcome and the file system *)
Definition Run : Type := Outcome UnpackResult * FS.

(** ** Loops

    One pass through the body of a [while] loop either goes round again,
    leaves the loop ([break], or the condition became false), or leaves the
    function ([return], or an exception). *)

Inductive Step (S R : Type) :=
  | Continue (s : S)
  | Break (s : S)
  | Return (r : R).
Arguments Continue {S R} s.
Arguments Break {S R} s.
Arguments Return {S R} r.

(** [while_loop body fuel s]: [None] when [fuel] passes were not enough *)
Fixpoint while_loop {S R : Type} (body : S -> Step S R) (fuel : nat) (s : S)
  : option (S + R) :=
  match fuel with
  | O => None
  | Datatypes.S fuel' =>
      match body s with
      | Continue s' => while_loop body fuel' s'
      | Break s' => Some (inl s')
      | Return r => Some (inr r)
      end
  end.

(** the states a loop passes through, from [s0] *)
Inductive passes {S R : Type} (body : S -> Step S R) (s0 : S) : S -> Prop :=
  | passes_first : passes body s0 s0
  | passes_next s s' : passes body s0 s -> body s = Continue s' -> passes body s0 s'.

(** ** Interfaces of the libraries and programs the unpackers call *)

(** [zlib.decompressobj(-zlib.MAX_WBITS)]: a raw DEFLATE decompressor object.
    [z_decompress] is [None] when the call raises. *)
Record ZlibModule := {
  zobj : Type;
  z_decompressobj : zobj;
  z_decompress : zobj -> bytes -> option (bytes * zobj);
  z_unused_data : zobj -> bytes
}.

Inductive LzmaResult (O : Type) :=
  | LzmaData (unpackeddata : bytes) (o : O)
  | LzmaEOFError
  | LzmaError.
Arguments LzmaData {O} unpackeddata o.
Arguments LzmaEOFError {O}.
Arguments LzmaError {O}.

(** [lzma.LZMADecompressor()] *)
Record LzmaModule := {
  lobj : Type;
  l_LZMADecompressor : lobj;
  l_decompress : lobj -> bytes -> LzmaResult lobj;
  l_unused_data : lobj -> bytes
}.

(** the members of a tar archive as [tarfile] reports them *)
Inductive TarType := REGTYPE | DIRTYPE | SYMTYPE | LNKTYPE | CHRTYPE | BLKTYPE | FIFOTYPE.

Record TarInfo := { tar_name : string; tar_type : TarType }.

Definition isdev (t : TarInfo) : bool :=
  match tar_type t with CHRTYPE | BLKTYPE | FIFOTYPE => true | _ => false end.
Definition isreg (t : TarInfo) : bool :=
  match tar_type t with REGTYPE => true | _ => false end.
Definition isdir (t : TarInfo) : bool :=
  match tar_type t with DIRTYPE => true | _ => false end.
Definition issym (t : TarInfo) : bool :=
  match tar_type t with SYMTYPE => true | _ => false end.

(** what one call of [TarFile.next()] gives: the call raises (with
    [str(e)]), or returns [None], or returns a member *)
Inductive TarNext :=
  | TarNextRaises (msg : string)
  | TarNextNone
  | TarNextInfo (info : TarInfo).

(** [tarfile.open(fileobj=f, mode='r')] and the archive object.
    [t_open data pos] is [None] when the call raises [ReadError];
    [t_tell] is the position of the underlying file object, which only the
    archive object moves while it is in use; [t_extract] gives [str(e)]
    when [extract(info, path=unpackdir, set_attrs=False)] raises. *)
Record TarfileModule := {
  tobj : Type;
  t_open : bytes -> Z -> option tobj;
  t_tell : tobj -> Z;
  t_next : tobj -> TarNext * tobj;
  t_extract : tobj -> TarInfo -> string -> FS -> option string * FS * tobj
}.

(** the rest of the host: PIL, the external programs, [shutil], [tempfile],
    and the two built-in conversions of [bytes] to [str] *)
Record Host := {
  (** [PIL.Image.open(f).load()] does not raise on this content *)
  PIL_load : bytes -> bool;
  (** [shutil.which(prog) != None] *)
  shutil_which : string -> bool;
  (** [shutil.move(src, dst)], [None] when it raises *)
  shutil_move : string -> string -> FS -> option FS;
  (** [shutil.move(l, dst, copy_function=local_copy2)] with working directory [cwd] *)
  shutil_move_from : string -> string -> string -> FS -> option FS;
  (** [x.decode()], [None] when it raises *)
  bytes_decode : bytes -> option string;
  (** ['%s' % x] for a bytes object *)
  bytes_repr : bytes -> string;
  (** return code of [bmptopnm] on this standard input *)
  run_bmptopnm : bytes -> Z;
  (** return code of [ar t filename] *)
  run_ar_t : string -> bytes -> Z;
  (** return code and effect of [ar x filename] in directory [cwd] *)
  run_ar_x : string -> bytes -> string -> FS -> Z * FS;
  (** return code and effect of [unsquashfs image] in directory [cwd] *)
  run_unsquashfs : bytes -> string -> FS -> Z * FS;
  (** [tempfile.mkstemp(dir=d)[1]] and [tempfile.mkdtemp(dir=d)] *)
  mkstemp : string -> FS -> string;
  mkdtemp : string -> FS -> string;
  (** [os.listdir(d)] *)
  os_listdir : string -> FS -> list string;
  (** the files [os.walk(d)] reports, with their directories joined *)
  os_walk_files : string -> FS -> list string;
  (** the directories [os.walk(d)] reports, with their directories joined *)
  os_walk_dirs : string -> FS -> list string
}.

(** the names bound at module level by the [import] statements *)
Definition module_globals : list string :=
  ["sys"; "os"; "struct"; "shutil"; "binascii"; "zlib"; "subprocess"; "lzma";
   "tarfile"; "stat"; "tempfile"; "PIL"]%string.

(** looking up a global name: [NameError] unless it is bound *)
Definition lookup_global (name : string) : option PyException :=
  if bool_decide (name ∈ module_globals) then None else Some (NameError name).

(** what [unpackRIFF] returns: its third component is a list of file names *)
Definition RiffResult : Type :=
  bool * Z * list string * list string * option UnpackError.

Section Unpackers.

Context (zlib : ZlibModule) (lzma : LzmaModule) (tarfile : TarfileModule)
        (host : Host).

(** ** RIFF: WebP, WAV, ANI *)

(** the local variables that change in the chunk loop of [unpackRIFF] *)
Record RiffState := {
  riff_checkfile : FileObj;
  riff_unpackedsize : Z
}.

(** one pass of [while checkfile.tell() != offset + rifflength + 8] *)
Definition riff_chunk (offset filesize rifflength : Z)
    (validchunkfourcc : list bytes) (st : RiffState)
  : Step RiffState RiffResult :=
  let labels : list string := [] in
  let checkfile := riff_checkfile st in
  let unpackedsize := riff_unpackedsize st in
  if tell checkfile =? offset + rifflength + 8 then Break st else
  let haspadding := false in
  let '(checkbytes, checkfile) := read checkfile 4 in
  if negb (len checkbytes =? 4) then
    Return (false, 0, [], labels,
            Some (Error (offset + unpackedsize) false "no valid chunk header"))
  else if negb (bool_decide (checkbytes ∈ validchunkfourcc)) then
    Return (false, 0, [], labels,
            Some (Error (offset + unpackedsize) false
                    ("no valid chunk FourCC " ++ bytes_repr host checkbytes)))
  else
  let unpackedsize := unpackedsize + 4 in
  let '(checkbytes, checkfile) := read checkfile 4 in
  let chunklength := from_bytes_little checkbytes in
  let '(chunklength, haspadding) :=
    if negb (chunklength mod 2 =? 0) then (chunklength + 1, true)
    else (chunklength, haspadding) in
  let curpos := tell checkfile in
  if chunklength >? filesize - curpos then
    Return (false, 0, [], labels,
            Some (Error (offset + unpackedsize) false "wrong chunk length"))
  else
  let unpackedsize := unpackedsize + 4 in
  if haspadding then
    let checkfile := seek checkfile (curpos + chunklength - 1) in
    let '(paddingbyte, checkfile) := read checkfile 1 in
    if negb (bytes_eqb paddingbyte [x00]) then
      Return (false, 0, [], labels,
              Some (Error (offset + unpackedsize) false
                      "wrong value for padding byte length"))
    else
      Continue {| riff_checkfile := checkfile;
                  riff_unpackedsize := unpackedsize + chunklength |}
  else
    let checkfile := seek checkfile (curpos + chunklength) in
    Continue {| riff_checkfile := checkfile;
                riff_unpackedsize := unpackedsize + chunklength |}.

Definition unpackRIFF (data : bytes) (offset : Z) (unpackdir : string)
    (validchunkfourcc : list bytes) (applicationname : string)
    (applicationheader : bytes) (filesize : Z) (fs : FS)
  : Outcome RiffResult * FS :=
  let labels : list string := [] in
  if filesize - offset <? 12 then
    (Returned (false, 0, [], labels,
               Some (Error offset false "less than 12 bytes")), fs)
  else
  let unpackedsize := 0 in
  let checkfile := seek (open_rb data) offset in
  let '(checkbytes, checkfile) := read checkfile 4 in
  if negb (bytes_eqb checkbytes (b "RIFF")) then
    (Returned (false, 0, [], labels,
               Some (Error offset false "no valid RIFF header")), fs)
  else
  let unpackedsize := unpackedsize + 4 in
  let '(checkbytes, checkfile) := read checkfile 4 in
  let rifflength := from_bytes_little checkbytes in
  if rifflength + 8 >? filesize then
    (Returned (false, 0, [], labels,
               Some (Error (offset + unpackedsize) false "wrong length")), fs)
  else
  let unpackedsize := unpackedsize + 4 in
  let '(checkbytes, checkfile) := read checkfile 4 in
  if negb (bytes_eqb checkbytes applicationheader) then
    (Returned (false, 0, [], labels,
               Some (Error (offset + unpackedsize) false
                       ("no valid " ++ applicationname ++ " header"))), fs)
  else
  let unpackedsize := unpackedsize + 4 in
  match while_loop (riff_chunk offset filesize rifflength validchunkfourcc)
          (S (length data))
          {| riff_checkfile := checkfile; riff_unpackedsize := unpackedsize |} with
  | None => (Diverged, fs)
  | Some (inr r) => (Returned r, fs)
  | Some (inl st) =>
      let unpackedsize := riff_unpackedsize st in
      if negb (unpackedsize =? rifflength + 8) then
        (Returned (false, 0, [], labels,
                   Some (Error offset false
                           "unpacked size does not match declared size")), fs)
      else if ((offset =? 0) && (unpackedsize =? filesize))%bool then
        (Returned (true, unpackedsize, [], labels ++ ["riff"%string], None), fs)
      else
        let outfilename := path_join unpackdir ("unpacked-" ++ lower applicationname) in
        let fs := write_file outfilename (sendfile data offset unpackedsize) fs in
        (Returned (true, unpackedsize, [outfilename], labels, None), fs)
  end.

(** the tail shared, in the source, by the text of the three RIFF unpackers:
    [tags] are the two labels of the format *)
Definition riff_labels (tags : list string) (offset filesize : Z)
    (run : Outcome RiffResult * FS) : Run :=
  match run with
  | (Returned (unpackstatus, unpackedsize, unpackedfiles, labels, error), fs) =>
      if unpackstatus then
        let labels :=
          if ((offset =? 0) && (unpackedsize =? filesize))%bool
          then labels ++ tags else labels in
        let unpackedfilesandlabels :=
          map (fun u => (u, tags ++ ["unpacked"%string])) unpackedfiles in
        (Returned (Result unpackstatus unpackedsize unpackedfilesandlabels labels error), fs)
      else
        (Returned (Result unpackstatus unpackedsize [] labels error), fs)
  | (Raised e, fs) => (Raised e, fs)
  | (Diverged, fs) => (Diverged, fs)
  end.

Definition unpackWebP (filename : string) (data : bytes) (offset : Z)
    (unpackdir temporarydirectory : string) (fs : FS) : Run :=
  let filesize := len data in
  let validchunkfourcc :=
    [b "ALPH"; b "ANIM"; b "ANMF"; b "EXIF"; b "FRGM"; b "ICCP"; b "VP8 ";
     b "VP8L"; b "VP8X"; b "XMP "] in
  riff_labels ["webp"; "graphics"]%string offset filesize
    (unpackRIFF data offset unpackdir validchunkfourcc "WebP" (b "WEBP") filesize fs).

Definition unpackWAV (filename : string) (data : bytes) (offset : Z)
    (unpackdir temporarydirectory : string) (fs : FS) : Run :=
  let filesize := len data in
  let validchunkfourcc :=
    [b "LGWV"; b "bext"; b "cue "; b "data"; b "fact"; b "fmt "; b "inst";
     b "labl"; b "list"; b "ltxt"; b "note"; b "plst"; b "smpl"] in
  riff_labels ["wav"; "audio"]%string offset filesize
    (unpackRIFF data offset unpackdir validchunkfourcc "WAV" (b "WAVE") filesize fs).

Definition unpackANI (filename : string) (data : bytes) (offset : Z)
    (unpackdir temporarydirectory : string) (fs : FS) : Run :=
  let filesize := len data in
  let validchunkfourcc :=
    [b "IART"; b "ICON"; b "INAM"; b "LIST"; b "anih"; b "rate"; b "seq "] in
  riff_labels ["ani"; "graphics"]%string offset filesize
    (unpackRIFF data offset unpackdir validchunkfourcc "ANI" (b "ACON") filesize fs).

(** ** PNG *)

(** the local variables that change in the chunk loop of [unpackPNG] *)
Record PngState := {
  png_checkfile : FileObj;
  png_unpackedsize : Z;
  png_idatseen : bool;
  png_chunknames : list bytes
}.

(** one pass of the [while True] loop over the chunks after IHDR *)
Definition png_chunk (offset filesize : Z) (st : PngState)
  : Step PngState UnpackResult :=
  let unpackedfilesandlabels : list (string * list string) := [] in
  let labels : list string := [] in
  let checkfile := png_checkfile st in
  let unpackedsize := png_unpackedsize st in
  let idatseen := png_idatseen st in
  let chunknames := png_chunknames st in
  let '(checkbytes, checkfile) := read checkfile 4 in
  if negb (len checkbytes =? 4) then
    Return (Result false 0 unpackedfilesandlabels labels
              (Some (Error (offset + unpackedsize) false "Could not read chunk size")))
  else
  let chunksize := from_bytes_big checkbytes in
  if offset + chunksize >? filesize then
    Return (Result false 0 unpackedfilesandlabels labels
              (Some (Error (offset + unpackedsize) false "PNG data bigger than file")))
  else
  let unpackedsize := unpackedsize + 4 in
  let '(checkbytes, checkfile) := read checkfile (4 + chunksize) in
  let chunktype := slice 0 4 checkbytes in
  if negb (len checkbytes =? 4 + chunksize) then
    Return (Result false 0 unpackedfilesandlabels labels
              (Some (Error (offset + unpackedsize) false "Could not read chunk type")))
  else
  let unpackedsize := unpackedsize + (4 + chunksize) in
  let crccomputed := crc32 checkbytes in
  let '(checkbytes, checkfile) := read checkfile 4 in
  let crcstored := from_bytes_big checkbytes in
  if negb (crccomputed =? crcstored) then
    Return (Result false 0 unpackedfilesandlabels labels
              (Some (Error (offset + unpackedsize) false "Wrong CRC")))
  else
  let chunknames := chunktype :: chunknames in
  if bytes_eqb chunktype (b "IEND") then
    Break {| png_checkfile := checkfile; png_unpackedsize := unpackedsize + 4;
             png_idatseen := idatseen; png_chunknames := chunknames |}
  else
    let idatseen := if bytes_eqb chunktype (b "IDAT") then true else idatseen in
    Continue {| png_checkfile := checkfile; png_unpackedsize := unpackedsize + 4;
                png_idatseen := idatseen; png_chunknames := chunknames |}.

(** the state in which [unpackPNG] enters the chunk loop *)
Definition png_start (data : bytes) (offset : Z) : PngState :=
  {| png_checkfile := snd (read (seek (open_rb data) (offset + 8)) 25);
     png_unpackedsize := 8 + 25;
     png_idatseen := false;
     png_chunknames := [] |}.

Definition unpackPNG (filename : string) (data : bytes) (offset : Z)
    (unpackdir temporarydirectory : string) (fs : FS) : Run :=
  let filesize := len data in
  let unpackedfilesandlabels : list (string * list string) := [] in
  let labels : list string := [] in
  let unpackedsize := 0 in
  let unpackingerror : option UnpackError := None in
  if filesize - offset <? 57 then
    (Returned (Result false 0 unpackedfilesandlabels labels
                 (Some (Error offset false "File too small (less than 57 bytes"))), fs)
  else
  let checkfile := seek (open_rb data) (offset + 8) in
  let unpackedsize := 8 in
  let '(checkbytes, checkfile) := read checkfile 25 in
  if negb (bytes_eqb (slice 0 4 checkbytes) [x00; x00; x00; x0d]) then
    (Returned (Result false 0 unpackedfilesandlabels labels
                 (Some (Error (offset + unpackedsize) false "no valid chunk length"))), fs)
  else if negb (bytes_eqb (slice 4 8 checkbytes) (b "IHDR")) then
    (Returned (Result false 0 unpackedfilesandlabels labels
                 (Some (Error (offset + unpackedsize) false "no IHDR header"))), fs)
  else
  let crccomputed := crc32 (slice 4 21 checkbytes) in
  let crcstored := from_bytes_big (slice 21 25 checkbytes) in
  if negb (crccomputed =? crcstored) then
    (Returned (Result false 0 unpackedfilesandlabels labels
                 (Some (Error (offset + unpackedsize) false "Wrong CRC"))), fs)
  else
  match while_loop (png_chunk offset filesize) (S (length data))
          (png_start data offset) with
  | None => (Diverged, fs)
  | Some (inr r) => (Returned r, fs)
  | Some (inl st) =>
      let endoffilereached := true in
      let unpackedsize := png_unpackedsize st in
      let chunknames := png_chunknames st in
      if negb (png_idatseen st) then
        (Returned (Result false 0 unpackedfilesandlabels labels
                     (Some (Error offset false "No IDAT found"))), fs)
      else
      let animated :=
        (bool_decide (b "acTL" ∈ chunknames) && bool_decide (b "fcTL" ∈ chunknames)
         && bool_decide (b "fdAT" ∈ chunknames))%bool in
      if endoffilereached then
        if ((offset =? 0) && (unpackedsize =? filesize))%bool then
          if negb (PIL_load host data) then
            (Returned (Result false unpackedsize unpackedfilesandlabels labels
                         (Some (Error offset false "invalid PNG data according to PIL"))), fs)
          else
            let labels := labels ++ ["png"; "graphics"]%string in
            let labels := if animated then labels ++ ["animated"; "apng"]%string else labels in
            (Returned (Result true unpackedsize unpackedfilesandlabels labels unpackingerror), fs)
        else
          let outfilename := path_join unpackdir "unpacked.png" in
          let outdata := sendfile data offset unpackedsize in
          let fs := write_file outfilename outdata fs in
          if negb (PIL_load host outdata) then
            match os_unlink outfilename fs with
            | None => (Raised (FileNotFoundError outfilename), fs)
            | Some fs =>
                (Returned (Result false unpackedsize unpackedfilesandlabels labels
                             (Some (Error offset false "invalid PNG data according to PIL"))), fs)
            end
          else
            let unpackedfilesandlabels :=
              if animated then
                unpackedfilesandlabels ++
                  [(outfilename, ["png"; "graphics"; "animated"; "apng"; "unpacked"]%string)]
              else
                unpackedfilesandlabels ++
                  [(outfilename, ["png"; "graphics"; "unpacked"]%string)] in
            (Returned (Result true unpackedsize unpackedfilesandlabels labels unpackingerror), fs)
      else
        (Returned (Result false 0 unpackedfilesandlabels labels
                     (Some (Error (offset + unpackedsize) false "No IEND found"))), fs)
  end.

(** ** gzip *)

(** the two [while True] loops that read a NUL-terminated field one byte at
    a time: [rest] is the file from the current position, [name] the bytes
    collected so far and [n] the bytes counted so far.  [inl n] when the
    file ends before the NUL. *)
Fixpoint read_until_nul (rest : bytes) (name : bytes) (n : Z) : Z + bytes * Z :=
  match rest with
  | [] => inl n
  | c :: rest' =>
      if bytes_eqb [c] [x00] then inr (name, n + 1)
      else read_until_nul rest' (name ++ [c]) (n + 1)
  end.

(** the local variables that change in the decompression loop *)
Record GzipState := {
  gz_checkfile : FileObj;
  gz_checkbytes : bytes;
  gz_decompressor : zobj zlib;
  gz_outdata : bytes;
  gz_gzipcrc32 : Z;
  gz_unpackedsize : Z
}.

(** one pass of the [while True] loop that feeds the decompressor; [fs]
    holds the output file as created *)
Definition gzip_block (offset : Z) (unpackdir outfilename : string) (fs : FS)
    (st : GzipState) : Step GzipState Run :=
  let unpackedfilesandlabels : list (string * list string) := [] in
  let labels : list string := [] in
  let unpackedsize := gz_unpackedsize st in
  let '(checkbytes, checkfile) := readinto (gz_checkfile st) (gz_checkbytes st) in
  match z_decompress zlib (gz_decompressor st) checkbytes with
  | None =>
      let fs := write_file outfilename (gz_outdata st) fs in
      match os_unlink (path_join unpackdir outfilename) fs with
      | None => Return (Raised (FileNotFoundError (path_join unpackdir outfilename)), fs)
      | Some fs =>
          Return (Returned (Result false 0 unpackedfilesandlabels labels
                    (Some (Error (offset + unpackedsize) false "File not a valid gzip file"))),
                  fs)
      end
  | Some (unpackeddata, decompressor) =>
      let outdata := gz_outdata st ++ unpackeddata in
      let gzipcrc32 := crc32_update unpackeddata (gz_gzipcrc32 st) in
      let unpackedsize :=
        unpackedsize + (len checkbytes - len (z_unused_data zlib decompressor)) in
      let st' := {| gz_checkfile := checkfile; gz_checkbytes := checkbytes;
                    gz_decompressor := decompressor; gz_outdata := outdata;
                    gz_gzipcrc32 := gzipcrc32; gz_unpackedsize := unpackedsize |} in
      if negb (bytes_eqb (z_unused_data zlib decompressor) []) then Break st'
      else Continue st'
  end.

(** [unpackGzip] after the decompression loop: the trailer, the renaming
    and the result.  [fs] holds the output file as created, [checkfile],
    [unpackedsize] and [outdata] are the file object, the size and the
    decompressed data as the loop left them. *)
Definition gzip_trailer (data : bytes) (offset : Z) (unpackdir outfilename : string)
    (fs : FS) (havefname : bool) (origname : bytes)
    (checkfile : FileObj) (unpackedsize : Z) (outdata : bytes) : Run :=
  let filesize := len data in
  let unpackedfilesandlabels : list (string * list string) := [] in
  let labels : list string := [] in
  let unpackingerror : option UnpackError := None in
  let fs := write_file outfilename outdata fs in
  if filesize - unpackedsize + offset <? 8 then
    (Returned (Result false 0 unpackedfilesandlabels labels
                 (Some (Error (offset + unpackedsize) false "no CRC and ISIZE"))), fs)
  else
  let checkfile := seek checkfile (offset + unpackedsize) in
  let '(checkbytes, checkfile) := read checkfile 4 in
  let unpackedsize := unpackedsize + 4 in
  let '(checkbytes, checkfile) := read checkfile 4 in
  let unpackedsize := unpackedsize + 4 in
  match st_size outfilename fs with
  | None => (Raised (FileNotFoundError outfilename), fs)
  | Some size =>
      let isize := size mod 2 ^ 32 in
      if negb (from_bytes_little checkbytes =? isize) then
        (Returned (Result false 0 unpackedfilesandlabels labels
                     (Some (Error (offset + unpackedsize) false "wrong value for ISIZE"))), fs)
      else
      let renamed : PyException + string * FS :=
        if (havefname && negb (len origname =? 0))%bool then
          match bytes_decode host origname with
          | None => inl UnicodeDecodeError
          | Some origname =>
              match shutil_move host outfilename (path_join unpackdir origname) fs with
              | Some fs' => inr (path_join unpackdir origname, fs')
              | None => inr (outfilename, fs)
              end
          end
        else inr (outfilename, fs) in
      match renamed with
      | inl e => (Raised e, fs)
      | inr (outfilename, fs) =>
          let unpackedfilesandlabels := unpackedfilesandlabels ++ [(outfilename, [])] in
          let labels :=
            if ((offset =? 0) && (offset + unpackedsize =? filesize))%bool
            then labels ++ ["gzip"; "compressed"]%string else labels in
          (Returned (Result true unpackedsize unpackedfilesandlabels labels unpackingerror), fs)
      end
  end.

(** the name under which [unpackGzip] first writes the decompressed data *)
Definition gzip_outfilename (filename unpackdir : string) : string :=
  if endswith filename ".gz"
  then path_join unpackdir (drop_last 3 (basename filename))
  else path_join unpackdir "unpacked-from-gz".

(** [unpackGzip] from the point where the DEFLATE data starts: the output
    file, the decompression loop, and then the trailer *)
Definition gzip_body (fuel : nat) (filename : string) (data : bytes) (offset : Z)
    (unpackdir : string) (fs : FS) (checkfile : FileObj) (unpackedsize : Z)
    (havefname : bool) (origname : bytes) : Run :=
  let decompressor := z_decompressobj zlib in
  let outfilename := gzip_outfilename filename unpackdir in
  let fs := write_file outfilename [] fs in
  let gzipcrc32 := crc32 [] in
  let readsize := 10000000 in
  let checkbytes := zeros (Z.to_nat readsize) in
  match while_loop (gzip_block offset unpackdir outfilename fs) fuel
          {| gz_checkfile := checkfile; gz_checkbytes := checkbytes;
             gz_decompressor := decompressor; gz_outdata := [];
             gz_gzipcrc32 := gzipcrc32; gz_unpackedsize := unpackedsize |} with
  | None => (Diverged, fs)
  | Some (inr run) => run
  | Some (inl st) =>
      gzip_trailer data offset unpackdir outfilename fs havefname origname
        (gz_checkfile st) (gz_unpackedsize st) (gz_outdata st)
  end.

Definition unpackGzip (fuel : nat) (filename : string) (data : bytes) (offset : Z)
    (unpackdir temporarydirectory : string) (fs : FS) : Run :=
  let filesize := len data in
  let unpackedfilesandlabels : list (string * list string) := [] in
  let labels : list string := [] in
  let unpackedsize := 0 in
  let checkfile := seek (open_rb data) (offset + 3) in
  let unpackedsize := unpackedsize + 3 in
  let '(checkbytes, checkfile) := read checkfile 1 in
  match checkbytes with
  | [flags] =>
      let flags := byte_val flags in
      if bit flags 2 =? 1 then
        (Returned (Result false 0 unpackedfilesandlabels labels
                     (Some (Error (offset + unpackedsize) false "unsupported multi-part gzip"))), fs)
      else if bit flags 5 =? 1 then
        (Returned (Result false 0 unpackedfilesandlabels labels
                     (Some (Error (offset + unpackedsize) false "unsupported encrypted"))), fs)
      else if ((bit flags 6 =? 1) || (bit flags 7 =? 1))%bool then
        (Returned (Result false 0 unpackedfilesandlabels labels
                     (Some (Error (offset + unpackedsize) false "not a valid gzip file"))), fs)
      else
      let unpackedsize := unpackedsize + 1 in
      let havecrc16 := bit flags 1 =? 1 in
      let havefextra := bit flags 2 =? 1 in
      let havefname := bit flags 3 =? 1 in
      let havecomment := bit flags 4 =? 1 in
      let checkfile := seek_cur checkfile 4 in
      let unpackedsize := unpackedsize + 4 in
      let checkfile := seek_cur checkfile 2 in
      let unpackedsize := unpackedsize + 2 in
      (* optional XLEN *)
      let extra : UnpackResult + FileObj * Z :=
        if havefextra then
          let '(checkbytes, checkfile) := read checkfile 2 in
          if negb (len checkbytes =? 2) then
            inl (Result false 0 unpackedfilesandlabels labels
                   (Some (Error (offset + unpackedsize) false "not enough data")))
          else
            let xlen := from_bytes_little checkbytes in
            if tell checkfile + xlen >? filesize then
              inl (Result false 0 unpackedfilesandlabels labels
                     (Some (Error (offset + unpackedsize) false "extra data outside of file")))
            else inr (checkfile, unpackedsize + (xlen + 2))
        else inr (checkfile, unpackedsize) in
      match extra with
      | inl r => (Returned r, fs)
      | inr (checkfile, unpackedsize) =>
      (* the original file name, if any *)
      let name : UnpackResult + FileObj * Z * bytes :=
        if havefname then
          match read_until_nul (drop (Z.to_nat (tell checkfile)) data) [] 0 with
          | inl n =>
              inl (Result false 0 unpackedfilesandlabels labels
                     (Some (Error (offset + (unpackedsize + n)) false
                              "file name data outside of file")))
          | inr (origname, n) =>
              inr (seek_cur checkfile n, unpackedsize + n, origname)
          end
        else inr (checkfile, unpackedsize, []) in
      match name with
      | inl r => (Returned r, fs)
      | inr (checkfile, unpackedsize, origname) =>
      (* the comment *)
      let comment : UnpackResult + FileObj * Z :=
        if havecomment then
          match read_until_nul (drop (Z.to_nat (tell checkfile)) data) [] 0 with
          | inl n =>
              inl (Result false 0 unpackedfilesandlabels labels
                     (Some (Error (offset + (unpackedsize + n)) false
                              "comment data outside of file")))
          | inr (origcomment, n) => inr (seek_cur checkfile n, unpackedsize + n)
          end
        else inr (checkfile, unpackedsize) in
      match comment with
      | inl r => (Returned r, fs)
      | inr (checkfile, unpackedsize) =>
      (* the CRC16, if present *)
      let '(checkfile, unpackedsize) :=
        if havecrc16 then (seek_cur checkfile 2, unpackedsize + 2)
        else (checkfile, unpackedsize) in
      let '(checkbytes, checkfile) := read checkfile 1 in
      match checkbytes with
      | [first] =>
          if ((bit (byte_val first) 1 =? 1) && (bit (byte_val first) 2 =? 1))%bool then
            (Returned (Result false 0 unpackedfilesandlabels labels
                         (Some (Error (offset + unpackedsize) false "wrong DEFLATE header"))), fs)
          else
          let checkfile := seek_cur checkfile (-1) in
          gzip_body fuel filename data offset unpackdir fs checkfile unpackedsize
            havefname origname
      | _ =>
          (Returned (Result false 0 unpackedfilesandlabels labels
                       (Some (Error (offset + unpackedsize) false "not enough data"))), fs)
      end
      end end end
  | _ =>
      (Returned (Result false 0 unpackedfilesandlabels labels
                   (Some (Error (offset + unpackedsize) false "not enough data"))), fs)
  end.

(** ** BMP *)

Definition unpackBMP (filename : string) (data : bytes) (offset : Z)
    (unpackdir temporarydirectory : string) (fs : FS) : Run :=
  let filesize := len data in
  let unpackedfilesandlabels : list (string * list string) := [] in
  let labels : list string := [] in
  let unpackingerror : option UnpackError := None in
  if filesize - offset <? 26 then
    (Returned (Result false 0 unpackedfilesandlabels labels
                 (Some (Error offset false "File too small (less than 26 bytes"))), fs)
  else
  let unpackedsize := 0 in
  let checkfile := seek (open_rb data) (offset + 2) in
  let unpackedsize := unpackedsize + 2 in
  let '(checkbytes, checkfile) := read checkfile 4 in
  let bmpsize := from_bytes_little checkbytes in
  if offset + bmpsize >? filesize then
    (Returned (Result false 0 unpackedfilesandlabels labels
                 (Some (Error offset false "not enough data for BMP file"))), fs)
  else
  let checkfile := seek_cur checkfile 4 in
  let unpackedsize := unpackedsize + 4 in
  let '(checkbytes, checkfile) := read checkfile 4 in
  let bmpoffset := from_bytes_little checkbytes in
  let unpackedsize := unpackedsize + 4 in
  if offset + bmpoffset >? filesize then
    (Returned (Result false 0 unpackedfilesandlabels labels
                 (Some (Error offset false "not enough data for BMP"))), fs)
  else
  let '(checkbytes, checkfile) := read checkfile 2 in
  let dibheadersize := from_bytes_little checkbytes in
  if negb (bool_decide (dibheadersize ∈ [12; 64; 16; 40; 52; 56; 108; 124])) then
    (Returned (Result false 0 unpackedfilesandlabels labels
                 (Some (Error offset false "invalid DIB header"))), fs)
  else if offset + 14 + dibheadersize >? filesize then
    (Returned (Result false 0 unpackedfilesandlabels labels
                 (Some (Error offset false "not enough data for DIB header"))), fs)
  else if bmpoffset <? dibheadersize + 14 then
    (Returned (Result false 0 unpackedfilesandlabels labels
                 (Some (Error offset false "invalid BMP data offset"))), fs)
  else
  let unpackedsize := unpackedsize + 2 in
  if negb (shutil_which host "bmptopnm") then
    (Returned (Result false unpackedsize unpackedfilesandlabels labels
                 (Some (Error (offset + unpackedsize) false "bmptopnm program not found"))), fs)
  else
  let checkfile := seek checkfile offset in
  let '(checkbytes, checkfile) := read checkfile bmpsize in
  if negb (run_bmptopnm host checkbytes =? 0) then
    (Returned (Result false 0 unpackedfilesandlabels labels
                 (Some (Error offset false "invalid BMP"))), fs)
  else if ((offset =? 0) && (filesize =? bmpsize))%bool then
    let labels := labels ++ ["bmp"; "graphics"]%string in
    (Returned (Result true filesize unpackedfilesandlabels labels unpackingerror), fs)
  else
  let outfilename := path_join unpackdir "unpacked.bmp" in
  let fs := write_file outfilename checkbytes fs in
  let unpackedfilesandlabels :=
    unpackedfilesandlabels ++ [(outfilename, ["bmp"; "graphics"; "unpacked"]%string)] in
  (Returned (Result true bmpsize unpackedfilesandlabels labels unpackingerror), fs).

(** ** LZMA and XZ *)

(** the local variables that change in the loop of [unpackLZMAWrapper] *)
Record LzmaState := {
  lz_checkfile : FileObj;
  lz_checkdata : bytes;
  lz_decompressor : lobj lzma;
  lz_outdata : bytes;
  lz_unpackedsize : Z
}.

(** one pass of [while checkdata != b'']; [fs] holds the output file as
    created *)
Definition lzma_block (offset : Z) (outfilename ppfiletype : string) (fs : FS)
    (st : LzmaState) : Step LzmaState Run :=
  let unpackedfilesandlabels : list (string * list string) := [] in
  let labels : list string := [] in
  let checkdata := lz_checkdata st in
  let unpackedsize := lz_unpackedsize st in
  if bytes_eqb checkdata [] then Break st else
  match l_decompress lzma (lz_decompressor st) checkdata with
  | LzmaEOFError => Break st
  | LzmaError =>
      let fs := write_file outfilename (lz_outdata st) fs in
      match os_unlink outfilename fs with
      | None => Return (Raised (FileNotFoundError outfilename), fs)
      | Some fs =>
          Return (Returned (Result false 0 unpackedfilesandlabels labels
                    (Some (Error (offset + unpackedsize) false
                             ("File not a valid " ++ ppfiletype ++ " file")))), fs)
      end
  | LzmaData unpackeddata decompressor =>
      let outdata := lz_outdata st ++ unpackeddata in
      let unpackedsize :=
        unpackedsize + (len checkdata - len (l_unused_data lzma decompressor)) in
      if negb (bytes_eqb (l_unused_data lzma decompressor) []) then
        Break {| lz_checkfile := lz_checkfile st; lz_checkdata := checkdata;
                 lz_decompressor := decompressor; lz_outdata := outdata;
                 lz_unpackedsize := unpackedsize |}
      else
        let datareadsize := 10000000 in
        let '(checkdata, checkfile) := read (lz_checkfile st) datareadsize in
        Continue {| lz_checkfile := checkfile; lz_checkdata := checkdata;
                    lz_decompressor := decompressor; lz_outdata := outdata;
                    lz_unpackedsize := unpackedsize |}
  end.

Definition unpackLZMAWrapper (filename : string) (data : bytes) (offset : Z)
    (unpackdir extension filetype ppfiletype : string) (lzmaunpackedsize : Z)
    (fs : FS) : Run :=
  let filesize := len data in
  let unpackedfilesandlabels : list (string * list string) := [] in
  let labels : list string := [] in
  let unpackingerror : option UnpackError := None in
  let unpackedsize := 0 in
  let checkfile := seek (open_rb data) offset in
  let decompressor := l_LZMADecompressor lzma in
  let '(checkdata, checkfile) := read checkfile 900000 in
  match l_decompress lzma decompressor checkdata with
  | LzmaEOFError | LzmaError =>
      (Returned (Result false 0 unpackedfilesandlabels labels
                   (Some (Error (offset + unpackedsize) false
                            ("not valid " ++ ppfiletype ++ " data")))), fs)
  | LzmaData unpackeddata decompressor =>
      let outfilename : option string :=
        if String.eqb filetype "xz" then
          if endswith filename ".xz"
          then Some (path_join unpackdir (drop_last 3 (basename filename)))
          else Some (path_join unpackdir ("unpacked-from-" ++ filetype))
        else if String.eqb filetype "lzma" then
          if endswith filename ".lzma"
          then Some (path_join unpackdir (drop_last 5 (basename filename)))
          else Some (path_join unpackdir ("unpacked-from-" ++ filetype))
        else None in
      match outfilename with
      | None => (Raised (UnboundLocalError "outfilename"), fs)
      | Some outfilename =>
      let fs := write_file outfilename unpackeddata fs in
      let unpackedsize :=
        unpackedsize + (len checkdata - len (l_unused_data lzma decompressor)) in
      let datareadsize := 10000000 in
      let '(checkdata, checkfile) := read checkfile datareadsize in
      match while_loop (lzma_block offset outfilename ppfiletype fs) (S (length data))
              {| lz_checkfile := checkfile; lz_checkdata := checkdata;
                 lz_decompressor := decompressor; lz_outdata := unpackeddata;
                 lz_unpackedsize := unpackedsize |} with
      | None => (Diverged, fs)
      | Some (inr run) => run
      | Some (inl st) =>
          let unpackedsize := lz_unpackedsize st in
          let fs := write_file outfilename (lz_outdata st) fs in
          let failed (fs : FS) (why : string) : Run :=
            match os_unlink outfilename fs with
            | None => (Raised (FileNotFoundError outfilename), fs)
            | Some fs =>
                (Returned (Result false 0 unpackedfilesandlabels labels
                             (Some (Error (offset + unpackedsize) false why))), fs)
            end in
          match st_size outfilename fs with
          | None => (Raised (FileNotFoundError outfilename), fs)
          | Some size =>
              if size =? 0 then
                failed fs ("File not a valid " ++ ppfiletype ++ " file")%string
              else if (String.eqb filetype "lzma" && negb (lzmaunpackedsize =? -1)
                       && negb (lzmaunpackedsize =? size))%bool then
                failed fs ("length of unpacked " ++ ppfiletype
                           ++ " data does not correspond with header")%string
              else
              let whole := ((offset =? 0) && (unpackedsize =? filesize))%bool in
              let renamed : PyException + string * FS :=
                if (whole && endswith (lower filename) extension)%bool then
                  let newoutfilename :=
                    path_join unpackdir
                      (drop_last (String.length extension) (basename filename)) in
                  match shutil_move host outfilename newoutfilename fs with
                  | None => inl (OSError "shutil.move")
                  | Some fs => inr (newoutfilename, fs)
                  end
                else inr (outfilename, fs) in
              match renamed with
              | inl e => (Raised e, fs)
              | inr (outfilename, fs) =>
                  let labels :=
                    if whole then labels ++ [filetype; "compressed"%string] else labels in
                  let unpackedfilesandlabels :=
                    unpackedfilesandlabels ++ [(outfilename, [])] in
                  (Returned (Result true unpackedsize unpackedfilesandlabels labels
                               unpackingerror), fs)
              end
          end
      end
      end
  end.

Definition unpackLZMA (filename : string) (data : bytes) (offset : Z)
    (unpackdir temporarydirectory : string) (fs : FS) : Run :=
  let filesize := len data in
  let unpackedfilesandlabels : list (string * list string) := [] in
  let labels : list string := [] in
  if filesize - offset <? 13 then
    (Returned (Result false 0 unpackedfilesandlabels labels
                 (Some (Error offset false "not enough bytes"))), fs)
  else
  let checkfile := seek (open_rb data) (offset + 5) in
  let '(checkbytes, checkfile) := read checkfile 8 in
  if negb (bytes_eqb checkbytes [xff; xff; xff; xff; xff; xff; xff; xff]) then
    let lzmaunpackedsize := from_bytes_little checkbytes in
    if lzmaunpackedsize =? 0 then
      (Returned (Result false 0 unpackedfilesandlabels labels
                   (Some (Error offset false "declared size 0"))), fs)
    else if lzmaunpackedsize >? 274877906944 then
      (Returned (Result false 0 unpackedfilesandlabels labels
                   (Some (Error offset false "declared size too big"))), fs)
    else
      unpackLZMAWrapper filename data offset unpackdir ".lzma" "lzma" "LZMA"
        lzmaunpackedsize fs
  else
    let lzmaunpackedsize := -1 in
    unpackLZMAWrapper filename data offset unpackdir ".lzma" "lzma" "LZMA"
      lzmaunpackedsize fs.

Definition unpackXZ (filename : string) (data : bytes) (offset : Z)
    (unpackdir temporarydirectory : string) (fs : FS) : Run :=
  unpackLZMAWrapper filename data offset unpackdir ".xz" "xz" "XZ" (-1) fs.

(** ** Timezone files (TZif) *)

(** [for i in range(0, n)] with a body that does not use [i] and may leave
    the function *)
Fixpoint for_range {S R : Type} (n : nat) (body : S -> R + S) (s : S) : R + S :=
  match n with
  | O => inr s
  | Datatypes.S n' =>
      match body s with
      | inl r => inl r
      | inr s' => for_range n' body s'
      end
  end.

(** the failure returns of [unpackTimeZone]: the size read so far is returned *)
Definition tz_fail (offset unpackedsize : Z) (why : string) : UnpackResult :=
  Result false unpackedsize [] [] (Some (Error (offset + unpackedsize) false why)).

(** [checkbytes = checkfile.read(k)], a length check, [unpackedsize += k] *)
Definition tz_read (offset k : Z) (why : string) (st : FileObj * Z)
  : UnpackResult + FileObj * Z :=
  let '(checkfile, unpackedsize) := st in
  let '(checkbytes, checkfile) := read checkfile k in
  if negb (len checkbytes =? k) then inl (tz_fail offset unpackedsize why)
  else inr (checkfile, unpackedsize + k).

(** the body of the loop over the transition time indices *)
Definition tz_index (offset local_times : Z) (st : FileObj * Z)
  : UnpackResult + FileObj * Z :=
  let '(checkfile, unpackedsize) := st in
  let '(checkbytes, checkfile) := read checkfile 1 in
  match checkbytes with
  | [c] =>
      let unpackedsize := unpackedsize + 1 in
      if byte_val c >? local_times then
        inl (tz_fail offset unpackedsize "invalid index for transition time")
      else inr (checkfile, unpackedsize)
  | _ => inl (tz_fail offset unpackedsize "not enough data for transition time")
  end.

(** the body of the loop over the ttinfo entries *)
Definition tz_ttinfo (offset tz_abbrevation_bytes : Z) (st : FileObj * Z)
  : UnpackResult + FileObj * Z :=
  match tz_read offset 4 "not enough data for ttinfo GMT offsets" st with
  | inl r => inl r
  | inr (checkfile, unpackedsize) =>
      let '(checkbytes, checkfile) := read checkfile 1 in
      match checkbytes with
      | [c] =>
          if negb ((byte_val c =? 0) || (byte_val c =? 1)) then
            inl (tz_fail offset unpackedsize "invalid value for ttinfo DST info")
          else
          let unpackedsize := unpackedsize + 1 in
          let '(checkbytes, checkfile) := read checkfile 1 in
          match checkbytes with
          | [c] =>
              if byte_val c >? tz_abbrevation_bytes then
                inl (tz_fail offset unpackedsize
                       "invalid value for ttinfo abbreviation index")
              else inr (checkfile, unpackedsize + 1)
          | _ => inl (tz_fail offset unpackedsize
                        "not enough data for ttinfo abbreviation index")
          end
      | _ => inl (tz_fail offset unpackedsize "not enough data for ttinfo DST info")
      end
  end.

(** the body of the loop over the leap second entries; the first field is
    [width] bytes wide *)
Definition tz_leap (offset width : Z) (st : FileObj * Z)
  : UnpackResult + FileObj * Z :=
  match tz_read offset width "not enough data for leap seconds" st with
  | inl r => inl r
  | inr st => tz_read offset 4 "not enough data for leap seconds" st
  end.

(** the six counts of a header *)
Record TzCounts := {
  ut_indicators : Z;
  standard_indicators : Z;
  leap_cnt : Z;
  transition_times : Z;
  local_times : Z;
  tz_abbrevation_bytes : Z
}.

(** the part of a header after its version byte: fifteen NUL bytes and the
    six counts (the text is the same for both headers) *)
Definition tz_header (offset : Z) (st : FileObj * Z)
  : UnpackResult + TzCounts * (FileObj * Z) :=
  let '(checkfile, unpackedsize) := st in
  let '(checkbytes, checkfile) := read checkfile 15 in
  if negb (bytes_eqb checkbytes (zeros 15)) then
    inl (tz_fail offset unpackedsize "reserved bytes not 0")
  else
  let unpackedsize := unpackedsize + 15 in
  let '(checkbytes, checkfile) := read checkfile 4 in
  let ut_indicators := from_bytes_big checkbytes in
  let unpackedsize := unpackedsize + 4 in
  let '(checkbytes, checkfile) := read checkfile 4 in
  let standard_indicators := from_bytes_big checkbytes in
  let unpackedsize := unpackedsize + 4 in
  let '(checkbytes, checkfile) := read checkfile 4 in
  let leap_cnt := from_bytes_big checkbytes in
  let unpackedsize := unpackedsize + 4 in
  let '(checkbytes, checkfile) := read checkfile 4 in
  let transition_times := from_bytes_big checkbytes in
  let unpackedsize := unpackedsize + 4 in
  let '(checkbytes, checkfile) := read checkfile 4 in
  let local_times := from_bytes_big checkbytes in
  let unpackedsize := unpackedsize + 4 in
  if local_times =? 0 then
    inl (tz_fail offset unpackedsize "local of times set to not-permitted 0")
  else
  let '(checkbytes, checkfile) := read checkfile 4 in
  let tz_abbrevation_bytes := from_bytes_big checkbytes in
  let unpackedsize := unpackedsize + 4 in
  inr ({| ut_indicators := ut_indicators;
          standard_indicators := standard_indicators;
          leap_cnt := leap_cnt;
          transition_times := transition_times;
          local_times := local_times;
          tz_abbrevation_bytes := tz_abbrevation_bytes |},
       (checkfile, unpackedsize)).

(** the data block after a header (the text is the same for both headers,
    but for the width of the times: 4 bytes after the first, 8 after the
    second) *)
Definition tz_data (offset width : Z) (c : TzCounts) (st : FileObj * Z)
  : UnpackResult + FileObj * Z :=
  match for_range (Z.to_nat (transition_times c))
          (tz_read offset width "not enough data for transition time") st with
  | inl r => inl r
  | inr st =>
  match for_range (Z.to_nat (transition_times c))
          (tz_index offset (local_times c)) st with
  | inl r => inl r
  | inr st =>
  match for_range (Z.to_nat (local_times c))
          (tz_ttinfo offset (tz_abbrevation_bytes c)) st with
  | inl r => inl r
  | inr st =>
  match tz_read offset (tz_abbrevation_bytes c)
          "not enough data for abbreviation bytes" st with
  | inl r => inl r
  | inr st =>
  match for_range (Z.to_nat (leap_cnt c)) (tz_leap offset width) st with
  | inl r => inl r
  | inr st =>
  match for_range (Z.to_nat (standard_indicators c))
          (tz_read offset 1 "not enough data for standard indicator") st with
  | inl r => inl r
  | inr st =>
      for_range (Z.to_nat (ut_indicators c))
        (tz_read offset 1 "not enough data for UT indicator") st
  end end end end end end.

(** [chr(c) in string.whitespace] and [chr(c) in string.printable] *)
Definition string_whitespace (c : Z) : bool :=
  ((c =? 32) || ((9 <=? c) && (c <=? 13)))%bool.
Definition string_printable (c : Z) : bool :=
  (((32 <=? c) && (c <=? 126)) || string_whitespace c)%bool.

(** the [while True] loop that reads the POSIX TZ string up to its closing
    newline, one byte at a time: [rest] is the file from the current position *)
Fixpoint tz_posix_string (offset : Z) (rest : bytes) (unpackedsize : Z)
  : Outcome UnpackResult + Z :=
  match rest with
  | [] =>
      inl (Returned (tz_fail offset unpackedsize
             "enclosing newline for POSIX TZ environment style string not found"))
  | c :: rest' =>
      let unpackedsize := unpackedsize + 1 in
      if bytes_eqb [c] [x0a] then inr unpackedsize
      else
        match lookup_global "string" with
        | Some e => inl (Raised e)
        | None =>
            if (negb (string_printable (byte_val c)) || string_whitespace (byte_val c))%bool
            then inl (Returned (tz_fail offset unpackedsize
                        "invalid character in POSIX TZ environment style string"))
            else tz_posix_string offset rest' unpackedsize
        end
  end.

(** the end of [unpackTimeZone], the same after either version: label the
    whole file or carve *)
Definition tz_finish (data : bytes) (offset : Z) (unpackdir : string) (fs : FS)
    (unpackedsize : Z) : Run :=
  let filesize := len data in
  let unpackedfilesandlabels : list (string * list string) := [] in
  let labels : list string := [] in
  let unpackingerror : option UnpackError := None in
  if ((offset =? 0) && (unpackedsize =? filesize))%bool then
    let labels := labels ++ ["resource"; "timezone"]%string in
    (Returned (Result true unpackedsize unpackedfilesandlabels labels unpackingerror), fs)
  else
    let outfilename := path_join unpackdir "unpacked-from-timezone" in
    let fs := write_file outfilename (sendfile data offset unpackedsize) fs in
    let unpackedfilesandlabels :=
      unpackedfilesandlabels ++ [(outfilename, ["timezone"; "resource"; "unpacked"]%string)] in
    (Returned (Result true unpackedsize unpackedfilesandlabels labels unpackingerror), fs).

Definition unpackTimeZone (filename : string) (data : bytes) (offset : Z)
    (unpackdir temporarydirectory : string) (fs : FS) : Run :=
  let filesize := len data in
  let unpackedsize := 0 in
  if filesize - offset <? 44 then
    (Returned (tz_fail offset unpackedsize "not enough bytes"), fs)
  else
  let checkfile := seek (open_rb data) (offset + 4) in
  let unpackedsize := unpackedsize + 4 in
  let '(checkbytes, checkfile) := read checkfile 1 in
  let version : option Z :=
    if bytes_eqb checkbytes [x00] then Some 0
    else if bytes_eqb checkbytes [x32] then Some 2
    else if bytes_eqb checkbytes [x33] then Some 3
    else None in
  match version with
  | None => (Returned (tz_fail offset unpackedsize "invalid version"), fs)
  | Some version =>
  let unpackedsize := unpackedsize + 1 in
  match tz_header offset (checkfile, unpackedsize) with
  | inl r => (Returned r, fs)
  | inr (counts, st) =>
  match tz_data offset 4 counts st with
  | inl r => (Returned r, fs)
  | inr (checkfile, unpackedsize) =>
  if version =? 0 then tz_finish data offset unpackdir fs unpackedsize
  else
  if offset + unpackedsize + 44 >? filesize then
    (Returned (tz_fail offset unpackedsize
                 "not enough data for version 2 timezone header"), fs)
  else
  let '(checkbytes, checkfile) := read checkfile 4 in
  if negb (bytes_eqb checkbytes (b "TZif")) then
    (Returned (tz_fail offset unpackedsize "invalid magic for version 2 header"), fs)
  else
  let unpackedsize := unpackedsize + 4 in
  let '(checkbytes, checkfile) := read checkfile 1 in
  let newversion : option Z :=
    if bytes_eqb checkbytes [x32] then Some 2
    else if bytes_eqb checkbytes [x33] then Some 3
    else None in
  match newversion with
  | None => (Returned (tz_fail offset unpackedsize "invalid version"), fs)
  | Some newversion =>
  if negb (version =? newversion) then
    (Returned (tz_fail offset unpackedsize "versions in headers don't match"), fs)
  else
  let unpackedsize := unpackedsize + 1 in
  match tz_header offset (checkfile, unpackedsize) with
  | inl r => (Returned r, fs)
  | inr (counts, st) =>
  match tz_data offset 8 counts st with
  | inl r => (Returned r, fs)
  | inr (checkfile, unpackedsize) =>
  let '(checkbytes, checkfile) := read checkfile 1 in
  if negb (len checkbytes =? 1) then
    (Returned (tz_fail offset unpackedsize
                 "not enough data for POSIX TZ environment style string"), fs)
  else if negb (bytes_eqb checkbytes [x0a]) then
    (Returned (tz_fail offset unpackedsize
                 "wrong value for POSIX TZ environment style string"), fs)
  else
  let unpackedsize := unpackedsize + 1 in
  match tz_posix_string offset (drop (Z.to_nat (tell checkfile)) data) unpackedsize with
  | inl outcome => (outcome, fs)
  | inr unpackedsize => tz_finish data offset unpackdir fs unpackedsize
  end
  end end end end end end.

(** ** tar *)

(** the local variables that change in the member loop of [unpackTar], and
    the file system; [tar_unpackedname] is [None] while the variable
    [unpackedname] is unbound *)
Record TarState := {
  tar_obj : tobj tarfile;
  tar_fs : FS;
  tar_unpackedsize : Z;
  tar_tarunpacked : bool;
  tar_tarerror : bool;
  tar_unpackingerror : option UnpackError;
  tar_unpackedfilesandlabels : list (string * list string);
  tar_unpackedname : option string;
  tar_unpackedtarfilenames : list string
}.

(** the [except Exception as e] block of the member loop; [msg] is [str(e)]
    and [st] holds the variables as the [try] block left them *)
Definition tar_except (offset : Z) (unpackdir : string) (oldunpackedsize : Z)
    (tounpack msg : string) (st : TarState) : Step TarState (PyException * FS) :=
  let unpackedsize := oldunpackedsize in
  let tarerror := true in
  let unpackingerror := Some (Error (offset + unpackedsize) false msg) in
  let fs := tar_fs st in
  let leave (fs : FS) (unpackedname : option string) :=
    Break {| tar_obj := tar_obj st; tar_fs := fs;
             tar_unpackedsize := unpackedsize;
             tar_tarunpacked := tar_tarunpacked st;
             tar_tarerror := tarerror;
             tar_unpackingerror := unpackingerror;
             tar_unpackedfilesandlabels := tar_unpackedfilesandlabels st;
             tar_unpackedname := unpackedname;
             tar_unpackedtarfilenames := tar_unpackedtarfilenames st |} in
  if negb (String.eqb tounpack "") then
    match tar_unpackedname st with
    | None => Return (UnboundLocalError "unpackedname", fs)
    | Some unpackedname =>
        let unpackedname := path_join unpackdir unpackedname in
        let chmodded : option FS :=
          if negb (os_path_islink unpackedname fs) then os_chmod unpackedname fs
          else Some fs in
        match chmodded with
        | None => Return (FileNotFoundError unpackedname, fs)
        | Some fs =>
            if (os_path_isdir unpackedname fs && negb (os_path_islink unpackedname fs))%bool
            then leave (shutil_rmtree unpackedname fs) (Some unpackedname)
            else
              match os_unlink unpackedname fs with
              | None => Return (FileNotFoundError unpackedname, fs)
              | Some fs => leave fs (Some unpackedname)
              end
        end
    end
  else leave fs (tar_unpackedname st).

(** one pass of the [while True] loop over the members *)
Definition tar_member (offset : Z) (unpackdir : string) (st : TarState)
  : Step TarState (PyException * FS) :=
  let tounpack := ""%string in
  let oldunpackedsize := t_tell tarfile (tar_obj st) - offset in
  match t_next tarfile (tar_obj st) with
  | (TarNextRaises msg, unpacktar) =>
      tar_except offset unpackdir oldunpackedsize tounpack msg
        {| tar_obj := unpacktar; tar_fs := tar_fs st;
           tar_unpackedsize := tar_unpackedsize st;
           tar_tarunpacked := tar_tarunpacked st;
           tar_tarerror := tar_tarerror st;
           tar_unpackingerror := tar_unpackingerror st;
           tar_unpackedfilesandlabels := tar_unpackedfilesandlabels st;
           tar_unpackedname := tar_unpackedname st;
           tar_unpackedtarfilenames := tar_unpackedtarfilenames st |}
  | (TarNextNone, unpacktar) =>
      Break {| tar_obj := unpacktar; tar_fs := tar_fs st;
               tar_unpackedsize := tar_unpackedsize st;
               tar_tarunpacked := tar_tarunpacked st;
               tar_tarerror := tar_tarerror st;
               tar_unpackingerror := tar_unpackingerror st;
               tar_unpackedfilesandlabels := tar_unpackedfilesandlabels st;
               tar_unpackedname := tar_unpackedname st;
               tar_unpackedtarfilenames := tar_unpackedtarfilenames st |}
  | (TarNextInfo unpacktarinfo, unpacktar) =>
      if isdev unpacktarinfo then
        Continue {| tar_obj := unpacktar; tar_fs := tar_fs st;
                    tar_unpackedsize := tar_unpackedsize st;
                    tar_tarunpacked := tar_tarunpacked st;
                    tar_tarerror := tar_tarerror st;
                    tar_unpackingerror := tar_unpackingerror st;
                    tar_unpackedfilesandlabels := tar_unpackedfilesandlabels st;
                    tar_unpackedname := tar_unpackedname st;
                    tar_unpackedtarfilenames := tar_unpackedtarfilenames st |}
      else
      let tounpack := tar_name unpacktarinfo in
      match t_extract tarfile unpacktar unpacktarinfo unpackdir (tar_fs st) with
      | (Some msg, fs, unpacktar) =>
          tar_except offset unpackdir oldunpackedsize tounpack msg
            {| tar_obj := unpacktar; tar_fs := fs;
               tar_unpackedsize := tar_unpackedsize st;
               tar_tarunpacked := tar_tarunpacked st;
               tar_tarerror := tar_tarerror st;
               tar_unpackingerror := tar_unpackingerror st;
               tar_unpackedfilesandlabels := tar_unpackedfilesandlabels st;
               tar_unpackedname := tar_unpackedname st;
               tar_unpackedtarfilenames := tar_unpackedtarfilenames st |}
      | (None, fs, unpacktar) =>
          let unpackedsize := t_tell tarfile unpacktar - offset in
          let tarunpacked := true in
          let unpackedname := path_join unpackdir (tar_name unpacktarinfo) in
          let unpackedtarfilenames := unpackedname :: tar_unpackedtarfilenames st in
          let after (fs : FS) (unpackedfilesandlabels : list (string * list string)) :=
            {| tar_obj := unpacktar; tar_fs := fs;
               tar_unpackedsize := unpackedsize;
               tar_tarunpacked := tarunpacked;
               tar_tarerror := tar_tarerror st;
               tar_unpackingerror := tar_unpackingerror st;
               tar_unpackedfilesandlabels := unpackedfilesandlabels;
               tar_unpackedname := Some unpackedname;
               tar_unpackedtarfilenames := unpackedtarfilenames |} in
          if (isreg unpacktarinfo || isdir unpacktarinfo)%bool then
            match os_chmod unpackedname fs with
            | None =>
                tar_except offset unpackdir oldunpackedsize tounpack
                  ("[Errno 2] No such file or directory: '" ++ unpackedname ++ "'")
                  (after fs (tar_unpackedfilesandlabels st))
            | Some fs =>
                if negb (os_path_isdir unpackedname fs) then
                  Continue (after fs (tar_unpackedfilesandlabels st
                                      ++ [(path_join unpackdir (tar_name unpacktarinfo), [])]))
                else Continue (after fs (tar_unpackedfilesandlabels st))
            end
          else if issym unpacktarinfo then
            Continue (after fs (tar_unpackedfilesandlabels st
                                ++ [(path_join unpackdir (tar_name unpacktarinfo),
                                     ["symbolic link"%string])]))
          else Continue (after fs (tar_unpackedfilesandlabels st))
      end
  end.

(** one pass of [while offset + unpackedsize < filesize] over the padding *)
Definition tar_padding (offset filesize : Z) (st : FileObj * Z)
  : Step (FileObj * Z) unit :=
  let '(checkfile, unpackedsize) := st in
  if negb (offset + unpackedsize <? filesize) then Break st else
  let '(checkbytes, checkfile) := read checkfile 512 in
  if negb (len checkbytes =? 512) then Break (checkfile, unpackedsize)
  else if negb (bytes_eqb checkbytes (zeros 512)) then Break (checkfile, unpackedsize)
  else Continue (checkfile, unpackedsize + 512).

Definition unpackTar (fuel : nat) (filename : string) (data : bytes) (offset : Z)
    (unpackdir temporarydirectory : string) (fs : FS) : Run :=
  let filesize := len data in
  let unpackedfilesandlabels : list (string * list string) := [] in
  let labels : list string := [] in
  let unpackingerror : option UnpackError := None in
  let unpackedsize := 0 in
  let checkfile := seek (open_rb data) offset in
  match t_open tarfile data (tell checkfile) with
  | None => (Raised (ReadError "file could not be opened successfully"), fs)
  | Some unpacktar =>
  let tarunpacked := false in
  let tarerror := false in
  match while_loop (tar_member offset unpackdir) fuel
          {| tar_obj := unpacktar; tar_fs := fs;
             tar_unpackedsize := unpackedsize;
             tar_tarunpacked := tarunpacked;
             tar_tarerror := tarerror;
             tar_unpackingerror := unpackingerror;
             tar_unpackedfilesandlabels := unpackedfilesandlabels;
             tar_unpackedname := None;
             tar_unpackedtarfilenames := [] |} with
  | None => (Diverged, fs)
  | Some (inr (e, fs)) => (Raised e, fs)
  | Some (inl st) =>
      let fs := tar_fs st in
      let unpackedfilesandlabels := tar_unpackedfilesandlabels st in
      let unpackingerror := tar_unpackingerror st in
      if negb (tar_tarunpacked st) then
        let unpackingerror := Some (Error offset false "Not a valid tar file") in
        (Returned (Result false filesize unpackedfilesandlabels labels unpackingerror), fs)
      else
      let checkfile := seek checkfile (t_tell tarfile (tar_obj st)) in
      let unpackedsize := tell checkfile - offset in
      let padded : option Z :=
        if unpackedsize mod 512 =? 0 then
          match while_loop (tar_padding offset filesize) (S (length data))
                  (checkfile, unpackedsize) with
          | Some (inl (_, unpackedsize)) => Some unpackedsize
          | _ => None
          end
        else Some unpackedsize in
      match padded with
      | None => (Diverged, fs)
      | Some unpackedsize =>
          let labels :=
            if ((offset =? 0) && (unpackedsize =? filesize))%bool
            then labels ++ ["tar"; "archive"]%string else labels in
          (Returned (Result true unpackedsize unpackedfilesandlabels labels unpackingerror), fs)
      end
  end
  end.

(** ** ar *)

(** [for f in foundfiles]: remove what [ar x] left behind; the exception
    when a removal raises *)
Fixpoint ar_cleanup (unpackdir : string) (foundfiles : list string) (fs : FS)
  : PyException * FS + FS :=
  match foundfiles with
  | [] => inr fs
  | f :: rest =>
      if os_path_isdir (path_join unpackdir f) fs then
        ar_cleanup unpackdir rest (shutil_rmtree (path_join unpackdir f) fs)
      else
        match os_unlink (path_join unpackdir f) fs with
        | None => inl (FileNotFoundError (path_join unpackdir f), fs)
        | Some fs => ar_cleanup unpackdir rest fs
        end
  end.

(** [for f in foundfiles]: the files and the labels of the result *)
Fixpoint ar_found (filename unpackdir : string) (foundfiles : list string)
    (unpackedfilesandlabels : list (string * list string)) (labels : list string)
  : list (string * list string) * list string :=
  match foundfiles with
  | [] => (unpackedfilesandlabels, labels)
  | f :: rest =>
      let outputfilename := path_join unpackdir f in
      let unpackedfilesandlabels := unpackedfilesandlabels ++ [(outputfilename, [])] in
      let labels :=
        if (String.eqb f "debian-binary"
            && (endswith (lower filename) ".deb" || endswith (lower filename) ".udeb"))%bool
        then labels ++ ["debian"; "deb"]%string else labels in
      ar_found filename unpackdir rest unpackedfilesandlabels labels
  end.

Definition unpackAr (filename : string) (data : bytes) (offset : Z)
    (unpackdir temporarydirectory : string) (fs : FS) : Run :=
  let filesize := len data in
  let unpackedfilesandlabels : list (string * list string) := [] in
  let labels : list string := [] in
  let unpackingerror : option UnpackError := None in
  let unpackedsize := 0 in
  if negb (offset =? 0) then
    (Returned (Result false unpackedsize unpackedfilesandlabels labels
                 (Some (Error (offset + unpackedsize) false
                          "Currently only works on whole files"))), fs)
  else if negb (shutil_which host "ar") then
    (Returned (Result false unpackedsize unpackedfilesandlabels labels
                 (Some (Error (offset + unpackedsize) false "ar program not found"))), fs)
  else if negb (run_ar_t host filename data =? 0) then
    (Returned (Result false unpackedsize unpackedfilesandlabels labels
                 (Some (Error (offset + unpackedsize) false "Not a valid ar file"))), fs)
  else
  let '(returncode, fs) := run_ar_x host filename data unpackdir fs in
  if negb (returncode =? 0) then
    let foundfiles := os_listdir host unpackdir fs in
    match ar_cleanup unpackdir foundfiles fs with
    | inl (e, fs) => (Raised e, fs)
    | inr fs =>
        (Returned (Result false unpackedsize unpackedfilesandlabels labels
                     (Some (Error (offset + unpackedsize) false "Not a valid ar file"))), fs)
    end
  else
  let foundfiles := os_listdir host unpackdir fs in
  let labels := labels ++ ["archive"; "ar"]%string in
  let '(unpackedfilesandlabels, labels) :=
    ar_found filename unpackdir foundfiles unpackedfilesandlabels labels in
  (Returned (Result true filesize unpackedfilesandlabels labels unpackingerror), fs).

(** ** squashfs *)

(** [for l in listoffiles: shutil.move(l, unpackdir, copy_function=local_copy2)] *)
Fixpoint squashfs_move (cwd unpackdir : string) (listoffiles : list string) (fs : FS)
  : PyException * FS + FS :=
  match listoffiles with
  | [] => inr fs
  | l :: rest =>
      match shutil_move_from host cwd l unpackdir fs with
      | None => inl (OSError "shutil.move", fs)
      | Some fs => squashfs_move cwd unpackdir rest fs
      end
  end.

(** [for subdir in direntries[1]]: make the directories accessible *)
Fixpoint squashfs_chmod (subdirs : list string) (fs : FS) : PyException * FS + FS :=
  match subdirs with
  | [] => inr fs
  | subdirname :: rest =>
      if negb (os_path_islink subdirname fs) then
        match os_chmod subdirname fs with
        | None => inl (FileNotFoundError subdirname, fs)
        | Some fs => squashfs_chmod rest fs
        end
      else squashfs_chmod rest fs
  end.

Definition unpackSquashfs (filename : string) (data : bytes) (offset : Z)
    (unpackdir temporarydirectory : string) (fs : FS) : Run :=
  let filesize := len data in
  let unpackedfilesandlabels : list (string * list string) := [] in
  let labels : list string := [] in
  let unpackingerror : option UnpackError := None in
  let unpackedsize := 0 in
  let from_bytes (bigendian : bool) (x : bytes) :=
    if bigendian then from_bytes_big x else from_bytes_little x in
  if negb (shutil_which host "unsquashfs") then
    (Returned (Result false unpackedsize unpackedfilesandlabels labels
                 (Some (Error (offset + unpackedsize) false "unsquashfs program not found"))), fs)
  else if filesize - offset <? 30 then
    (Returned (Result false unpackedsize unpackedfilesandlabels labels
                 (Some (Error (offset + unpackedsize) false "not enough data"))), fs)
  else
  let checkfile := seek (open_rb data) offset in
  let '(checkbytes, checkfile) := read checkfile 4 in
  let bigendian := if bytes_eqb checkbytes (b "hsqs") then false else true in
  let checkfile := seek checkfile (offset + 28) in
  let '(checkbytes, checkfile) := read checkfile 2 in
  let majorversion := from_bytes bigendian checkbytes in
  if ((majorversion =? 0) || (majorversion >? 4))%bool then
    (Returned (Result false unpackedsize unpackedfilesandlabels labels
                 (Some (Error (offset + unpackedsize) false "invalid squashfs version"))), fs)
  else
  (* the size field: [inl] is a failure return, [inr None] leaves
     [squashfssize] unbound *)
  let sized (at_ width : Z) : UnpackResult + option Z :=
    let checkfile := seek checkfile (offset + at_) in
    let '(checkbytes, checkfile) := read checkfile width in
    if negb (len checkbytes =? width) then
      inl (Result false unpackedsize unpackedfilesandlabels labels
             (Some (Error (offset + unpackedsize) false "not enough data to read size")))
    else inr (Some (from_bytes bigendian checkbytes)) in
  let squashfssize : UnpackResult + option Z :=
    if majorversion =? 4 then sized 40 8
    else if majorversion =? 3 then sized 63 8
    else if majorversion =? 2 then sized 8 4
    else inr None in
  match squashfssize with
  | inl r => (Returned r, fs)
  | inr None => (Raised (UnboundLocalError "squashfssize"), fs)
  | inr (Some squashfssize) =>
  if offset + squashfssize >? filesize then
    (Returned (Result false unpackedsize unpackedfilesandlabels labels
                 (Some (Error (offset + unpackedsize) false
                          "file system cannot extend past file"))), fs)
  else
  let temporaryfile := mkstemp host temporarydirectory fs in
  let fs :=
    if negb (offset =? 0)
    then write_file temporaryfile (sendfile data offset (filesize - offset)) fs
    else fs in
  let squashfsunpackdirectory := mkdtemp host temporarydirectory fs in
  let fs := <[squashfsunpackdirectory := Directory]> fs in
  let '(returncode, fs) :=
    if negb (offset =? 0)
    then run_unsquashfs host (sendfile data offset (filesize - offset))
           squashfsunpackdirectory fs
    else run_unsquashfs host data squashfsunpackdirectory fs in
  let unlinked : option FS :=
    if negb (offset =? 0) then os_unlink temporaryfile fs else Some fs in
  match unlinked with
  | None => (Raised (FileNotFoundError temporaryfile), fs)
  | Some fs =>
  if negb (returncode =? 0) then
    let fs := shutil_rmtree squashfsunpackdirectory fs in
    (Returned (Result false unpackedsize unpackedfilesandlabels labels
                 (Some (Error (offset + unpackedsize) false "Not a valid squashfs file"))), fs)
  else
  let foundfiles := os_listdir host squashfsunpackdirectory fs in
  let moved : PyException * FS + FS :=
    match foundfiles with
    | [found] =>
        let cwd :=
          if String.eqb found "squashfs-root"
          then path_join squashfsunpackdirectory "squashfs-root"
          else squashfsunpackdirectory in
        squashfs_move cwd unpackdir (os_listdir host cwd fs) fs
    | _ => inr fs
    end in
  match moved with
  | inl (e, fs) => (Raised e, fs)
  | inr fs =>
  let fs := shutil_rmtree squashfsunpackdirectory fs in
  match squashfs_chmod (os_walk_dirs host unpackdir fs) fs with
  | inl (e, fs) => (Raised e, fs)
  | inr fs =>
  let unpackedfilesandlabels :=
    unpackedfilesandlabels
    ++ map (fun fullfilename => (fullfilename, [])) (os_walk_files host unpackdir fs) in
  let unpackingerror := Some (Error offset false "Not a valid Squashfs") in
  (Returned (Result true squashfssize unpackedfilesandlabels labels unpackingerror), fs)
  end end end end.

(** ** The unpackers behind their common interface *)

Inductive Unpacker :=
  | WebP | WAV | ANI | PNG | Gzip | BMP | LZMA | XZ | TimeZone | Tar | Ar | Squashfs.

(** [fuel] bounds the passes of the two loops that the libraries drive
    (feeding the gzip decompressor, asking [tarfile] for the next member) *)
Definition unpack (u : Unpacker) (fuel : nat) (filename : string) (data : bytes)
    (offset : Z) (unpackdir temporarydirectory : string) (fs : FS) : Run :=
  match u with
  | WebP => unpackWebP filename data offset unpackdir temporarydirectory fs
  | WAV => unpackWAV filename data offset unpackdir temporarydirectory fs
  | ANI => unpackANI filename data offset unpackdir temporarydirectory fs
  | PNG => unpackPNG filename data offset unpackdir temporarydirectory fs
  | Gzip => unpackGzip fuel filename data offset unpackdir temporarydirectory fs
  | BMP => unpackBMP filename data offset unpackdir temporarydirectory fs
  | LZMA => unpackLZMA filename data offset unpackdir temporarydirectory fs
  | XZ => unpackXZ filename data offset unpackdir temporarydirectory fs
  | TimeZone => unpackTimeZone filename data offset unpackdir temporarydirectory fs
  | Tar => unpackTar fuel filename data offset unpackdir temporarydirectory fs
  | Ar => unpackAr filename data offset unpackdir temporarydirectory fs
  | Squashfs => unpackSquashfs filename data offset unpackdir temporarydirectory fs
  end.

End Unpackers.

(** * Invariants, sample hosts and sample inputs *)

(** the file object reads the file being scanned, from a position that is
    not negative *)
Definition reads (data : bytes) (f : FileObj) : Prop :=
  fdata f = data /\ 0 <= fpos f.

(** the bytes left after the position of a file object *)
Definition left_in (data : bytes) (f : FileObj) : nat :=
  Z.to_nat (len data - fpos f).

(** the chunk loop of [unpackPNG] reads the file being scanned *)
Definition png_inv (data : bytes) (st : PngState) : Prop :=
  reads data (png_checkfile st).

(** the bytes left after the position of the chunk loop *)
Definition png_left (data : bytes) (st : PngState) : nat :=
  left_in data (png_checkfile st).

(** ** Sample hosts and inputs *)

(** a host on which the external programs are installed and accept their
    input, PIL loads every image, and nothing is extracted *)
Definition plain_host : Host :=
  {| PIL_load := fun _ => true;
     shutil_which := fun _ => true;
     shutil_move := fun src dst fs =>
       match fs !! src with
       | Some n => Some (<[dst := n]> (delete src fs))
       | None => None
       end;
     shutil_move_from := fun cwd src dst fs =>
       match fs !! path_join cwd src with
       | Some n => Some (<[path_join dst src := n]> (delete (path_join cwd src) fs))
       | None => None
       end;
     bytes_decode := fun x => Some (string_of_list_byte x);
     bytes_repr := fun x => string_of_list_byte x;
     run_bmptopnm := fun _ => 0;
     run_ar_t := fun _ _ => 0;
     run_ar_x := fun _ _ _ fs => (0, fs);
     run_unsquashfs := fun _ _ fs => (0, fs);
     mkstemp := fun d _ => path_join d "tmpfile";
     mkdtemp := fun d _ => path_join d "tmpdir";
     os_listdir := fun _ _ => [];
     os_walk_files := fun _ _ => [];
     os_walk_dirs := fun _ _ => [] |}.

(** a 1x1 greyscale image: signature, IHDR, one IDAT, IEND *)
Definition png_1x1 : bytes :=
  [x89; x50; x4e; x47; x0d; x0a; x1a; x0a;
   x00; x00; x00; x0d; x49; x48; x44; x52; x00; x00; x00; x01; x00; x00; x00; x01;
   x08; x00; x00; x00; x00; x3a; x7e; x9b; x55;
   x00; x00; x00; x0a; x49; x44; x41; x54; x78; x9c; x63; x60; x00; x00; x00; x02;
   x00; x01; x48; xaf; xa4; x71;
   x00; x00; x00; x00; x49; x45; x4e; x44; xae; x42; x60; x82].

(** the same image cut after the header of an IDAT chunk that declares 30
    bytes of data: 28 bytes are left from its size field on *)
Definition png_cut : bytes :=
  take 33 png_1x1 ++ [x00; x00; x00; x1e; x49; x44; x41; x54] ++ zeros 20.

(** the same image with a last chunk IEND of four data bytes, chosen so
    that the CRC-32 of the chunk is 0, and the file ending before the CRC *)
Definition png_no_crc : bytes :=
  take 55 png_1x1 ++ [x00; x00; x00; x04; x49; x45; x4e; x44; x1f; x6a; x9b; xc3].

(** an LZMA header that declares an uncompressed size of 0 *)
Definition lzma_size_0 : bytes :=
  [x5d; x00; x00; x80; x00; x00; x00; x00; x00; x00; x00; x00; x00; x00; x83; xff].

(** a decompressor that takes nothing *)
Definition no_lzma : LzmaModule :=
  {| lobj := unit; l_LZMADecompressor := tt;
     l_decompress := fun _ _ => LzmaError; l_unused_data := fun _ => [] |}.

(** the byte of value [n mod 256], and a 32-bit big-endian field *)
Definition byte_of (n : Z) : byte :=
  match Byte.of_N (Z.to_N (n mod 256)) with Some x => x | None => x00 end.

Definition u32_be (n : Z) : bytes :=
  [byte_of (n / 2 ^ 24); byte_of (n / 2 ^ 16); byte_of (n / 2 ^ 8); byte_of n].

(** a TZif header with no indicators and no leap seconds *)
Definition tzif_header (version : byte) (timecnt typecnt charcnt : Z) : bytes :=
  b "TZif" ++ [version] ++ zeros 15
  ++ u32_be 0 ++ u32_be 0 ++ u32_be 0
  ++ u32_be timecnt ++ u32_be typecnt ++ u32_be charcnt.

(** one ttinfo entry (UTC offset 0, no DST, abbreviation 0) and the
    abbreviation "UTC" *)
Definition tzif_utc : bytes := zeros 4 ++ [x00; x00] ++ b "UTC" ++ [x00].

(** a version 0 file with one transition time and one local time type,
    whose transition index is 1: there is no local time type 1 *)
Definition tz_v0_index_1 : bytes :=
  tzif_header x00 1 1 4 ++ zeros 4 ++ [x01] ++ tzif_utc.

(** a version 2 file whose second data block has the same flaw, with an
    empty POSIX TZ string *)
Definition tz_v2_index_1 : bytes :=
  tzif_header x32 0 1 4 ++ tzif_utc
  ++ tzif_header x32 1 1 4 ++ zeros 8 ++ [x01] ++ tzif_utc
  ++ [x0a; x0a].

(** a well-formed version 2 file with the POSIX TZ string "UTC0" *)
Definition tz_v2_utc0 : bytes :=
  tzif_header x32 0 1 4 ++ tzif_utc
  ++ tzif_header x32 1 1 4 ++ zeros 8 ++ [x00] ++ tzif_utc
  ++ [x0a] ++ b "UTC0" ++ [x0a].

(** a little-endian squashfs superblock that declares major version 1 *)
Definition squashfs_v1 : bytes :=
  b "hsqs" ++ zeros 24 ++ [x01; x00] ++ zeros 66.

(** [tarfile] on data that holds no member: opening raises at position 0
    and gives an empty archive elsewhere, having read one block *)
Definition no_tar : TarfileModule :=
  {| tobj := Z;
     t_open := fun data pos =>
       if pos =? 0 then None else Some (Z.min (pos + 512) (len data));
     t_tell := fun t => t;
     t_next := fun t => (TarNextNone, t);
     t_extract := fun t _ _ fs => (None, fs, t) |}.

(** some bytes that are not a tar archive *)
Definition not_a_tar : bytes := b "no tar archive in here".

(** a DEFLATE decompressor object for streams of one final stored block
    that lies within one feed: the state is the data met after the end of
    the stream, once the stream has ended.  After the end, what is fed is
    unused data; any other stream raises. *)
Definition stored_decompress (st : option bytes) (x : bytes)
  : option (bytes * option bytes) :=
  match st with
  | Some unused => Some ([], Some (unused ++ x))
  | None =>
      match x with
      | hd :: l0 :: l1 :: n0 :: n1 :: rest =>
          let n := byte_val l0 + 256 * byte_val l1 in
          let unpackeddata := take (Z.to_nat n) rest in
          if ((byte_val hd =? 1)
              && (n + (byte_val n0 + 256 * byte_val n1) =? 65535)
              && (len unpackeddata =? n))%bool
          then Some (unpackeddata, Some (drop (Z.to_nat n) rest))
          else None
      | _ => None
      end
  end.

Definition stored_zlib : ZlibModule :=
  {| zobj := option bytes;
     z_decompressobj := None;
     z_decompress := stored_decompress;
     z_unused_data := fun st => match st with Some unused => unused | None => [] end |}.

(** a gzip member with no optional fields, holding the letter A in one
    final stored block, followed by the 8 bytes [trailer] *)
Definition gzip_A (trailer : bytes) : bytes :=
  [x1f; x8b; x08; x00; x00; x00; x00; x00; x00; x03]
  ++ [x01; x01; x00; xfe; xff; x41]
  ++ trailer.

(** the error is set exactly when [ok] is false *)
Definition agrees (r : UnpackResult) : Prop :=
  if ok r then error r = None else error r <> None.

(** the unpackers that carve the stream they recognise, and list nothing
    when the stream is the whole file *)
Definition carves_stream (u : Unpacker) : bool :=
  match u with
  | WebP | WAV | ANI | PNG | BMP | TimeZone => true
  | Gzip | LZMA | XZ | Tar | Ar | Squashfs => false
  end.

(** a 64-bit little-endian field *)
Definition u64_le (n : Z) : bytes :=
  [byte_of n; byte_of (n / 2 ^ 8); byte_of (n / 2 ^ 16); byte_of (n / 2 ^ 24);
   byte_of (n / 2 ^ 32); byte_of (n / 2 ^ 40); byte_of (n / 2 ^ 48); byte_of (n / 2 ^ 56)].

(** a little-endian squashfs superblock of major version 4 that declares
    a file system of 96 bytes, the size of the file *)
Definition squashfs_v4 : bytes :=
  b "hsqs" ++ zeros 24 ++ [x04; x00] ++ zeros 10 ++ u64_le 96 ++ zeros 48.

(** the measure of the loop of [unpackLZMAWrapper]: the bytes left in the
    file, and one more while the block read last is not empty *)
Definition lzma_left (lzma : LzmaModule) (data : bytes) (st : LzmaState lzma) : nat :=
  left_in data (lz_checkfile lzma st)
  + (if bytes_eqb (lz_checkdata lzma st) [] then 0 else 1)%nat.

(** ** More sample inputs and hosts *)

(** a WebP file of one empty chunk: the RIFF header declares the 12 bytes
    that follow it *)
Definition webp_small : bytes :=
  b "RIFF" ++ [x0c; x00; x00; x00] ++ b "WEBP" ++ b "VP8 " ++ zeros 4.

(** a BMP header that declares a file of 26 bytes, with the pixel data at
    26 and a DIB header of 12 bytes *)
Definition bmp_small : bytes :=
  b "BM" ++ [x1a; x00; x00; x00] ++ zeros 4 ++ [x1a; x00; x00; x00]
  ++ [x0c; x00] ++ zeros 10.

(** a well-formed version 0 timezone file with one transition time *)
Definition tz_v0_utc : bytes :=
  tzif_header x00 1 1 4 ++ zeros 4 ++ [x00] ++ tzif_utc.

(** a decompressor that gives back what follows the 13 bytes of the LZMA
    header, and leaves nothing unused *)
Definition copy_lzma : LzmaModule :=
  {| lobj := unit; l_LZMADecompressor := tt;
     l_decompress := fun _ x => LzmaData (drop 13 x) tt;
     l_unused_data := fun _ => [] |}.

(** an LZMA header that declares one byte, and one byte *)
Definition lzma_one : bytes :=
  [x5d; x00; x00; x80; x00] ++ [x01; x00; x00; x00; x00; x00; x00; x00] ++ [x41].

(** [plain_host] with an output directory in which [ar x] is seen to have
    left the entries [entries] *)
Definition listing_host (entries : list string) : Host :=
  {| PIL_load := PIL_load plain_host;
     shutil_which := shutil_which plain_host;
     shutil_move := shutil_move plain_host;
     shutil_move_from := shutil_move_from plain_host;
     bytes_decode := bytes_decode plain_host;
     bytes_repr := bytes_repr plain_host;
     run_bmptopnm := run_bmptopnm plain_host;
     run_ar_t := run_ar_t plain_host;
     run_ar_x := run_ar_x plain_host;
     run_unsquashfs := run_unsquashfs plain_host;
     mkstemp := mkstemp plain_host;
     mkdtemp := mkdtemp plain_host;
     os_listdir := fun _ _ => entries;
     os_walk_files := os_walk_files plain_host;
     os_walk_dirs := os_walk_dirs plain_host |}.

(** the start of a gzip member whose flags ask for a header CRC and an
    extra field *)
Definition gzip_fextra : bytes := [x1f; x8b; x08; x04; x00; x00; x00; x00; x00; x03].

(** the start of a gzip member with a file name that is not terminated *)
Definition gzip_open_name : bytes :=
  [x1f; x8b; x08; x08; x00; x00; x00; x00; x00; x03] ++ b "letter".

(** a gzip member that stores the name /etc/motd, holding the letter A in
    one final stored block, with its CRC-32 and its size *)
Definition gzip_named : bytes :=
  [x1f; x8b; x08; x08; x00; x00; x00; x00; x00; x03] ++ b "/etc/motd" ++ [x00]
  ++ [x01; x01; x00; xfe; xff; x41] ++ [x8b; x9e; xd9; xd3; x01; x00; x00; x00].

(** [tarfile] on an archive of two members, a character device and a
    FIFO: the state is the number of members already reported *)
Definition device_tar : TarfileModule :=
  {| tobj := nat;
     t_open := fun _ _ => Some 0%nat;
     t_tell := fun t => 512 * Z.of_nat t;
     t_next := fun t =>
       match t with
       | 0%nat => (TarNextInfo {| tar_name := "dev/console"; tar_type := CHRTYPE |}, 1%nat)
       | 1%nat => (TarNextInfo {| tar_name := "run/initctl"; tar_type := FIFOTYPE |}, 2%nat)
       | _ => (TarNextNone, t)
       end;
     t_extract := fun t info dir fs =>
       (None, write_file (path_join dir (tar_name info)) [] fs, t) |}.

(** ** Invariants and shapes of the results *)

(** the chunk loop reads the file being scanned, has not passed its end,
    and has counted at least the twelve bytes of the header *)
Definition riff_inv (data : bytes) (st : RiffState) : Prop :=
  reads data (riff_checkfile st)
  /\ fpos (riff_checkfile st) <= len data
  /\ 12 <= riff_unpackedsize st.

(** the declared length of a RIFF file at [offset]: the 32-bit
    little-endian field after the magic *)
Definition riff_length (data : bytes) (offset : Z) : Z :=
  from_bytes_little (take 4 (drop (Z.to_nat (offset + 4)) data)).

(** the name under which a RIFF unpacker carves, and its two labels *)
Definition riff_format (u : Unpacker) : option (string * list string) :=
  match u with
  | WebP => Some ("unpacked-webp", ["webp"; "graphics"])%string
  | WAV => Some ("unpacked-wav", ["wav"; "audio"])%string
  | ANI => Some ("unpacked-ani", ["ani"; "graphics"])%string
  | _ => None
  end.

(** the size a BMP file at [offset] declares: the 32-bit little-endian
    field after the two bytes of the magic *)
Definition bmp_size (data : bytes) (offset : Z) : Z :=
  from_bytes_little (take 4 (drop (Z.to_nat (offset + 2)) data)).

(** the chunk loop of [unpackPNG] has counted the bytes it read, but for
    the four bytes of a CRC that the file ended before; it has counted a
    whole chunk more than the header once it has seen an IDAT chunk *)
Definition png_counts (data : bytes) (offset : Z) (st : PngState) : Prop :=
  reads data (png_checkfile st)
  /\ (offset + png_unpackedsize st = fpos (png_checkfile st)
      /\ fpos (png_checkfile st) <= len data
      \/ len data <= fpos (png_checkfile st))
  /\ 33 <= png_unpackedsize st
  /\ (png_idatseen st = true -> 45 <= png_unpackedsize st).

(** the labels of a PNG file, animated or not *)
Definition png_tags (animated : bool) : list string :=
  if animated then ["png"; "graphics"; "animated"; "apng"]%string
  else ["png"; "graphics"]%string.

(** the position of the file object is the offset plus the bytes counted,
    inside the file, and at least [lo] bytes were counted *)
Definition tz_inv (data : bytes) (offset lo : Z) (st : FileObj * Z) : Prop :=
  fdata st.1 = data /\ 0 <= offset /\ fpos st.1 = offset + st.2
  /\ fpos st.1 <= len data /\ 0 <= lo <= st.2.

(** a failure lists no file and no label, and labels are given to the
    whole file only *)
Definition tags_follow (offset filesize : Z) (r : UnpackResult) : Prop :=
  (ok r = false -> carved r = [] /\ stream_tags r = [])
  /\ (stream_tags r <> [] -> offset = 0 /\ consumed r = filesize).

(** the member loop of [unpackTar] has listed nothing while no member was
    extracted *)
Definition tar_inv (tarfile : TarfileModule) (st : TarState tarfile) : Prop :=
  tar_tarunpacked tarfile st = false -> tar_unpackedfilesandlabels tarfile st = [].

(** the loop of [unpackLZMAWrapper] has counted no more than the bytes
    read before the block that waits to be decompressed *)
Definition lzma_counts (lzma : LzmaModule) (data : bytes) (offset : Z)
    (st : LzmaState lzma) : Prop :=
  reads data (lz_checkfile lzma st)
  /\ fpos (lz_checkfile lzma st) <= len data
  /\ lz_unpackedsize lzma st + len (lz_checkdata lzma st)
     <= fpos (lz_checkfile lzma st) - offset.

(** the size an LZMA file at [offset] declares: the 64-bit little-endian
    field after the five bytes of the properties *)
Definition lzma_declared (data : bytes) (offset : Z) : Z :=
  from_bytes_little (take 8 (drop (Z.to_nat (offset + 5)) data)).

(** the name under which [unpackLZMA] writes the decompressed data *)
Definition lzma_outfilename (filename unpackdir : string) : string :=
  if endswith filename ".lzma"
  then path_join unpackdir (drop_last 5 (basename filename))
  else path_join unpackdir "unpacked-from-lzma".

(** the file name is that of a Debian package *)
Definition deb_name (filename : string) : bool :=
  (endswith (lower filename) ".deb" || endswith (lower filename) ".udeb")%bool.

(** the member loop of [unpackTar] has extracted and listed nothing, and
    has left the file system as it found it *)
Definition tar_untouched (tarfile : TarfileModule) (fs : FS) (st : TarState tarfile)
  : Prop :=
  tar_fs tarfile st = fs /\ tar_tarunpacked tarfile st = false.

(** ** Tactics *)

(** case analysis on the tests of a function, one at a time *)
Ltac break_in H :=
  match type of H with
  | context [match ?X with _ => _ end] => destruct X eqn:?
  end.

Ltac break_goal :=
  match goal with
  | |- context [match ?X with _ => _ end] => destruct X eqn:?
  end.

(** finishes a branch in which the result is known *)
Ltac known_result H :=
  cbn [fst] in H; try discriminate H;
  try (injection H as <-; cbn [ok consumed carved stream_tags error] in *).

(** a result that stands for the whole file was not returned by a branch
    taken when the size differs from the size of the file *)
Ltac whole_file_contra :=
  match goal with
  | H : ((0 =? 0) && (?x =? ?y))%bool = false |- _ =>
      cbn [Z.eqb andb] in H; apply Z.eqb_neq in H; congruence
  end.

(** a branch that returns a failure, when the call succeeded *)
Ltac not_ok :=
  let H := fresh in let Hok := fresh in
  intros H Hok; injection H as <- <-; discriminate Hok.

(** * Properties *)

(** ** The helpers on some values *)

Example crc32_IEND : crc32 (b "IEND") = 0xAE426082.
Proof. vm_compute. reflexivity. Qed.

Example path_join_relative :
  path_join "out" (path_join "out" "unpacked-from-gz") = "out/out/unpacked-from-gz"%string.
Proof. reflexivity. Qed.

Example path_join_absolute :
  path_join "/out" (path_join "/out" "unpacked-from-gz") = "/out/unpacked-from-gz"%string.
Proof. reflexivity. Qed.

Example basename_gz : drop_last 3 (basename "/a/b/c.tar.gz") = "c.tar"%string.
Proof. reflexivity. Qed.

Example from_bytes_orders :
  from_bytes_big [x01; x02] = 258 /\ from_bytes_little [x01; x02] = 513.
Proof. split; reflexivity. Qed.

(** ** Reading from a file object *)

Lemma len_nonneg {A : Type} (l : list A) : 0 <= len l.
Proof. unfold len. lia. Qed.

Lemma read_data f n : fdata (snd (read f n)) = fdata f.
Proof. reflexivity. Qed.

Lemma read_pos f n : fpos (snd (read f n)) = fpos f + len (fst (read f n)).
Proof. reflexivity. Qed.

(** a read returns what is left of the file, up to the count asked for *)
Lemma read_len f n :
  0 <= fpos f -> 0 <= n ->
  len (fst (read f n)) = Z.min n (Z.max 0 (len (fdata f) - fpos f)).
Proof.
  intros Hpos Hn. unfold read, len. cbn [fst].
  rewrite length_take, length_drop. lia.
Qed.

Lemma read_in_file f n :
  0 <= fpos f -> 0 <= n -> len (fst (read f n)) = n -> n = 0 \/ fpos f + n <= len (fdata f).
Proof.
  intros Hpos Hn Hlen. rewrite read_len in Hlen by assumption. lia.
Qed.

(** ** Loops *)

(** a loop whose passes keep an invariant and decrease a measure returns
    what the body returns in any state it passes through *)
Lemma while_loop_passes {S R : Type} (body : S -> Step S R)
    (inv : S -> Prop) (m : S -> nat) (s0 s : S) :
  (forall s s', inv s -> body s = Continue s' -> inv s' /\ (m s' < m s)%nat) ->
  inv s0 ->
  passes body s0 s ->
  inv s /\
  forall fuel, (m s0 < fuel)%nat ->
    exists fuel', (m s < fuel')%nat /\ while_loop body fuel s0 = while_loop body fuel' s.
Proof.
  intros Hstep Hinv0 Hpasses.
  induction Hpasses as [|s s' Hp [IHinv IH] Hbody].
  - split; [assumption|]. intros fuel Hfuel. exists fuel. split; [assumption|reflexivity].
  - destruct (Hstep s s' IHinv Hbody) as [Hinv' Hm].
    split; [assumption|]. intros fuel Hfuel.
    destruct (IH fuel Hfuel) as (fuel' & Hlt & Heq).
    destruct fuel' as [|fuel']; [lia|].
    exists fuel'. split; [lia|].
    rewrite Heq. cbn [while_loop]. rewrite Hbody. reflexivity.
Qed.

Lemma while_loop_returns {S R : Type} (body : S -> Step S R)
    (inv : S -> Prop) (m : S -> nat) (s0 s : S) (r : R) :
  (forall s s', inv s -> body s = Continue s' -> inv s' /\ (m s' < m s)%nat) ->
  inv s0 ->
  passes body s0 s ->
  body s = Return r ->
  forall fuel, (m s0 < fuel)%nat -> while_loop body fuel s0 = Some (inr r).
Proof.
  intros Hstep Hinv0 Hpasses Hbody fuel Hfuel.
  destruct (while_loop_passes body inv m s0 s Hstep Hinv0 Hpasses) as [_ H].
  destruct (H fuel Hfuel) as (fuel' & Hlt & Heq).
  destruct fuel' as [|fuel']; [lia|].
  rewrite Heq. cbn [while_loop]. rewrite Hbody. reflexivity.
Qed.

(** with enough fuel for the measure, a loop does not run out of fuel *)
Lemma while_loop_terminates {S R : Type} (body : S -> Step S R)
    (inv : S -> Prop) (m : S -> nat) :
  (forall s s', inv s -> body s = Continue s' -> inv s' /\ (m s' < m s)%nat) ->
  forall fuel s, inv s -> (m s < fuel)%nat -> while_loop body fuel s <> None.
Proof.
  intros Hstep fuel. induction fuel as [|fuel IH]; intros s Hinv Hfuel; [lia|].
  cbn [while_loop]. destruct (body s) as [s'| |] eqn:Hbody; try discriminate.
  destruct (Hstep s s' Hinv Hbody) as [Hinv' Hm]. apply IH; [assumption|lia].
Qed.

(** ** PNG: the chunk loop *)

Lemma from_bytes_big_nonneg x : 0 <= from_bytes_big x.
Proof.
  unfold from_bytes_big.
  assert (H : forall acc, 0 <= acc -> 0 <= fold_left (fun acc c => acc * 256 + byte_val c) x acc).
  { induction x as [|c x IH]; intros acc Hacc; cbn [fold_left]; [assumption|].
    apply IH. unfold byte_val. lia. }
  apply H. lia.
Qed.

Lemma read_eq f n cb f' :
  read f n = (cb, f') ->
  fdata f' = fdata f /\ fpos f' = fpos f + len cb /\ 0 <= len cb /\ cb = fst (read f n).
Proof.
  intros H. rewrite H. cbn [fst]. unfold read in H. injection H as <- <-. cbn.
  repeat split; try reflexivity. apply len_nonneg.
Qed.

Lemma png_chunk_continue data offset st st' :
  png_inv data st ->
  png_chunk offset (len data) st = Continue st' ->
  png_inv data st' /\ (png_left data st' < png_left data st)%nat.
Proof.
  intros [Hdata Hpos]. unfold png_chunk.
  destruct (read (png_checkfile st) 4) as [cb1 f1] eqn:E1.
  destruct (len cb1 =? 4) eqn:Hlen1; cbn [negb]; [|discriminate].
  destruct (offset + from_bytes_big cb1 >? len data); [discriminate|].
  destruct (read f1 (4 + from_bytes_big cb1)) as [cb2 f2] eqn:E2.
  destruct (len cb2 =? 4 + from_bytes_big cb1); cbn [negb]; [|discriminate].
  destruct (read f2 4) as [cb3 f3] eqn:E3.
  destruct (crc32 cb2 =? from_bytes_big cb3); cbn [negb]; [|discriminate].
  destruct (bytes_eqb (slice 0 4 cb2) (b "IEND")); [discriminate|].
  intros H. injection H as <-. unfold png_inv, png_left, reads, left_in. cbn.
  apply read_eq in E1 as (D1 & P1 & L1 & F1).
  apply read_eq in E2 as (D2 & P2 & L2 & _).
  apply read_eq in E3 as (D3 & P3 & L3 & _).
  assert (Hin : 4 = 0 \/ fpos (png_checkfile st) + 4 <= len (fdata (png_checkfile st))).
  { apply read_in_file; [assumption|lia|]. rewrite <- F1. lia. }
  rewrite Hdata in Hin. split; [split; [congruence|lia]|lia].
Qed.

(** a chunk that declares more data than the file holds after the size
    field, the type and the CRC ends the parse with a failure *)
Lemma png_chunk_rejects data offset st :
  png_inv data st ->
  from_bytes_big (fst (read (png_checkfile st) 4)) + 8
    > len data - tell (png_checkfile st) ->
  exists r, png_chunk offset (len data) st = Return r /\ ok r = false.
Proof.
  intros [Hdata Hpos] Hsize. unfold png_chunk, tell in *.
  destruct (read (png_checkfile st) 4) as [cb1 f1] eqn:E1. cbn [fst] in Hsize.
  destruct (len cb1 =? 4) eqn:Hlen1; cbn [negb]; [|eauto].
  destruct (offset + from_bytes_big cb1 >? len data); [eauto|].
  destruct (read f1 (4 + from_bytes_big cb1)) as [cb2 f2] eqn:E2.
  destruct (len cb2 =? 4 + from_bytes_big cb1) eqn:Hlen2; cbn [negb]; [|eauto].
  exfalso.
  pose proof (from_bytes_big_nonneg cb1) as Hnn.
  apply read_eq in E1 as (D1 & P1 & L1 & F1).
  apply read_eq in E2 as (D2 & P2 & L2 & F2).
  assert (Hin : 4 + from_bytes_big cb1 = 0 \/ fpos f1 + (4 + from_bytes_big cb1) <= len (fdata f1)).
  { apply read_in_file; [lia|lia|]. rewrite <- F2. lia. }
  rewrite D1, Hdata in Hin. lia.
Qed.

Lemma png_start_inv data offset : 0 <= offset -> png_inv data (png_start data offset).
Proof.
  intros Hoff. unfold png_inv, reads, png_start. cbn.
  split; [reflexivity|]. pose proof (len_nonneg (take 25 (drop (Z.to_nat (offset + 8)) data))).
  unfold len in *. lia.
Qed.

(** the chunk loop of [unpackPNG] does not run out of fuel *)
Lemma png_loop_terminates data offset :
  0 <= offset ->
  while_loop (png_chunk offset (len data)) (S (length data)) (png_start data offset) <> None.
Proof.
  intros Hoff.
  apply (while_loop_terminates _ (png_inv data) (png_left data)).
  - intros s s'. apply png_chunk_continue.
  - apply png_start_inv, Hoff.
  - unfold png_left, left_in, len. pose proof (png_start_inv data offset Hoff) as [_ H]. lia.
Qed.

(** ** PNG *)

(** C10: an input with fewer than 57 bytes from the offset on is refused
    with size 0 and a non-fatal "File too small" error; the answer depends
    on the size of the file only, and nothing is written. *)
Theorem png_minimum_size (host : Host) (filename : string) (data : bytes)
    (offset : Z) (unpackdir temporarydirectory : string) (fs : FS) :
  len data - offset < 57 ->
  unpackPNG host filename data offset unpackdir temporarydirectory fs =
  (Returned (Result false 0 [] []
     (Some (Error offset false "File too small (less than 57 bytes"))), fs).
Proof.
  intros Hsmall. unfold unpackPNG.
  destruct (len data - offset <? 57) eqn:E; [reflexivity|lia].
Qed.

Lemma png_minimum_size_witness :
  unpackPNG plain_host "cut.png" (take 56 png_1x1) 0 "/out" "/tmp" ∅ =
  (Returned (Result false 0 [] []
     (Some (Error 0 false "File too small (less than 57 bytes"))), ∅).
Proof. apply png_minimum_size. vm_compute. reflexivity. Defined.

(** C6: in every pass of the chunk loop, a declared chunk size larger than
    the number of bytes between the position of the size field and the end
    of the file makes the parse fail. *)
Theorem png_chunk_size_within_file (host : Host) (filename : string)
    (data : bytes) (offset : Z) (unpackdir temporarydirectory : string)
    (fs : FS) (st : PngState) :
  0 <= offset ->
  passes (png_chunk offset (len data)) (png_start data offset) st ->
  from_bytes_big (fst (read (png_checkfile st) 4))
    > len data - tell (png_checkfile st) ->
  exists r,
    fst (unpackPNG host filename data offset unpackdir temporarydirectory fs)
      = Returned r /\ ok r = false.
Proof.
  intros Hoff Hpasses Hsize.
  pose proof (png_start_inv data offset Hoff) as Hinv0.
  destruct (while_loop_passes _ (png_inv data) (png_left data) _ _
              (fun s s' => png_chunk_continue data offset s s') Hinv0 Hpasses)
    as [Hinv _].
  destruct (png_chunk_rejects data offset st Hinv) as (r & Hr & Hok); [lia|].
  assert (Hloop : while_loop (png_chunk offset (len data)) (S (length data))
                    (png_start data offset) = Some (inr r)).
  { apply (while_loop_returns _ (png_inv data) (png_left data) _ st);
      try assumption.
    - intros s s'. apply png_chunk_continue.
    - unfold png_left, left_in, len. destruct Hinv0 as [_ H]. lia. }
  unfold unpackPNG.
  destruct (len data - offset <? 57); [eauto|].
  destruct (read (seek (open_rb data) (offset + 8)) 25) as [cb f].
  destruct (bytes_eqb (slice 0 4 cb) _); cbn [negb]; [|eauto].
  destruct (bytes_eqb (slice 4 8 cb) _); cbn [negb]; [|eauto].
  destruct (crc32 (slice 4 21 cb) =? _); cbn [negb]; [|eauto].
  rewrite Hloop. eauto.
Qed.

Lemma png_chunk_size_within_file_witness :
  exists r,
    fst (unpackPNG plain_host "cut.png" png_cut 0 "/out" "/tmp" ∅) = Returned r
    /\ ok r = false.
Proof.
  apply (png_chunk_size_within_file plain_host "cut.png" png_cut 0 "/out" "/tmp" ∅
           (png_start png_cut 0)).
  - lia.
  - apply passes_first.
  - vm_compute. reflexivity.
Defined.

Example png_1x1_whole :
  unpackPNG plain_host "dot.png" png_1x1 0 "/out" "/tmp" ∅ =
  (Returned (Result true 67 [] ["png"; "graphics"]%string None), ∅).
Proof. vm_compute. reflexivity. Qed.

Example png_cut_result :
  fst (unpackPNG plain_host "cut.png" png_cut 0 "/out" "/tmp" ∅) =
  Returned (Result false 0 [] [] (Some (Error 37 false "Could not read chunk type"))).
Proof. vm_compute. reflexivity. Qed.

(** the CRC of the last chunk is counted in full when the file ends before
    it: on [png_no_crc], where the CRC-32 of the last chunk is 0 and the
    CRC is missing, [unpackPNG] returns 71 for a file of 67 bytes, whatever
    PIL makes of the carved file *)
Lemma png_missing_crc_exceeds_bound (host : Host) :
  exists r,
    fst (unpackPNG host "image.png" png_no_crc 0 "/out" "/tmp" ∅) = Returned r
    /\ consumed r = 71
    /\ len png_no_crc = 67.
Proof.
  destruct host as [pil_load ? ? ? ? ? ? ? ? ? ? ? ? ? ?].
  assert (Hlen : len png_no_crc = 67) by (vm_compute; reflexivity).
  assert (Hrun : fst (unpackPNG (Build_Host pil_load shutil_which0 shutil_move0
                        shutil_move_from0 bytes_decode0 bytes_repr0 run_bmptopnm0
                        run_ar_t0 run_ar_x0 run_unsquashfs0 mkstemp0 mkdtemp0
                        os_listdir0 os_walk_files0 os_walk_dirs0)
                        "image.png" png_no_crc 0 "/out" "/tmp" ∅)
                 = if negb (pil_load png_no_crc)
                   then Returned (Result false 71 [] []
                          (Some (Error 0 false "invalid PNG data according to PIL")))
                   else Returned (Result true 71
                          [("/out/unpacked.png"%string,
                            ["png"; "graphics"; "unpacked"]%string)] [] None)).
  { vm_compute. destruct (pil_load _); reflexivity. }
  rewrite Hrun. destruct (negb (pil_load png_no_crc)); eexists; repeat split; assumption.
Qed.

(** ** LZMA *)

(** C9: when the eight size bytes of the header are not all 0xff and give
    0, or more than 256 GiB, [unpackLZMA] fails with size 0; the result is
    the same for every decompressor and host, and the file system is left
    as it was: the shared routine is not entered. *)
Theorem lzma_declared_size_checked (lzma : LzmaModule) (host : Host)
    (filename : string) (data : bytes) (offset : Z)
    (unpackdir temporarydirectory : string) (fs : FS) (header : bytes) :
  0 <= offset ->
  header = take 8 (drop (Z.to_nat (offset + 5)) data) ->
  length header = 8%nat ->
  header <> [xff; xff; xff; xff; xff; xff; xff; xff] ->
  from_bytes_little header = 0 \/ from_bytes_little header > 274877906944 ->
  unpackLZMA lzma host filename data offset unpackdir temporarydirectory fs =
  (Returned (Result false 0 [] []
     (Some (Error offset false
        (if from_bytes_little header =? 0 then "declared size 0"
         else "declared size too big")))), fs).
Proof.
  intros Hoff Hheader Hlen Hff Hsize. unfold unpackLZMA.
  assert (Hfile : len data - offset >= 13).
  { rewrite Hheader, length_take, length_drop in Hlen. unfold len. lia. }
  destruct (len data - offset <? 13) eqn:E; [lia|].
  unfold read, seek, open_rb. cbn [fdata fpos].
  change (Z.to_nat 8) with 8%nat. rewrite <- Hheader.
  unfold bytes_eqb. rewrite bool_decide_eq_false_2 by assumption. cbn [negb].
  destruct (from_bytes_little header =? 0) eqn:E0; [reflexivity|].
  destruct (from_bytes_little header >? 274877906944) eqn:Ebig; [reflexivity|].
  lia.
Qed.

Lemma lzma_declared_size_checked_witness :
  unpackLZMA no_lzma plain_host "a.lzma" lzma_size_0 0 "/out" "/tmp" ∅ =
  (Returned (Result false 0 [] [] (Some (Error 0 false "declared size 0"))), ∅).
Proof.
  apply (lzma_declared_size_checked no_lzma plain_host "a.lzma" lzma_size_0 0
           "/out" "/tmp" ∅ (take 8 (drop 5 lzma_size_0))).
  - lia.
  - reflexivity.
  - reflexivity.
  - vm_compute. discriminate.
  - left. vm_compute. reflexivity.
Defined.

(** ** Timezone files *)

(** the test on a transition index lets the index pass exactly when it is
    at most the number of local time types *)
Lemma tz_index_passes (offset local_times : Z) (f : FileObj) (n : Z) (c : byte) :
  fst (read f 1) = [c] ->
  tz_index offset local_times (f, n) =
    if byte_val c >? local_times
    then inl (tz_fail offset (n + 1) "invalid index for transition time")
    else inr (snd (read f 1), n + 1).
Proof.
  intros Hread. unfold tz_index. destruct (read f 1) as [cb f'].
  cbn [fst snd] in *. subst cb. reflexivity.
Qed.

(** C7: a version 0 file whose only transition index equals the number of
    local time types (1) is accepted, as a whole file. *)
Theorem tz_index_equal_to_typecnt_accepted :
  unpackTimeZone "zone" tz_v0_index_1 0 "/out" "/tmp" ∅ =
  (Returned (Result true 59 [] ["resource"; "timezone"]%string None), ∅).
Proof. vm_compute. reflexivity. Qed.

(** the same in the data block after the second header *)
Lemma tz_v2_index_equal_to_typecnt_accepted :
  unpackTimeZone "zone" tz_v2_index_1 0 "/out" "/tmp" ∅ =
  (Returned (Result true 119 [] ["resource"; "timezone"]%string None), ∅).
Proof. vm_compute. reflexivity. Qed.

(** C2: on a well-formed version 2 file with the POSIX TZ string "UTC0"
    the call does not return: the test of the first character of the
    string looks up the name [string], which the module does not import. *)
Theorem timezone_posix_string_raises :
  unpackTimeZone "zone" tz_v2_utc0 0 "/out" "/tmp" ∅ =
  (Raised (NameError "string"), ∅).
Proof. vm_compute. reflexivity. Qed.

(** every byte of a POSIX TZ string other than a newline raises *)
Lemma tz_posix_string_raises (offset : Z) (c : byte) (rest : bytes) (n : Z) :
  c <> x0a ->
  tz_posix_string offset (c :: rest) n = inl (Raised (NameError "string")).
Proof.
  intros Hc. cbn [tz_posix_string]. unfold bytes_eqb.
  rewrite bool_decide_eq_false_2 by congruence. reflexivity.
Qed.

(** ** tar and squashfs *)

(** [unpackTar] raises when [tarfile.open] does: the call is outside the
    [try] block *)
Lemma tar_open_raises (tarfile : TarfileModule) (fuel : nat) (filename : string)
    (data : bytes) (offset : Z) (unpackdir temporarydirectory : string) (fs : FS) :
  t_open tarfile data offset = None ->
  unpackTar tarfile fuel filename data offset unpackdir temporarydirectory fs =
  (Raised (ReadError "file could not be opened successfully"), fs).
Proof. intros Hopen. unfold unpackTar. cbn. rewrite Hopen. reflexivity. Qed.

(** every failure that [unpackTar] returns has the size of the whole file *)
Lemma tar_failure_size (tarfile : TarfileModule) (fuel : nat) (filename : string)
    (data : bytes) (offset : Z) (unpackdir temporarydirectory : string) (fs : FS)
    (r : UnpackResult) :
  fst (unpackTar tarfile fuel filename data offset unpackdir temporarydirectory fs)
    = Returned r ->
  ok r = false ->
  consumed r = len data.
Proof.
  unfold unpackTar. cbn [tell seek open_rb fpos fdata].
  destruct (t_open tarfile data offset) as [t|]; [|discriminate].
  destruct (while_loop _ _ _) as [[st|[e fs']]|]; try discriminate.
  destruct (tar_tarunpacked _ st); cbn [negb].
  - destruct (if _ mod 512 =? 0 then _ else _); [|discriminate].
    cbn [fst]. intros [= <-]. discriminate.
  - cbn [fst]. intros [= <-] _. reflexivity.
Qed.

(** C1: at offset 1 of a 22-byte file that holds no tar archive,
    [unpackTar] fails and returns 22, one more than the bytes from the
    offset to the end of the file. *)
Theorem tar_failure_exceeds_bound :
  exists r,
    fst (unpackTar no_tar 1 "data.bin" not_a_tar 1 "/out" "/tmp" ∅) = Returned r
    /\ ok r = false
    /\ consumed r = 22
    /\ consumed r > len not_a_tar - 1.
Proof.
  exists (Result false 22 [] [] (Some (Error 1 false "Not a valid tar file"))).
  vm_compute. repeat split; reflexivity.
Qed.

(** on a squashfs superblock of major version 1 the size is never read,
    and the test that uses it raises *)
Lemma squashfs_v1_raises :
  unpackSquashfs plain_host "root.sqsh" squashfs_v1 0 "/out" "/tmp" ∅ =
  (Raised (UnboundLocalError "squashfssize"), ∅).
Proof. vm_compute. reflexivity. Qed.

(** ** gzip *)

Lemma drop_zeros (k m : nat) : drop k (zeros (k + m)) = zeros m.
Proof.
  unfold zeros. rewrite repeat_app, drop_app_length'; [reflexivity|symmetry; apply repeat_length].
Qed.

Lemma len_cons {A : Type} (x : A) (l : list A) : len (x :: l) = 1 + len l.
Proof. unfold len. cbn [length]. lia. Qed.

Lemma len_zeros (m : nat) : len (zeros m) = Z.of_nat m.
Proof. unfold len, zeros. rewrite repeat_length. reflexivity. Qed.

(** reading into a buffer that is longer than what is left of the file *)
Lemma readinto_short (f : FileObj) (buf : bytes) :
  (length (drop (Z.to_nat (fpos f)) (fdata f)) <= length buf)%nat ->
  readinto f buf =
    (drop (Z.to_nat (fpos f)) (fdata f)
       ++ drop (length (drop (Z.to_nat (fpos f)) (fdata f))) buf,
     mkFile (fdata f) (fpos f + len (drop (Z.to_nat (fpos f)) (fdata f)))).
Proof.
  intros Hle. unfold readinto. rewrite take_ge by assumption. reflexivity.
Qed.

Lemma stored_decompress_A (rest : bytes) :
  stored_decompress None (x01 :: x01 :: x00 :: xfe :: xff :: x41 :: rest)
  = Some ([x41], Some rest).
Proof. reflexivity. Qed.

(** the decompression loop on [gzip_A]: one pass, which gives the letter A
    and leaves the loop with the 6 bytes of the stored block counted *)
Lemma gzip_A_loop (fuel : nat) (t0 t1 t2 t3 t4 t5 t6 t7 : byte)
    (outfilename : string) (fs : FS) :
  exists st,
    while_loop (gzip_block stored_zlib 0 "/out" outfilename fs) (S fuel)
      {| gz_checkfile := mkFile (gzip_A [t0; t1; t2; t3; t4; t5; t6; t7]) 10;
         gz_checkbytes := zeros (Z.to_nat 10000000);
         gz_decompressor := z_decompressobj stored_zlib;
         gz_outdata := [];
         gz_gzipcrc32 := crc32 [];
         gz_unpackedsize := 10 |} = Some (inl st)
    /\ gz_checkfile _ st = mkFile (gzip_A [t0; t1; t2; t3; t4; t5; t6; t7]) 24
    /\ gz_outdata _ st = [x41]
    /\ gz_unpackedsize _ st = 16.
Proof.
  set (data := gzip_A [t0; t1; t2; t3; t4; t5; t6; t7]).
  replace (Z.to_nat 10000000) with (14 + Z.to_nat 9999986)%nat by lia.
  generalize (Z.to_nat 9999986). intros m.
  cbn [while_loop]. unfold gzip_block.
  cbn [fpos fdata gz_checkfile gz_checkbytes gz_decompressor gz_outdata gz_gzipcrc32 gz_unpackedsize].
  rewrite readinto_short.
  2:{ cbn [fpos fdata]. unfold zeros. rewrite repeat_length.
      change (Z.to_nat 10) with 10%nat. unfold data, gzip_A. cbn [drop app length]. lia. }
  cbn [fpos fdata].
  change (Z.to_nat 10) with 10%nat. unfold data, gzip_A. cbn [drop app length].
  rewrite drop_zeros.
  change (z_decompress stored_zlib (z_decompressobj stored_zlib)) with (stored_decompress None).
  rewrite stored_decompress_A.
  cbn [z_unused_data stored_zlib app].
  change (bytes_eqb (t0 :: t1 :: t2 :: t3 :: t4 :: t5 :: t6 :: t7 :: zeros m) []) with false.
  cbn [negb]. eexists. split; [reflexivity|].
  cbn [gz_checkfile gz_outdata gz_unpackedsize app].
  repeat rewrite len_cons. rewrite len_zeros.
  repeat split; f_equal; unfold len; cbn [length]; lia.
Qed.

(** the header of [gzip_A] has no optional field: [unpackGzip] reaches the
    DEFLATE data at position 10 *)
Lemma gzip_A_header (host : Host) (fuel : nat) (filename : string) (trailer : bytes)
    (unpackdir temporarydirectory : string) (fs : FS) :
  unpackGzip stored_zlib host fuel filename (gzip_A trailer) 0 unpackdir
    temporarydirectory fs
  = gzip_body stored_zlib host fuel filename (gzip_A trailer) 0 unpackdir fs
      (mkFile (gzip_A trailer) 10) 10 false [].
Proof. reflexivity. Qed.

(** [unpackGzip] on [gzip_A]: the loop gives the letter A and has counted
    16 bytes when the trailer is read *)
Lemma gzip_A_run (host : Host) (fuel : nat) (filename : string)
    (t0 t1 t2 t3 t4 t5 t6 t7 : byte) (temporarydirectory : string) (fs : FS) :
  unpackGzip stored_zlib host (S fuel) filename
    (gzip_A [t0; t1; t2; t3; t4; t5; t6; t7]) 0 "/out" temporarydirectory fs
  = gzip_trailer host (gzip_A [t0; t1; t2; t3; t4; t5; t6; t7]) 0 "/out"
      (gzip_outfilename filename "/out")
      (write_file (gzip_outfilename filename "/out") [] fs)
      false [] (mkFile (gzip_A [t0; t1; t2; t3; t4; t5; t6; t7]) 24) 16 [x41].
Proof.
  rewrite gzip_A_header. unfold gzip_body. cbv zeta.
  destruct (gzip_A_loop fuel t0 t1 t2 t3 t4 t5 t6 t7 (gzip_outfilename filename "/out")
              (write_file (gzip_outfilename filename "/out") [] fs))
    as (st & Hloop & Hfile & Hout & Hsize).
  rewrite Hloop, Hfile, Hout, Hsize. reflexivity.
Qed.

Example crc32_A : crc32 [x41] = 0xD3D99E8B.
Proof. vm_compute. reflexivity. Qed.

(** C8: a member whose trailer stores the CRC-32 0, which is not the
    CRC-32 of the decompressed letter, is accepted: the stored CRC is read
    and dropped. *)
Theorem gzip_crc_not_compared :
  unpackGzip stored_zlib plain_host 1 "letter"
    (gzip_A [x00; x00; x00; x00; x01; x00; x00; x00]) 0 "/out" "/tmp" ∅
  = (Returned (Result true 24 [("/out/unpacked-from-gz"%string, [])]
                ["gzip"; "compressed"]%string None),
     {["/out/unpacked-from-gz"%string := RegFile [x41]]})
  /\ crc32 [x41] <> from_bytes_little [x00; x00; x00; x00].
Proof.
  split.
  - rewrite gzip_A_run. vm_compute. reflexivity.
  - vm_compute. discriminate.
Qed.

(** C3: with a trailer whose ISIZE is 2 the call fails, and the file it
    wrote, with the decompressed letter, is still in the output directory. *)
Theorem gzip_wrong_isize_leaves_file :
  unpackGzip stored_zlib plain_host 1 "letter"
    (gzip_A [x8b; x9e; xd9; xd3; x02; x00; x00; x00]) 0 "/out" "/tmp" ∅
  = (Returned (Result false 0 [] []
                 (Some (Error 24 false "wrong value for ISIZE"))),
     {["/out/unpacked-from-gz"%string := RegFile [x41]]})
  /\ ({["/out/unpacked-from-gz"%string := RegFile [x41]]} : FS)
       !! "/out/unpacked-from-gz"%string = Some (RegFile [x41]).
Proof.
  split.
  - rewrite gzip_A_run. vm_compute. reflexivity.
  - apply lookup_singleton_eq.
Qed.

(** a gzip file that is one whole member, with the right trailer: the
    decompressed file is in the list of the result *)
Lemma gzip_whole_file :
  unpackGzip stored_zlib plain_host 1 "letter"
    (gzip_A [x8b; x9e; xd9; xd3; x01; x00; x00; x00]) 0 "/out" "/tmp" ∅
  = (Returned (Result true 24 [("/out/unpacked-from-gz"%string, [])]
                ["gzip"; "compressed"]%string None),
     {["/out/unpacked-from-gz"%string := RegFile [x41]]}).
Proof. rewrite gzip_A_run. vm_compute. reflexivity. Qed.

(** ** What the loops return *)

Lemma while_loop_inr {S R : Type} (body : S -> Step S R) (fuel : nat) (s : S) (r : R) :
  while_loop body fuel s = Some (inr r) -> exists s', body s' = Return r.
Proof.
  revert s. induction fuel as [|fuel IH]; intros s; cbn [while_loop]; [discriminate|].
  destruct (body s) as [s'|s'|r'] eqn:Hbody.
  - apply IH.
  - discriminate.
  - intros [= <-]. eauto.
Qed.

Lemma for_range_inl {S R : Type} (n : nat) (body : S -> R + S) (s : S) (r : R) :
  for_range n body s = inl r -> exists s', body s' = inl r.
Proof.
  revert s. induction n as [|n IH]; intros s; cbn [for_range]; [discriminate|].
  destruct (body s) as [r'|s'] eqn:Hbody.
  - intros [= <-]. eauto.
  - apply IH.
Qed.

(** *** PNG *)

Lemma png_chunk_return offset filesize st r :
  png_chunk offset filesize st = Return r -> ok r = false /\ error r <> None.
Proof.
  unfold png_chunk. intros H.
  repeat break_in H; try discriminate; injection H as <-; cbn; (split; [reflexivity|discriminate]).
Qed.

Lemma png_loop_return offset filesize fuel st r :
  while_loop (png_chunk offset filesize) fuel st = Some (inr r) ->
  ok r = false /\ error r <> None.
Proof.
  intros H. apply while_loop_inr in H as [st' H]. eapply png_chunk_return, H.
Qed.

Lemma png_agrees host filename data offset unpackdir tmp fs r :
  fst (unpackPNG host filename data offset unpackdir tmp fs) = Returned r -> agrees r.
Proof.
  unfold unpackPNG, agrees. intros H.
  repeat break_in H; known_result H; try reflexivity; try discriminate.
  all: match goal with
       | E : while_loop _ _ _ = Some (inr _) |- _ =>
           apply png_loop_return in E as [-> ?]; assumption
       end.
Qed.

Lemma png_whole_not_carved host filename data unpackdir tmp fs r :
  fst (unpackPNG host filename data 0 unpackdir tmp fs) = Returned r ->
  ok r = true -> consumed r = len data -> carved r = [].
Proof.
  unfold unpackPNG. intros H Hok Hsize.
  repeat break_in H; known_result H; try reflexivity; try discriminate;
    try whole_file_contra.
  all: match goal with
       | E : while_loop _ _ _ = Some (inr _) |- _ =>
           apply png_loop_return in E as [E ?]; congruence
       end.
Qed.

(** *** RIFF *)

Lemma riff_chunk_return host offset filesize rifflength valid st r :
  riff_chunk host offset filesize rifflength valid st = Return r ->
  exists e, r = (false, 0, [], [], Some e).
Proof.
  unfold riff_chunk. intros H.
  repeat break_in H; try discriminate; injection H as <-; eauto.
Qed.

Lemma riff_shape host data offset unpackdir valid name header filesize fs
    status size files labels err :
  fst (unpackRIFF host data offset unpackdir valid name header filesize fs)
    = Returned (status, size, files, labels, err) ->
  (if status then err = None else err <> None)
  /\ (status = true -> offset = 0 -> size = filesize -> files = []).
Proof.
  unfold unpackRIFF. intros H.
  repeat break_in H; cbn [fst] in H; try discriminate H.
  all: try (injection H as <- <- <- <- <-; split;
            [try reflexivity; try discriminate
            |intros; subst; try reflexivity; try discriminate; try whole_file_contra]).
  all: match goal with
       | E : while_loop _ _ _ = Some (inr _) |- _ =>
           apply while_loop_inr in E as [st' E]; apply riff_chunk_return in E as [e E];
           subst; injection H as <- <- <- <- <-; split; [discriminate|discriminate]
       end.
Qed.

Lemma riff_labels_shape tags offset filesize run r :
  (forall (status : bool) (size : Z) (files labels : list string)
          (err : option UnpackError),
      fst run = Returned (status, size, files, labels, err) ->
      (if status then err = None else err <> None)
      /\ (status = true -> offset = 0 -> size = filesize -> files = [])) ->
  fst (riff_labels tags offset filesize run) = Returned r ->
  agrees r /\ (ok r = true -> offset = 0 -> consumed r = filesize -> carved r = []).
Proof.
  intros Hrun. unfold riff_labels, agrees.
  destruct run as [[t|e|] fs]; cbn [fst]; try discriminate.
  destruct t as [[[[status size] files] labels] err].
  destruct (Hrun status size files labels err eq_refl) as [Herr Hfiles].
  destruct status; intros [= <-]; cbn [ok consumed carved error].
  - split; [assumption|]. intros _ Hoff Hsize. rewrite Hfiles; auto.
  - split; [assumption|]. discriminate.
Qed.

Lemma riff_unpackers_shape host (u : Unpacker) filename data offset unpackdir tmp fs r :
  fst (match u with
       | WebP => unpackWebP host filename data offset unpackdir tmp fs
       | WAV => unpackWAV host filename data offset unpackdir tmp fs
       | _ => unpackANI host filename data offset unpackdir tmp fs
       end) = Returned r ->
  agrees r /\ (ok r = true -> offset = 0 -> consumed r = len data -> carved r = []).
Proof.
  unfold unpackWebP, unpackWAV, unpackANI.
  destruct u; apply riff_labels_shape; intros; eapply riff_shape; eassumption.
Qed.

(** *** BMP *)

Lemma bmp_shape host filename data offset unpackdir tmp fs r :
  fst (unpackBMP host filename data offset unpackdir tmp fs) = Returned r ->
  agrees r /\ (ok r = true -> offset = 0 -> consumed r = len data -> carved r = []).
Proof.
  unfold unpackBMP, agrees. intros H.
  repeat break_in H; known_result H;
    (split; [try reflexivity; try discriminate
            |intros; subst; try reflexivity; try discriminate]).
  match goal with
  | H : ((0 =? 0) && (?x =? ?y))%bool = false |- _ =>
      cbn [Z.eqb andb] in H; apply Z.eqb_neq in H; congruence
  end.
Qed.

(** *** Timezone files *)

Lemma tz_read_inl offset k why st r :
  tz_read offset k why st = inl r -> ok r = false /\ error r <> None.
Proof.
  unfold tz_read, tz_fail. intros H.
  repeat break_in H; try discriminate; injection H as <-; cbn;
    (split; [reflexivity|discriminate]).
Qed.

Lemma tz_index_inl offset local_times st r :
  tz_index offset local_times st = inl r -> ok r = false /\ error r <> None.
Proof.
  unfold tz_index, tz_fail. intros H.
  repeat break_in H; try discriminate; injection H as <-; cbn;
    (split; [reflexivity|discriminate]).
Qed.

Lemma tz_ttinfo_inl offset n st r :
  tz_ttinfo offset n st = inl r -> ok r = false /\ error r <> None.
Proof.
  unfold tz_ttinfo, tz_fail. intros H.
  repeat break_in H; try discriminate;
    try (injection H as <-; cbn; (split; [reflexivity|discriminate])).
  all: eapply tz_read_inl; injection H as <-; eassumption.
Qed.

Lemma tz_leap_inl offset width st r :
  tz_leap offset width st = inl r -> ok r = false /\ error r <> None.
Proof.
  unfold tz_leap. intros H.
  repeat break_in H; try discriminate.
  - injection H as <-. eapply tz_read_inl; eassumption.
  - eapply tz_read_inl; eassumption.
Qed.

Lemma tz_header_inl offset st r :
  tz_header offset st = inl r -> ok r = false /\ error r <> None.
Proof.
  unfold tz_header, tz_fail. intros H.
  repeat break_in H; try discriminate; injection H as <-; cbn;
    (split; [reflexivity|discriminate]).
Qed.

Lemma tz_data_inl offset width c st r :
  tz_data offset width c st = inl r -> ok r = false /\ error r <> None.
Proof.
  unfold tz_data. intros H.
  repeat break_in H; try discriminate; try (injection H as <-);
    match goal with
    | E : for_range _ _ _ = inl _ |- _ => apply for_range_inl in E as [st' E]
    | _ => idtac
    end;
    eauto using tz_read_inl, tz_index_inl, tz_ttinfo_inl, tz_leap_inl.
Qed.

Lemma tz_posix_string_inl offset rest n r :
  tz_posix_string offset rest n = inl (Returned r) -> ok r = false /\ error r <> None.
Proof.
  revert n. induction rest as [|c rest IH]; intros n; cbn [tz_posix_string]; unfold tz_fail.
  - intros [= <-]. cbn. split; [reflexivity|discriminate].
  - intros H. repeat break_in H; try discriminate;
      try (injection H as <-; cbn; (split; [reflexivity|discriminate]));
      try (eapply IH, H).
Qed.

Lemma tz_finish_shape data offset unpackdir fs size r :
  fst (tz_finish data offset unpackdir fs size) = Returned r ->
  agrees r /\ (ok r = true -> offset = 0 -> consumed r = len data -> carved r = []).
Proof.
  unfold tz_finish, agrees. intros H.
  repeat break_in H; known_result H;
    (split; [reflexivity|intros; subst; try reflexivity; try whole_file_contra]).
Qed.

Lemma tz_shape filename data offset unpackdir tmp fs r :
  fst (unpackTimeZone filename data offset unpackdir tmp fs) = Returned r ->
  agrees r /\ (ok r = true -> offset = 0 -> consumed r = len data -> carved r = []).
Proof.
  unfold unpackTimeZone. intros H.
  assert (Hfail : ok r = false /\ error r <> None ->
          agrees r /\ (ok r = true -> offset = 0 -> consumed r = len data -> carved r = [])).
  { unfold agrees. intros [-> ?]. split; [assumption|discriminate]. }
  repeat break_in H; cbn [fst] in H; try discriminate H;
    try (apply tz_finish_shape in H; exact H);
    apply Hfail; try (injection H as <-).
  all: try (unfold tz_fail; cbn; (split; [reflexivity|discriminate])).
  all: subst; eauto using tz_header_inl, tz_data_inl, tz_posix_string_inl.
Qed.

(** *** gzip *)

Lemma gzip_block_return zlib offset unpackdir outfilename fs st run r :
  gzip_block zlib offset unpackdir outfilename fs st = Return run ->
  fst run = Returned r -> agrees r.
Proof.
  unfold gzip_block, agrees. intros H Hr.
  repeat break_in H; try discriminate; injection H as <-; known_result Hr.
  discriminate.
Qed.

Lemma gzip_trailer_agrees host data offset unpackdir outfilename fs havefname origname
    checkfile size outdata r :
  fst (gzip_trailer host data offset unpackdir outfilename fs havefname origname
         checkfile size outdata) = Returned r ->
  agrees r.
Proof.
  unfold gzip_trailer, agrees. intros H.
  repeat break_in H; known_result H; try reflexivity; discriminate.
Qed.

Lemma gzip_body_agrees zlib host fuel filename data offset unpackdir fs checkfile
    size havefname origname r :
  fst (gzip_body zlib host fuel filename data offset unpackdir fs checkfile size
         havefname origname) = Returned r ->
  agrees r.
Proof.
  unfold gzip_body. intros H.
  destruct (while_loop _ _ _) as [[st|run]|] eqn:Hloop.
  - eapply gzip_trailer_agrees, H.
  - apply while_loop_inr in Hloop as [st' Hst].
    eapply gzip_block_return; eassumption.
  - discriminate H.
Qed.

Lemma gzip_agrees zlib host fuel filename data offset unpackdir tmp fs r :
  fst (unpackGzip zlib host fuel filename data offset unpackdir tmp fs) = Returned r ->
  agrees r.
Proof.
  unfold unpackGzip. intros H.
  repeat break_in H; try (apply gzip_body_agrees in H; exact H);
    unfold agrees; known_result H; try discriminate.
  all: repeat match goal with
       | E : (match ?X with _ => _ end) = inl _ |- _ =>
           destruct X eqn:?; try discriminate E
       end.
  all: match goal with E : inl _ = inl _ |- _ => injection E as <- end;
       cbn; discriminate.
Qed.

(** *** LZMA and XZ *)

Lemma lzma_block_return lzma offset outfilename ppfiletype fs st run r :
  lzma_block lzma offset outfilename ppfiletype fs st = Return run ->
  fst run = Returned r -> agrees r.
Proof.
  unfold lzma_block, agrees. intros H Hr.
  repeat break_in H; try discriminate; injection H as <-; known_result Hr.
  discriminate.
Qed.

Lemma lzma_wrapper_agrees lzma host filename data offset unpackdir extension filetype
    ppfiletype lzmaunpackedsize fs r :
  fst (unpackLZMAWrapper lzma host filename data offset unpackdir extension filetype
         ppfiletype lzmaunpackedsize fs) = Returned r ->
  agrees r.
Proof.
  unfold unpackLZMAWrapper, agrees. cbv zeta. intros H.
  repeat break_in H; known_result H; try reflexivity; try discriminate.
  all: match goal with
       | E : while_loop _ _ _ = Some (inr _) |- _ =>
           apply while_loop_inr in E as [st' E];
           eapply lzma_block_return in E; [exact E|exact H]
       end.
Qed.

Lemma lzma_agrees lzma host filename data offset unpackdir tmp fs r :
  fst (unpackLZMA lzma host filename data offset unpackdir tmp fs) = Returned r ->
  agrees r.
Proof.
  unfold unpackLZMA. intros H.
  repeat break_in H; try (apply lzma_wrapper_agrees in H; exact H);
    unfold agrees; known_result H; try discriminate.
Qed.

(** *** ar *)

Lemma ar_agrees host filename data offset unpackdir tmp fs r :
  fst (unpackAr host filename data offset unpackdir tmp fs) = Returned r -> agrees r.
Proof.
  unfold unpackAr, agrees. intros H.
  repeat break_in H; known_result H; try reflexivity; try discriminate.
Qed.

(** *** tar and squashfs: a failure comes with an error *)

Lemma tar_failure_error tarfile fuel filename data offset unpackdir tmp fs r :
  fst (unpackTar tarfile fuel filename data offset unpackdir tmp fs) = Returned r ->
  ok r = false -> error r <> None.
Proof.
  unfold unpackTar. intros H.
  repeat break_in H; known_result H; try discriminate.
Qed.

Lemma squashfs_failure_error host filename data offset unpackdir tmp fs r :
  fst (unpackSquashfs host filename data offset unpackdir tmp fs) = Returned r ->
  ok r = false -> error r <> None.
Proof.
  unfold unpackSquashfs. cbv zeta. intros H.
  repeat break_in H; known_result H; try discriminate.
  all: repeat match goal with
       | E : (match ?X with _ => _ end) = inl _ |- _ =>
           destruct X eqn:?; try discriminate E
       end.
  all: match goal with E : inl _ = inl _ |- _ => injection E as <- end;
       cbn; discriminate.
Qed.

(** ** The contract of the unpackers *)

(** every success of [unpackSquashfs] carries the error it sets before it
    returns *)
Lemma squashfs_success_error host filename data offset unpackdir tmp fs r :
  fst (unpackSquashfs host filename data offset unpackdir tmp fs) = Returned r ->
  ok r = true ->
  error r = Some (Error offset false "Not a valid Squashfs").
Proof.
  unfold unpackSquashfs. cbv zeta. intros H.
  repeat break_in H; known_result H; try discriminate; try reflexivity.
  all: repeat match goal with
       | E : (match ?X with _ => _ end) = inl _ |- _ =>
           destruct X eqn:?; try discriminate E
       end.
  all: match goal with E : inl _ = inl _ |- _ => injection E as <- end;
       cbn; discriminate.
Qed.

(** C4, as stated, fails: on a squashfs image that unsquashfs accepts the
    result has [ok = true] and an error. *)
Lemma squashfs_success_has_error :
  ~ (forall zlib lzma tarfile host u fuel filename data offset unpackdir tmp fs r,
        fst (unpack zlib lzma tarfile host u fuel filename data offset unpackdir tmp fs)
          = Returned r ->
        (ok r = true -> error r = None) /\ (ok r = false -> error r <> None)).
Proof.
  intros H.
  destruct (H stored_zlib no_lzma no_tar plain_host Squashfs 0%nat "root.sqsh"%string
              squashfs_v4 0 "/out"%string "/tmp"%string ∅
              (Result true 96 [] [] (Some (Error 0 false "Not a valid Squashfs"))))
    as [Hsuccess _].
  - vm_compute. reflexivity.
  - specialize (Hsuccess eq_refl). discriminate.
Qed.

(** C4, amended: a failure always comes with an error, and a success of
    an unpacker other than tar and squashfs comes with none. *)
Theorem error_follows_status zlib lzma tarfile host (u : Unpacker) fuel filename data
    offset unpackdir tmp fs r :
  fst (unpack zlib lzma tarfile host u fuel filename data offset unpackdir tmp fs)
    = Returned r ->
  (ok r = false -> error r <> None)
  /\ (u <> Tar -> u <> Squashfs -> ok r = true -> error r = None).
Proof.
  intros H.
  assert (Hagrees : agrees r ->
          (ok r = false -> error r <> None)
          /\ (u <> Tar -> u <> Squashfs -> ok r = true -> error r = None)).
  { unfold agrees. destruct (ok r); intros Ha; split; intros; congruence. }
  destruct u; cbn [unpack] in H.
  - apply Hagrees. eapply (riff_unpackers_shape host WebP), H.
  - apply Hagrees. eapply (riff_unpackers_shape host WAV), H.
  - apply Hagrees. eapply (riff_unpackers_shape host ANI), H.
  - apply Hagrees. eapply png_agrees, H.
  - apply Hagrees. eapply gzip_agrees, H.
  - apply Hagrees. eapply bmp_shape, H.
  - apply Hagrees. eapply lzma_agrees, H.
  - apply Hagrees. eapply lzma_wrapper_agrees, H.
  - apply Hagrees. eapply tz_shape, H.
  - split; [eapply tar_failure_error, H|congruence].
  - apply Hagrees. eapply ar_agrees, H.
  - split; [eapply squashfs_failure_error, H|congruence].
Qed.

Lemma error_follows_status_witness :
  (false = false -> Some (Error 37 false "Could not read chunk type") <> None)
  /\ (PNG <> Tar -> PNG <> Squashfs -> false = true ->
      Some (Error 37 false "Could not read chunk type") = None).
Proof.
  apply (error_follows_status stored_zlib no_lzma no_tar plain_host PNG 0%nat
           "cut.png"%string png_cut 0 "/out"%string "/tmp"%string ∅
           (Result false 0 [] [] (Some (Error 37 false "Could not read chunk type")))).
  vm_compute. reflexivity.
Defined.

(** the gzip entry of the common interface *)
Lemma unpack_Gzip zlib lzma tarfile host fuel filename data offset unpackdir tmp fs :
  unpack zlib lzma tarfile host Gzip fuel filename data offset unpackdir tmp fs
  = unpackGzip zlib host fuel filename data offset unpackdir tmp fs.
Proof. reflexivity. Qed.

(** C5, as stated, fails: a gzip file that is one whole member is
    recognised at offset 0 over its whole size, and the decompressed file
    is listed. *)
Lemma gzip_whole_file_is_carved :
  ~ (forall zlib lzma tarfile host u fuel filename data unpackdir tmp fs r,
        u <> Tar -> u <> Ar -> u <> Squashfs ->
        fst (unpack zlib lzma tarfile host u fuel filename data 0 unpackdir tmp fs)
          = Returned r ->
        ok r = true -> consumed r = len data -> carved r = []).
Proof.
  intros H.
  specialize (H stored_zlib no_lzma no_tar plain_host Gzip 1%nat "letter"%string
                (gzip_A [x8b; x9e; xd9; xd3; x01; x00; x00; x00])
                "/out"%string "/tmp"%string ∅
                (Result true 24 [("/out/unpacked-from-gz"%string, [])]
                   ["gzip"; "compressed"]%string None)).
  rewrite unpack_Gzip, gzip_whole_file in H.
  assert (Hlen : 24 = len (gzip_A [x8b; x9e; xd9; xd3; x01; x00; x00; x00]))
    by (vm_compute; reflexivity).
  specialize (H ltac:(discriminate) ltac:(discriminate) ltac:(discriminate)
                eq_refl eq_refl Hlen).
  discriminate H.
Qed.

(** C5, amended: for the unpackers that carve the stream they recognise
    (WebP, WAV, ANI, PNG, BMP, timezone files), a success at offset 0 over
    the whole size of the file lists no file. *)
Theorem whole_file_not_carved zlib lzma tarfile host (u : Unpacker) fuel filename data
    unpackdir tmp fs r :
  carves_stream u = true ->
  fst (unpack zlib lzma tarfile host u fuel filename data 0 unpackdir tmp fs)
    = Returned r ->
  ok r = true -> consumed r = len data -> carved r = [].
Proof.
  intros Hu H Hok Hsize.
  destruct u; try discriminate Hu; cbn [unpack] in H.
  - eapply (riff_unpackers_shape host WebP); eauto.
  - eapply (riff_unpackers_shape host WAV); eauto.
  - eapply (riff_unpackers_shape host ANI); eauto.
  - eapply png_whole_not_carved; eauto.
  - eapply bmp_shape; eauto.
  - eapply tz_shape; eauto.
Qed.

Lemma whole_file_not_carved_witness :
  carved (Result true 67 [] ["png"; "graphics"]%string None) = [].
Proof.
  apply (whole_file_not_carved stored_zlib no_lzma no_tar plain_host PNG 0%nat
           "dot.png"%string png_1x1 "/out"%string "/tmp"%string ∅
           (Result true 67 [] ["png"; "graphics"]%string None)).
  - reflexivity.
  - vm_compute. reflexivity.
  - reflexivity.
  - vm_compute. reflexivity.
Defined.

(** ** Termination of the loops that read the file *)

Lemma from_bytes_little_nonneg x : 0 <= from_bytes_little x.
Proof.
  induction x as [|c x IH]; cbn [from_bytes_little]; [lia|]. unfold byte_val. lia.
Qed.

Lemma riff_chunk_continue host data offset rifflength valid st st' :
  reads data (riff_checkfile st) ->
  riff_chunk host offset (len data) rifflength valid st = Continue st' ->
  reads data (riff_checkfile st')
  /\ (left_in data (riff_checkfile st') < left_in data (riff_checkfile st))%nat.
Proof.
  intros [Hdata Hpos]. unfold riff_chunk, tell, seek.
  destruct (fpos (riff_checkfile st) =? offset + rifflength + 8); [discriminate|].
  destruct (read (riff_checkfile st) 4) as [cb1 f1] eqn:E1.
  destruct (len cb1 =? 4) eqn:Hlen1; cbn [negb]; [|discriminate].
  destruct (bool_decide (cb1 ∈ valid)); cbn [negb]; [|discriminate].
  destruct (read f1 4) as [cb2 f2] eqn:E2.
  pose proof (from_bytes_little_nonneg cb2) as Hnn.
  apply read_eq in E1 as (D1 & P1 & L1 & F1).
  apply read_eq in E2 as (D2 & P2 & L2 & _).
  assert (Hin : 4 = 0 \/ fpos (riff_checkfile st) + 4 <= len (fdata (riff_checkfile st))).
  { apply read_in_file; [assumption|lia|]. rewrite <- F1. lia. }
  rewrite Hdata in Hin.
  destruct (from_bytes_little cb2 mod 2 =? 0) eqn:Hodd; cbn [negb].
  - destruct (from_bytes_little cb2 >? len data - fpos f2); [discriminate|].
    intros [= <-]. unfold reads, left_in. cbn [riff_checkfile fdata fpos].
    split; [split; [congruence|lia]|lia].
  - destruct (from_bytes_little cb2 + 1 >? len data - fpos f2); [discriminate|].
    destruct (read _ 1) as [pb f3] eqn:E3.
    destruct (bytes_eqb pb [x00]); cbn [negb]; [|discriminate].
    apply read_eq in E3 as (D3 & P3 & L3 & _). cbn [fdata fpos] in D3, P3.
    assert (from_bytes_little cb2 <> 0).
    { intros H0. rewrite H0 in Hodd. discriminate. }
    intros [= <-]. unfold reads, left_in. cbn [riff_checkfile fdata fpos].
    split; [split; [congruence|lia]|lia].
Qed.

Lemma riff_returns_or_raises host data offset unpackdir valid name header fs :
  0 <= offset ->
  fst (unpackRIFF host data offset unpackdir valid name header (len data) fs) <> Diverged.
Proof.
  intros Hoff. unfold unpackRIFF.
  destruct (len data - offset <? 12); [discriminate|].
  destruct (read (seek (open_rb data) offset) 4) as [cb1 f1] eqn:E1.
  destruct (bytes_eqb cb1 _); cbn [negb]; [|discriminate].
  destruct (read f1 4) as [cb2 f2] eqn:E2.
  destruct (_ >? len data); [discriminate|].
  destruct (read f2 4) as [cb3 f3] eqn:E3.
  destruct (bytes_eqb cb3 _); cbn [negb]; [|discriminate].
  apply read_eq in E1 as (D1 & P1 & L1 & _).
  apply read_eq in E2 as (D2 & P2 & L2 & _).
  apply read_eq in E3 as (D3 & P3 & L3 & _).
  cbn [seek open_rb fdata fpos] in *.
  destruct (while_loop _ _ _) as [[st|r]|] eqn:Hloop.
  - repeat break_goal; discriminate.
  - discriminate.
  - exfalso. revert Hloop.
    apply (while_loop_terminates _ (fun st => reads data (riff_checkfile st))
             (fun st => left_in data (riff_checkfile st))).
    + intros s s'. apply riff_chunk_continue.
    + unfold reads. cbn [riff_checkfile]. split; [congruence|lia].
    + unfold left_in, len. cbn [riff_checkfile]. lia.
Qed.

Lemma riff_labels_diverged tags offset filesize run :
  fst run <> Diverged -> fst (riff_labels tags offset filesize run) <> Diverged.
Proof.
  unfold riff_labels. destruct run as [[t|e|] fs]; cbn [fst]; try congruence.
  intros _. destruct t as [[[[status size] files] labels] err].
  destruct status; discriminate.
Qed.

Lemma png_returns_or_raises host filename data offset unpackdir tmp fs :
  0 <= offset ->
  fst (unpackPNG host filename data offset unpackdir tmp fs) <> Diverged.
Proof.
  intros Hoff. unfold unpackPNG.
  pose proof (png_loop_terminates data offset Hoff) as Hloop.
  destruct (while_loop _ _ _) as [[st|r]|]; [| |congruence];
    repeat break_goal; discriminate.
Qed.

Lemma bytes_eqb_nil (x : bytes) : bytes_eqb x [] = true -> len x = 0.
Proof. unfold bytes_eqb. intros H. apply bool_decide_eq_true in H. subst. reflexivity. Qed.

Lemma bytes_eqb_not_nil (x : bytes) : bytes_eqb x [] = false -> 0 < len x.
Proof.
  unfold bytes_eqb. intros H. apply bool_decide_eq_false in H.
  destruct x; [contradiction|]. unfold len. cbn [length]. lia.
Qed.

Lemma lzma_block_continue lzma data offset outfilename ppfiletype fs st st' :
  reads data (lz_checkfile lzma st) ->
  lzma_block lzma offset outfilename ppfiletype fs st = Continue st' ->
  reads data (lz_checkfile lzma st') /\ (lzma_left lzma data st' < lzma_left lzma data st)%nat.
Proof.
  intros [Hdata Hpos]. unfold lzma_block, lzma_left.
  destruct (bytes_eqb (lz_checkdata lzma st) []) eqn:Hempty; [discriminate|].
  destruct (l_decompress lzma _ _) as [out o| |]; try discriminate.
  - destruct (bytes_eqb (l_unused_data lzma o) []); cbn [negb]; [|discriminate].
    destruct (read (lz_checkfile lzma st) 10000000) as [cd f] eqn:E.
    intros [= <-]. cbn [lz_checkfile lz_checkdata].
    pose proof E as E'. apply read_eq in E' as (D & P & L & F).
    assert (Hlen : len cd = Z.min 10000000 (Z.max 0 (len (fdata (lz_checkfile lzma st))
                                                   - fpos (lz_checkfile lzma st)))).
    { rewrite F. apply read_len; [assumption|lia]. }
    rewrite Hdata in Hlen. unfold reads, left_in.
    split; [split; [congruence|lia]|].
    destruct (bytes_eqb cd []) eqn:Hcd.
    + apply bytes_eqb_nil in Hcd. lia.
    + apply bytes_eqb_not_nil in Hcd. lia.
  - destruct (os_unlink _ _); discriminate.
Qed.

Lemma lzma_wrapper_returns_or_raises lzma host filename data offset unpackdir extension
    filetype ppfiletype lzmaunpackedsize fs :
  0 <= offset ->
  fst (unpackLZMAWrapper lzma host filename data offset unpackdir extension filetype
         ppfiletype lzmaunpackedsize fs) <> Diverged.
Proof.
  intros Hoff. unfold unpackLZMAWrapper. cbv zeta.
  destruct (read (seek (open_rb data) offset) 900000) as [cd1 f1] eqn:E1.
  destruct (l_decompress lzma _ cd1) as [out o| |]; try discriminate.
  destruct (if String.eqb filetype "xz" then _ else _) as [outfilename|]; [|discriminate].
  destruct (read f1 10000000) as [cd2 f2] eqn:E2.
  destruct (while_loop _ _ _) as [[st|r]|] eqn:Hloop.
  - repeat break_goal; discriminate.
  - apply while_loop_inr in Hloop as [st' Hst]. unfold lzma_block in Hst.
    repeat break_in Hst; try discriminate; injection Hst as <-; discriminate.
  - exfalso. revert Hloop.
    pose proof E1 as E1'. pose proof E2 as E2'.
    apply read_eq in E1' as (D1 & P1 & L1 & F1).
    apply read_eq in E2' as (D2 & P2 & L2 & F2).
    cbn [seek open_rb fdata fpos] in *.
    assert (Hlen1 : len cd1 = Z.min 900000 (Z.max 0 (len data - offset))).
    { rewrite F1. apply read_len; unfold seek, open_rb; cbn [fpos]; lia. }
    assert (Hlen2 : len cd2 = Z.min 10000000 (Z.max 0 (len (fdata f1) - fpos f1))).
    { rewrite F2. apply read_len; lia. }
    rewrite D1 in Hlen2.
    apply (while_loop_terminates _ (fun st => reads data (lz_checkfile lzma st))
             (lzma_left lzma data)).
    + intros s s'. apply lzma_block_continue.
    + unfold reads. cbn [lz_checkfile]. split; [congruence|lia].
    + unfold lzma_left, left_in. cbn [lz_checkfile lz_checkdata].
      destruct (bytes_eqb cd2 []) eqn:Hcd.
      * apply bytes_eqb_nil in Hcd. unfold len in *. lia.
      * apply bytes_eqb_not_nil in Hcd. unfold len in *. lia.
Qed.

Lemma tz_posix_string_returns offset rest n :
  tz_posix_string offset rest n <> inl Diverged.
Proof.
  revert n. induction rest as [|c rest IH]; intros n; cbn [tz_posix_string].
  - discriminate.
  - repeat break_goal; try discriminate; try apply IH.
Qed.

Lemma tz_returns_or_raises filename data offset unpackdir tmp fs :
  fst (unpackTimeZone filename data offset unpackdir tmp fs) <> Diverged.
Proof.
  unfold unpackTimeZone, tz_finish.
  repeat break_goal; cbn [fst]; try discriminate.
  subst. intros ->. eapply tz_posix_string_returns. eassumption.
Qed.

(** X17: the unpackers whose loops are driven by the file alone return or
    raise: the fuel of their loops, the size of the file, is enough *)
Theorem unpack_returns_or_raises zlib lzma tarfile host (u : Unpacker) fuel filename
    data offset unpackdir tmp fs :
  0 <= offset -> u <> Gzip -> u <> Tar ->
  fst (unpack zlib lzma tarfile host u fuel filename data offset unpackdir tmp fs)
    <> Diverged.
Proof.
  intros Hoff Hgzip Htar. destruct u; try congruence; cbn [unpack].
  - apply riff_labels_diverged, riff_returns_or_raises, Hoff.
  - apply riff_labels_diverged, riff_returns_or_raises, Hoff.
  - apply riff_labels_diverged, riff_returns_or_raises, Hoff.
  - apply png_returns_or_raises, Hoff.
  - unfold unpackBMP. repeat break_goal; discriminate.
  - unfold unpackLZMA. repeat break_goal; try discriminate;
      apply lzma_wrapper_returns_or_raises, Hoff.
  - apply lzma_wrapper_returns_or_raises, Hoff.
  - apply tz_returns_or_raises.
  - unfold unpackAr. repeat break_goal; discriminate.
  - unfold unpackSquashfs. cbv zeta. repeat break_goal; discriminate.
Qed.

Lemma unpack_returns_or_raises_witness :
  fst (unpack stored_zlib no_lzma no_tar plain_host PNG 0 "cut.png" png_cut 0
         "/out" "/tmp" ∅) <> Diverged.
Proof.
  apply (unpack_returns_or_raises stored_zlib no_lzma no_tar plain_host PNG 0%nat
           "cut.png"%string png_cut 0 "/out"%string "/tmp"%string ∅);
    [lia|discriminate|discriminate].
Defined.

(** * Further properties of the unpackers *)

(** ** More on reading *)

(** the byte at a position is what a read of one byte there returns *)
Lemma read_byte (f : FileObj) (c : byte) :
  0 <= fpos f ->
  fdata f !! Z.to_nat (fpos f) = Some c ->
  read f 1 = ([c], mkFile (fdata f) (fpos f + 1)).
Proof.
  intros Hpos Hc. unfold read. change (Z.to_nat 1) with 1%nat.
  rewrite (drop_S _ _ _ Hc). reflexivity.
Qed.

Lemma st_size_written (path : string) (content : bytes) (fs : FS) :
  st_size path (write_file path content fs) = Some (len content).
Proof. unfold st_size, write_file. rewrite lookup_insert_eq. reflexivity. Qed.

(** ** gzip: the flags, the name and the trailer *)

(** a flag byte with one of the bits 2, 5, 6 and 7 set fails one of the
    three tests on the flags *)
Lemma gzip_flag_bits (flags : byte) :
  Z.land (byte_val flags) 0xE4 <> 0 ->
  (bit (byte_val flags) 2 =? 1) = true
  \/ (bit (byte_val flags) 5 =? 1) = true
  \/ ((bit (byte_val flags) 6 =? 1) || (bit (byte_val flags) 7 =? 1))%bool = true.
Proof.
  destruct flags; vm_compute; intros H; try (exfalso; apply H; reflexivity); auto.
Qed.

(** X7: a gzip member whose flag byte has one of the bits 2 (extra field), 5
    (encrypted), 6 and 7 (reserved) set is refused with size 0, whatever
    follows, and nothing is written *)
Theorem gzip_flags_refused (zlib : ZlibModule) (host : Host) (fuel : nat)
    (filename : string) (data : bytes) (offset : Z)
    (unpackdir temporarydirectory : string) (fs : FS) (flags : byte) :
  0 <= offset ->
  data !! Z.to_nat (offset + 3) = Some flags ->
  Z.land (byte_val flags) 0xE4 <> 0 ->
  exists why,
    unpackGzip zlib host fuel filename data offset unpackdir temporarydirectory fs
    = (Returned (Result false 0 [] [] (Some (Error (offset + 3) false why))), fs).
Proof.
  intros Hoff Hflags Hbits. unfold unpackGzip.
  rewrite (read_byte (seek (open_rb data) (offset + 3)) flags);
    [|cbn [seek fpos]; lia|exact Hflags].
  cbv zeta. replace (0 + 3) with 3 by lia.
  destruct (gzip_flag_bits flags Hbits) as [H|[H|H]].
  - rewrite H. eauto.
  - destruct (bit (byte_val flags) 2 =? 1); [eauto|]. rewrite H. eauto.
  - destruct (bit (byte_val flags) 2 =? 1); [eauto|].
    destruct (bit (byte_val flags) 5 =? 1); [eauto|]. rewrite H. eauto.
Qed.

Lemma gzip_flags_refused_witness :
  exists why,
    unpackGzip stored_zlib plain_host 1 "a.gz" gzip_fextra 0 "/out" "/tmp" ∅
    = (Returned (Result false 0 [] [] (Some (Error (0 + 3) false why))), ∅).
Proof.
  apply (gzip_flags_refused stored_zlib plain_host 1%nat "a.gz"%string gzip_fextra 0
           "/out"%string "/tmp"%string ∅ x04).
  - lia.
  - reflexivity.
  - vm_compute. discriminate.
Defined.

(** without a NUL byte the loop that reads a name runs to the end of the
    file *)
Lemma read_until_nul_missing (rest name : bytes) (n : Z) :
  x00 ∉ rest -> read_until_nul rest name n = inl (n + len rest).
Proof.
  revert name n. induction rest as [|c rest IH]; intros name n Hnul;
    cbn [read_until_nul].
  - unfold len. cbn [length]. f_equal. lia.
  - apply not_elem_of_cons in Hnul as [Hc Hrest].
    unfold bytes_eqb. rewrite bool_decide_eq_false_2 by congruence.
    rewrite IH by assumption. f_equal. unfold len. cbn [length]. lia.
Qed.

(** the loop collects the bytes before the first NUL byte, and counts
    them and the NUL *)
Lemma read_until_nul_found (found rest name : bytes) (n : Z) :
  x00 ∉ found ->
  read_until_nul (found ++ x00 :: rest) name n = inr (name ++ found, n + len found + 1).
Proof.
  revert name n. induction found as [|c found IH]; intros name n Hnul;
    cbn [read_until_nul app].
  - rewrite app_nil_r. unfold len. cbn [length]. do 2 f_equal. lia.
  - apply not_elem_of_cons in Hnul as [Hc Hfound].
    unfold bytes_eqb. rewrite bool_decide_eq_false_2 by congruence.
    rewrite IH by assumption. rewrite <- app_assoc. cbn [app].
    do 2 f_equal. unfold len. cbn [length]. lia.
Qed.

(** the flag byte 0x08: a name and no other optional field *)
Lemma gzip_flags_name (c : byte) :
  c = x08 ->
  (bit (byte_val c) 2 =? 1) = false /\ (bit (byte_val c) 5 =? 1) = false
  /\ ((bit (byte_val c) 6 =? 1) || (bit (byte_val c) 7 =? 1))%bool = false
  /\ (bit (byte_val c) 1 =? 1) = false /\ (bit (byte_val c) 3 =? 1) = true
  /\ (bit (byte_val c) 4 =? 1) = false.
Proof. intros ->. vm_compute. repeat split; reflexivity. Qed.

(** X8: a member that announces a file name (flag byte 0x08) and holds no NUL
    byte after its ten header bytes is refused: the name runs out of the
    file, the error is at the end of the file, nothing is written *)
Theorem gzip_name_not_terminated (zlib : ZlibModule) (host : Host) (fuel : nat)
    (filename : string) (data : bytes) (offset : Z)
    (unpackdir temporarydirectory : string) (fs : FS) :
  0 <= offset ->
  data !! Z.to_nat (offset + 3) = Some x08 ->
  x00 ∉ drop (Z.to_nat (offset + 10)) data ->
  unpackGzip zlib host fuel filename data offset unpackdir temporarydirectory fs
  = (Returned (Result false 0 [] []
       (Some (Error (offset + (10 + len (drop (Z.to_nat (offset + 10)) data))) false
                "file name data outside of file"))), fs).
Proof.
  intros Hoff Hflags Hnul. unfold unpackGzip.
  rewrite (read_byte (seek (open_rb data) (offset + 3)) x08);
    [|cbn [seek fpos]; lia|exact Hflags].
  cbv zeta.
  destruct (gzip_flags_name x08 eq_refl) as (H2 & H5 & H67 & H1 & H3 & H4).
  rewrite H2, H5, H67, H3. unfold seek, open_rb. cbn [seek_cur tell fpos fdata].
  replace (offset + 3 + 1 + 4 + 2) with (offset + 10) by lia.
  rewrite read_until_nul_missing by assumption.
  do 5 f_equal; try lia.
Qed.

Lemma gzip_name_not_terminated_witness :
  unpackGzip stored_zlib plain_host 1 "a.gz" gzip_open_name 0 "/out" "/tmp" ∅
  = (Returned (Result false 0 [] []
       (Some (Error (0 + (10 + len (drop (Z.to_nat (0 + 10)) gzip_open_name))) false
                "file name data outside of file"))), ∅).
Proof.
  apply (gzip_name_not_terminated stored_zlib plain_host 1%nat "a.gz"%string
           gzip_open_name 0 "/out"%string "/tmp"%string ∅).
  - lia.
  - reflexivity.
  - apply (bool_decide_unpack _). vm_compute. exact I.
Defined.





Lemma gzip_block_fails zlib offset unpackdir outfilename fs st run r :
  gzip_block zlib offset unpackdir outfilename fs st = Return run ->
  fst run = Returned r -> ok r = false.
Proof.
  unfold gzip_block. intros H Hr.
  repeat break_in H; try discriminate; injection H as <-; cbn [fst] in Hr;
    try discriminate. injection Hr as <-. reflexivity.
Qed.




(** * What a success means *)

(** ** Where a loop is left *)

Lemma while_loop_break {S R : Type} (body : S -> Step S R) (inv : S -> Prop)
    (fuel : nat) (s0 s : S) :
  (forall s s', inv s -> body s = Continue s' -> inv s') ->
  inv s0 ->
  while_loop body fuel s0 = Some (inl s) ->
  exists s1, inv s1 /\ body s1 = Break s.
Proof.
  intros Hstep. revert s0. induction fuel as [|fuel IH]; intros s0 Hinv;
    cbn [while_loop]; [discriminate|].
  destruct (body s0) as [s'|s'|r] eqn:Hbody.
  - apply IH. eapply Hstep; eauto.
  - intros [= <-]. eauto.
  - discriminate.
Qed.

(** ** RIFF: what a success means *)

Lemma riff_chunk_inv host data offset rifflength valid st st' :
  riff_inv data st ->
  riff_chunk host offset (len data) rifflength valid st = Continue st' ->
  riff_inv data st'.
Proof.
  intros ([Hdata Hpos] & Hend & Hsize). unfold riff_chunk, tell, seek.
  destruct (fpos (riff_checkfile st) =? offset + rifflength + 8); [discriminate|].
  destruct (read (riff_checkfile st) 4) as [cb1 f1] eqn:E1.
  destruct (len cb1 =? 4) eqn:Hlen1; cbn [negb]; [|discriminate].
  destruct (bool_decide (cb1 ∈ valid)); cbn [negb]; [|discriminate].
  destruct (read f1 4) as [cb2 f2] eqn:E2.
  pose proof (from_bytes_little_nonneg cb2) as Hnn.
  apply read_eq in E1 as (D1 & P1 & L1 & F1).
  apply read_eq in E2 as (D2 & P2 & L2 & _).
  destruct (from_bytes_little cb2 mod 2 =? 0) eqn:Hodd; cbn [negb].
  - destruct (from_bytes_little cb2 >? len data - fpos f2) eqn:Hlen; [discriminate|].
    intros [= <-]. unfold riff_inv, reads. cbn [riff_checkfile riff_unpackedsize fdata fpos].
    repeat split; try congruence; lia.
  - destruct (from_bytes_little cb2 + 1 >? len data - fpos f2) eqn:Hlen; [discriminate|].
    destruct (read _ 1) as [pb f3] eqn:E3.
    destruct (bytes_eqb pb [x00]) eqn:Hpad; cbn [negb]; [|discriminate].
    apply read_eq in E3 as (D3 & P3 & L3 & _). cbn [fdata fpos] in D3, P3.
    assert (Hpb : len pb = 1).
    { unfold bytes_eqb in Hpad. apply bool_decide_eq_true in Hpad. subst pb. reflexivity. }
    intros [= <-]. unfold riff_inv, reads. cbn [riff_checkfile riff_unpackedsize fdata fpos].
    repeat split; try congruence; lia.
Qed.

(** a read of [n] bytes where [n] bytes are left *)
Lemma read_full (data : bytes) (pos n : Z) :
  0 <= pos -> 0 <= n -> pos + n <= len data ->
  read (mkFile data pos) n
  = (take (Z.to_nat n) (drop (Z.to_nat pos) data), mkFile data (pos + n)).
Proof.
  intros Hpos Hn Hin. unfold read. cbn [fdata fpos]. do 2 f_equal.
  unfold len in *. rewrite length_take, length_drop. lia.
Qed.

Lemma unpackRIFF_success host data offset unpackdir valid name header fs
    size files labels err fs' :
  0 <= offset ->
  unpackRIFF host data offset unpackdir valid name header (len data) fs
    = (Returned (true, size, files, labels, err), fs') ->
  size = riff_length data offset + 8
  /\ 12 <= size <= len data - offset
  /\ err = None
  /\ ((offset = 0 /\ size = len data /\ files = [] /\ labels = ["riff"%string]
       /\ fs' = fs)
      \/ (~ (offset = 0 /\ size = len data)
          /\ files = [path_join unpackdir ("unpacked-" ++ lower name)]
          /\ labels = []
          /\ fs' = write_file (path_join unpackdir ("unpacked-" ++ lower name))
                     (sendfile data offset size) fs)).
Proof.
  intros Hoff. unfold unpackRIFF, riff_length.
  destruct (len data - offset <? 12) eqn:E12; [discriminate|].
  unfold seek, open_rb. cbn [fdata].
  rewrite (read_full data offset 4) by lia.
  destruct (bytes_eqb _ (b "RIFF")); cbn [negb]; [|discriminate].
  rewrite (read_full data (offset + 4) 4) by lia.
  change (Z.to_nat 4) with 4%nat.
  set (rifflength := from_bytes_little (take 4 (drop (Z.to_nat (offset + 4)) data))).
  destruct (rifflength + 8 >? len data); [discriminate|].
  rewrite (read_full data (offset + 4 + 4) 4) by lia.
  destruct (bytes_eqb _ header); cbn [negb]; [|discriminate].
  destruct (while_loop _ _ _) as [[st|r]|] eqn:Hloop; [| |discriminate].
  - apply (while_loop_break _ (riff_inv data)) in Hloop
      as (s1 & (Hreads & Hend & Hsize) & Hbreak).
    + unfold riff_chunk in Hbreak.
      destruct (tell (riff_checkfile s1) =? offset + rifflength + 8) eqn:Htell.
      * injection Hbreak as <-. apply Z.eqb_eq in Htell. unfold tell in Htell.
        destruct (riff_unpackedsize s1 =? rifflength + 8) eqn:Hdecl; cbn [negb];
          [|discriminate].
        apply Z.eqb_eq in Hdecl.
        destruct ((offset =? 0) && (riff_unpackedsize s1 =? len data))%bool eqn:Hwhole;
          intros [= <- <- <- <- <-].
        -- apply andb_true_iff in Hwhole as [H0 Hall].
           apply Z.eqb_eq in H0, Hall.
           repeat split; try lia. left. repeat split; assumption.
        -- repeat split; try lia. right. repeat split.
           intros [H0 Hall]. subst offset. rewrite Hall in Hwhole.
           rewrite !Z.eqb_refl in Hwhole. discriminate.
      * repeat break_in Hbreak; discriminate.
    + intros s s'. apply riff_chunk_inv.
    + unfold riff_inv, reads. cbn [riff_checkfile riff_unpackedsize fdata fpos].
      repeat split; lia.
  - apply while_loop_inr in Hloop as [st' Hst].
    apply riff_chunk_return in Hst as [e ->]. discriminate.
Qed.

Lemma riff_labels_success host data offset unpackdir valid name header tags fs r fs' :
  0 <= offset ->
  riff_labels tags offset (len data)
    (unpackRIFF host data offset unpackdir valid name header (len data) fs)
    = (Returned r, fs') ->
  ok r = true ->
  consumed r = riff_length data offset + 8
  /\ 12 <= consumed r <= len data - offset
  /\ error r = None
  /\ ((offset = 0 /\ consumed r = len data /\ carved r = []
       /\ stream_tags r = "riff"%string :: tags /\ fs' = fs)
      \/ (~ (offset = 0 /\ consumed r = len data)
          /\ carved r = [(path_join unpackdir ("unpacked-" ++ lower name),
                          tags ++ ["unpacked"%string])]
          /\ stream_tags r = []
          /\ fs' = write_file (path_join unpackdir ("unpacked-" ++ lower name))
                     (sendfile data offset (consumed r)) fs)).
Proof.
  intros Hoff H Hok.
  destruct (unpackRIFF _ _ _ _ _ _ _ _ _) as [[[[[[status size] files] labels] err]| |] fs1]
    eqn:Hriff; cbn [riff_labels] in H; try discriminate.
  destruct status.
  - apply unpackRIFF_success in Hriff as (Hsize & Hbound & Herr & Hcase); [|exact Hoff].
    injection H as <- <-. cbn [ok consumed carved stream_tags error].
    repeat split; try assumption; try lia.
    destruct Hcase as [(H0 & Hall & -> & -> & ->)|(Hnot & -> & -> & ->)].
    + left. subst offset. rewrite Hall, !Z.eqb_refl. cbn [andb app]. repeat split.
    + right. repeat split; try assumption.
      destruct ((offset =? 0) && (size =? len data))%bool eqn:Hwhole; [|reflexivity].
      apply andb_true_iff in Hwhole as [H0 Hall]. apply Z.eqb_eq in H0, Hall. tauto.
  - injection H as <- <-. discriminate.
Qed.

(** X1: a RIFF unpacker (WebP, WAV, ANI) that succeeds consumed the 8 bytes
    of the RIFF header and the length declared after the magic, which lie
    in the file; it either labels the whole file and writes nothing, or
    writes exactly the consumed bytes to one file. *)
Theorem riff_success (zlib : ZlibModule) (lzma : LzmaModule) (tarfile : TarfileModule)
    (host : Host) (u : Unpacker) (fuel : nat) (filename : string) (data : bytes)
    (offset : Z) (unpackdir temporarydirectory : string) (fs fs' : FS)
    (r : UnpackResult) (name : string) (tags : list string) :
  riff_format u = Some (name, tags) ->
  0 <= offset ->
  unpack zlib lzma tarfile host u fuel filename data offset unpackdir
    temporarydirectory fs = (Returned r, fs') ->
  ok r = true ->
  consumed r = riff_length data offset + 8
  /\ 12 <= consumed r <= len data - offset
  /\ error r = None
  /\ ((offset = 0 /\ consumed r = len data /\ carved r = []
       /\ stream_tags r = "riff"%string :: tags /\ fs' = fs)
      \/ (~ (offset = 0 /\ consumed r = len data)
          /\ carved r = [(path_join unpackdir name, tags ++ ["unpacked"%string])]
          /\ stream_tags r = []
          /\ fs' = write_file (path_join unpackdir name)
                     (sendfile data offset (consumed r)) fs)).
Proof.
  intros Hfmt Hoff H Hok.
  destruct u; try discriminate; injection Hfmt as <- <-; cbn [unpack] in H;
    unfold unpackWebP, unpackWAV, unpackANI in H;
    apply riff_labels_success in H; assumption.
Qed.

Lemma riff_success_witness :
  let data := x00 :: webp_small in
  let r := Result true 20
             [("/out/unpacked-webp"%string, ["webp"; "graphics"; "unpacked"]%string)]
             [] None in
  let fs' : FS := write_file "/out/unpacked-webp" webp_small ∅ in
  consumed r = riff_length data 1 + 8
  /\ 12 <= consumed r <= len data - 1
  /\ error r = None
  /\ ((1 = 0 /\ consumed r = len data /\ carved r = []
       /\ stream_tags r = "riff"%string :: ["webp"; "graphics"]%string /\ fs' = ∅)
      \/ (~ (1 = 0 /\ consumed r = len data)
          /\ carved r = [(path_join "/out" "unpacked-webp",
                          ["webp"; "graphics"]%string ++ ["unpacked"%string])]
          /\ stream_tags r = []
          /\ fs' = write_file (path_join "/out" "unpacked-webp")
                     (sendfile data 1 (consumed r)) ∅)).
Proof.
  cbv zeta.
  apply (riff_success stored_zlib no_lzma no_tar plain_host WebP 0%nat "photo.webp"%string
           (x00 :: webp_small) 1 "/out"%string "/tmp"%string ∅
           (write_file "/out/unpacked-webp" webp_small ∅)
           (Result true 20
              [("/out/unpacked-webp"%string, ["webp"; "graphics"; "unpacked"]%string)]
              [] None)
           "unpacked-webp"%string ["webp"; "graphics"]%string).
  - reflexivity.
  - lia.
  - vm_compute. reflexivity.
  - reflexivity.
Defined.

(** X3: a BMP file that is accepted has the size its header declares, which
    lies in the file, and bmptopnm read exactly those bytes; the call
    either labels the whole file and writes nothing, or writes exactly the
    consumed bytes to one file. *)
Theorem bmp_success (host : Host) (filename : string) (data : bytes) (offset : Z)
    (unpackdir temporarydirectory : string) (fs fs' : FS) (r : UnpackResult) :
  0 <= offset ->
  unpackBMP host filename data offset unpackdir temporarydirectory fs = (Returned r, fs') ->
  ok r = true ->
  consumed r = bmp_size data offset
  /\ consumed r <= len data - offset
  /\ run_bmptopnm host (sendfile data offset (consumed r)) = 0
  /\ error r = None
  /\ ((offset = 0 /\ consumed r = len data /\ carved r = []
       /\ stream_tags r = ["bmp"; "graphics"]%string /\ fs' = fs)
      \/ (~ (offset = 0 /\ consumed r = len data)
          /\ carved r = [(path_join unpackdir "unpacked.bmp",
                          ["bmp"; "graphics"; "unpacked"]%string)]
          /\ stream_tags r = []
          /\ fs' = write_file (path_join unpackdir "unpacked.bmp")
                     (sendfile data offset (consumed r)) fs)).
Proof.
  intros Hoff. unfold unpackBMP, bmp_size. cbv zeta.
  destruct (len data - offset <? 26) eqn:E26; [not_ok|].
  unfold seek, seek_cur, open_rb. cbn [fdata fpos].
  rewrite (read_full data (offset + 2) 4) by lia. cbn [fdata fpos].
  change (Z.to_nat 4) with 4%nat.
  set (bmpsize := from_bytes_little (take 4 (drop (Z.to_nat (offset + 2)) data))).
  destruct (offset + bmpsize >? len data) eqn:Esize; [not_ok|].
  rewrite (read_full data (offset + 2 + 4 + 4) 4) by lia. cbn [fdata fpos].
  set (bmpoffset := from_bytes_little _).
  destruct (offset + bmpoffset >? len data); [not_ok|].
  rewrite (read_full data (offset + 2 + 4 + 4 + 4) 2) by lia. cbn [fdata fpos].
  set (dibheadersize := from_bytes_little _).
  destruct (bool_decide _); cbn [negb]; [|not_ok].
  destruct (offset + 14 + dibheadersize >? len data); [not_ok|].
  destruct (bmpoffset <? dibheadersize + 14); [not_ok|].
  destruct (shutil_which host "bmptopnm"); cbn [negb]; [|not_ok].
  unfold read. cbn [fdata fpos].
  fold (sendfile data offset bmpsize).
  destruct (run_bmptopnm host (sendfile data offset bmpsize) =? 0) eqn:Erun;
    cbn [negb]; [|not_ok].
  apply Z.eqb_eq in Erun.
  destruct ((offset =? 0) && (len data =? bmpsize))%bool eqn:Hwhole;
    intros [= <- <-] _; cbn [ok consumed carved stream_tags error].
  - apply andb_true_iff in Hwhole as [H0 Hall]. apply Z.eqb_eq in H0, Hall.
    rewrite Hall. repeat split; try assumption; try lia. left. repeat split. exact H0.
  - repeat split; try assumption; try lia. right. repeat split.
    intros [H0 Hall]. subst offset. rewrite Hall in Hwhole.
    rewrite !Z.eqb_refl in Hwhole. discriminate.
Qed.

Lemma bmp_success_witness :
  let r := Result true 26 [] ["bmp"; "graphics"]%string None in
  consumed r = bmp_size bmp_small 0
  /\ consumed r <= len bmp_small - 0
  /\ run_bmptopnm plain_host (sendfile bmp_small 0 (consumed r)) = 0
  /\ error r = None
  /\ ((0 = 0 /\ consumed r = len bmp_small /\ carved r = []
       /\ stream_tags r = ["bmp"; "graphics"]%string /\ (∅ : FS) = ∅)
      \/ (~ (0 = 0 /\ consumed r = len bmp_small)
          /\ carved r = [(path_join "/out" "unpacked.bmp",
                          ["bmp"; "graphics"; "unpacked"]%string)]
          /\ stream_tags r = []
          /\ (∅ : FS) = write_file (path_join "/out" "unpacked.bmp")
                          (sendfile bmp_small 0 (consumed r)) ∅)).
Proof.
  cbv zeta.
  apply (bmp_success plain_host "icon.bmp"%string bmp_small 0 "/out"%string "/tmp"%string
           ∅ ∅ (Result true 26 [] ["bmp"; "graphics"]%string None)).
  - lia.
  - vm_compute. reflexivity.
  - reflexivity.
Defined.

(** ** PNG: what a success means *)

Lemma png_chunk_shape data offset st :
  png_counts data offset st ->
  match png_chunk offset (len data) st with
  | Continue st' => png_counts data offset st'
  | Break st' =>
      png_unpackedsize st + 12 <= png_unpackedsize st'
      /\ offset + png_unpackedsize st' <= len data + 4
      /\ png_idatseen st' = png_idatseen st
  | Return _ => True
  end.
Proof.
  intros ([Hdata Hpos] & Hcount & H33 & Hidat). unfold png_chunk.
  destruct (read (png_checkfile st) 4) as [cb1 f1] eqn:E1.
  destruct (len cb1 =? 4) eqn:Hlen1; cbn [negb]; [|exact I].
  apply Z.eqb_eq in Hlen1.
  destruct (offset + from_bytes_big cb1 >? len data); [exact I|].
  destruct (read f1 (4 + from_bytes_big cb1)) as [cb2 f2] eqn:E2.
  destruct (len cb2 =? 4 + from_bytes_big cb1) eqn:Hlen2; cbn [negb]; [|exact I].
  apply Z.eqb_eq in Hlen2.
  destruct (read f2 4) as [cb3 f3] eqn:E3.
  destruct (crc32 cb2 =? from_bytes_big cb3); cbn [negb]; [|exact I].
  pose proof (from_bytes_big_nonneg cb1) as Hnn.
  pose proof E1 as R1. pose proof E2 as R2.
  apply read_eq in E1 as (D1 & P1 & L1 & F1).
  apply read_eq in E2 as (D2 & P2 & L2 & F2).
  apply read_eq in E3 as (D3 & P3 & L3 & F3).
  assert (Hin1 : fpos (png_checkfile st) + 4 <= len data).
  { subst cb1. apply read_in_file in Hlen1; [|assumption|lia]. rewrite Hdata in Hlen1. lia. }
  assert (Hin2 : fpos f1 + (4 + from_bytes_big cb1) <= len data).
  { rewrite F2 in Hlen2. apply read_in_file in Hlen2; [|lia|lia].
    rewrite D1, Hdata in Hlen2. lia. }
  assert (Hl3 : len cb3 <= 4).
  { subst cb3. rewrite read_len by lia. lia. }
  assert (Hc : offset + png_unpackedsize st = fpos (png_checkfile st)) by lia.
  assert (Hshort : len cb3 < 4 -> len data <= fpos f3).
  { intros Hs. subst cb3. rewrite read_len in P3, Hs by lia.
    rewrite D2, D1, Hdata in P3, Hs. lia. }
  destruct (bytes_eqb (slice 0 4 cb2) (b "IEND")).
  - cbn [png_unpackedsize png_idatseen]. repeat split; lia.
  - unfold png_counts, reads.
    cbn [png_checkfile png_unpackedsize png_idatseen fdata fpos].
    repeat split; try congruence; lia.
Qed.

Lemma png_start_counts data offset :
  0 <= offset -> 57 <= len data - offset -> png_counts data offset (png_start data offset).
Proof.
  intros Hoff Hsize. unfold png_counts, reads, png_start, seek, open_rb.
  cbn [fdata]. rewrite (read_full data (offset + 8) 25) by lia.
  cbn [snd png_checkfile png_unpackedsize png_idatseen fdata fpos].
  repeat split; lia.
Qed.

(** X2: a PNG file that is accepted holds at least 57 bytes, and at most
    four bytes more than the file has from the offset on (the CRC of the
    last chunk is counted without a check that it was read); PIL loaded
    the consumed bytes; the call either labels the whole file and writes
    nothing, or writes exactly the consumed bytes to one file. *)
Theorem png_success (host : Host) (filename : string) (data : bytes) (offset : Z)
    (unpackdir temporarydirectory : string) (fs fs' : FS) (r : UnpackResult) :
  0 <= offset ->
  unpackPNG host filename data offset unpackdir temporarydirectory fs = (Returned r, fs') ->
  ok r = true ->
  57 <= consumed r <= len data - offset + 4
  /\ PIL_load host (sendfile data offset (consumed r)) = true
  /\ error r = None
  /\ exists animated : bool,
      (offset = 0 /\ consumed r = len data /\ carved r = []
       /\ stream_tags r = png_tags animated /\ fs' = fs)
      \/ (~ (offset = 0 /\ consumed r = len data)
          /\ carved r = [(path_join unpackdir "unpacked.png",
                          png_tags animated ++ ["unpacked"%string])]
          /\ stream_tags r = []
          /\ fs' = write_file (path_join unpackdir "unpacked.png")
                     (sendfile data offset (consumed r)) fs).
Proof.
  intros Hoff. unfold unpackPNG. cbv zeta.
  destruct (len data - offset <? 57) eqn:E57; [not_ok|].
  destruct (read _ 25) as [cb f] eqn:E25.
  destruct (bytes_eqb (slice 0 4 cb) _); cbn [negb]; [|not_ok].
  destruct (bytes_eqb (slice 4 8 cb) _); cbn [negb]; [|not_ok].
  destruct (_ =? _); cbn [negb]; [|not_ok].
  destruct (while_loop _ _ _) as [[st|res]|] eqn:Hloop; [| |intros [=]].
  - apply (while_loop_break _ (png_counts data offset)) in Hloop as (s1 & Hinv & Hbreak).
    + pose proof (png_chunk_shape data offset s1 Hinv) as Hshape.
      rewrite Hbreak in Hshape. destruct Hshape as (Hgrow & Hend & Hidat).
      destruct Hinv as (_ & _ & H33 & H45).
      destruct (png_idatseen st) eqn:Hseen; cbn [negb]; [|not_ok].
      rewrite <- Hidat in H45. specialize (H45 eq_refl).
      set (animated := (_ && _ && _)%bool).
      destruct ((offset =? 0) && (png_unpackedsize st =? len data))%bool eqn:Hwhole.
      * apply andb_true_iff in Hwhole as [H0 Hall]. apply Z.eqb_eq in H0, Hall.
        destruct (PIL_load host data) eqn:Hpil; cbn [negb]; [|not_ok].
        intros [= <- <-] _. cbn [ok consumed carved stream_tags error].
        repeat split; try lia.
        -- subst offset. rewrite Hall. unfold sendfile, len.
           rewrite Nat2Z.id. change (Z.to_nat 0) with 0%nat.
           rewrite drop_0, firstn_all. exact Hpil.
        -- exists animated. left. repeat split; assumption.
      * destruct (PIL_load host (sendfile data offset (png_unpackedsize st))) eqn:Hpil;
          cbn [negb].
        -- intros [= <- <-] _. cbn [ok consumed carved stream_tags error].
           repeat split; try lia; try assumption.
           exists animated. right. repeat split;
             [|unfold png_tags; destruct animated; reflexivity].
           intros [H0 Hall]. subst offset. rewrite Hall, !Z.eqb_refl in Hwhole.
           discriminate.
        -- destruct (os_unlink _ _); [not_ok|intros [=]].
    + intros s s' Hs Hc. pose proof (png_chunk_shape data offset s Hs) as Hshape.
      rewrite Hc in Hshape. exact Hshape.
    + apply png_start_counts; lia.
  - apply png_loop_return in Hloop as [Hfalse _].
    intros [= <- <-] Hok. congruence.
Qed.

Lemma png_success_witness :
  let r := Result true 67 [] ["png"; "graphics"]%string None in
  57 <= consumed r <= len png_1x1 - 0 + 4
  /\ PIL_load plain_host (sendfile png_1x1 0 (consumed r)) = true
  /\ error r = None
  /\ exists animated : bool,
      (0 = 0 /\ consumed r = len png_1x1 /\ carved r = []
       /\ stream_tags r = png_tags animated /\ (∅ : FS) = ∅)
      \/ (~ (0 = 0 /\ consumed r = len png_1x1)
          /\ carved r = [(path_join "/out" "unpacked.png",
                          png_tags animated ++ ["unpacked"%string])]
          /\ stream_tags r = []
          /\ (∅ : FS) = write_file (path_join "/out" "unpacked.png")
                          (sendfile png_1x1 0 (consumed r)) ∅).
Proof.
  cbv zeta.
  apply (png_success plain_host "dot.png"%string png_1x1 0 "/out"%string "/tmp"%string
           ∅ ∅ (Result true 67 [] ["png"; "graphics"]%string None)).
  - lia.
  - vm_compute. reflexivity.
  - reflexivity.
Defined.

(** ** Timezone files: what a success means *)

Lemma for_range_inr {S R : Type} (inv : S -> Prop) (n : nat) (body : S -> R + S)
    (s s' : S) :
  (forall s s', inv s -> body s = inr s' -> inv s') ->
  inv s -> for_range n body s = inr s' -> inv s'.
Proof.
  intros Hstep. revert s. induction n as [|n IH]; intros s Hinv; cbn [for_range].
  - intros [= <-]. exact Hinv.
  - destruct (body s) as [r|s1] eqn:Hbody; [discriminate|].
    apply IH. eapply Hstep; eauto.
Qed.

Lemma read_whole f n cb f' :
  0 <= fpos f -> read f n = (cb, f') -> len cb = n ->
  fdata f' = fdata f /\ fpos f' = fpos f + n /\ 0 <= n /\ fpos f' <= Z.max (fpos f) (len (fdata f)).
Proof.
  intros Hpos E Hlen. apply read_eq in E as (D & P & L & F).
  repeat split; try congruence; try lia.
  subst cb. destruct (Z_le_gt_dec 0 n) as [Hn|Hn].
  - rewrite read_len in Hlen, P by lia. lia.
  - lia.
Qed.

Lemma tz_read_inv data offset lo k why st st' :
  tz_inv data offset lo st -> tz_read offset k why st = inr st' -> tz_inv data offset lo st'.
Proof.
  destruct st as [f u]. intros (D & Hoff & P & E & L). cbn [fst snd] in *.
  unfold tz_read. destruct (read f k) as [cb f1] eqn:E1.
  destruct (len cb =? k) eqn:Hk; cbn [negb]; [|discriminate].
  apply Z.eqb_eq in Hk. apply read_whole in E1 as (D1 & P1 & L1 & B1); [|lia|exact Hk].
  intros [= <-]. unfold tz_inv. cbn [fst snd]. rewrite D in B1.
  repeat split; try congruence; lia.
Qed.

Lemma read_one data f c f' :
  fdata f = data -> 0 <= fpos f -> fpos f <= len data -> read f 1 = ([c], f') ->
  fdata f' = data /\ fpos f' = fpos f + 1 /\ fpos f' <= len data.
Proof.
  intros D Hpos Hend E. apply read_whole in E as (D1 & P1 & _ & B1); [|lia|reflexivity].
  rewrite D in *. repeat split; try congruence; lia.
Qed.

Lemma tz_index_inv data offset lo n st st' :
  tz_inv data offset lo st -> tz_index offset n st = inr st' -> tz_inv data offset lo st'.
Proof.
  destruct st as [f u]. intros (D & Hoff & P & E & L). cbn [fst snd] in *.
  unfold tz_index. destruct (read f 1) as [cb f1] eqn:E1.
  destruct cb as [|c [|? ?]]; try discriminate.
  destruct (byte_val c >? n); [discriminate|].
  apply (read_one data) in E1 as (D1 & P1 & B1); [|assumption|lia|assumption].
  intros [= <-]. unfold tz_inv. cbn [fst snd]. repeat split; try congruence; lia.
Qed.

Lemma tz_ttinfo_inv data offset lo n st st' :
  tz_inv data offset lo st -> tz_ttinfo offset n st = inr st' -> tz_inv data offset lo st'.
Proof.
  intros Hinv. unfold tz_ttinfo.
  destruct (tz_read offset 4 _ st) as [r|[f u]] eqn:E0; [discriminate|].
  apply (tz_read_inv data offset lo) in E0; [|exact Hinv].
  destruct E0 as (D & Hoff & P & E & L). cbn [fst snd] in *.
  destruct (read f 1) as [cb f1] eqn:E1.
  destruct cb as [|c [|? ?]]; try discriminate.
  destruct ((byte_val c =? 0) || (byte_val c =? 1))%bool; cbn [negb]; [|discriminate].
  apply (read_one data) in E1 as (D1 & P1 & B1); [|assumption|lia|assumption].
  destruct (read f1 1) as [cb2 f2] eqn:E2.
  destruct cb2 as [|c2 [|? ?]]; try discriminate.
  destruct (byte_val c2 >? n); [discriminate|].
  apply (read_one data) in E2 as (D2 & P2 & B2); [|assumption|lia|assumption].
  intros [= <-]. unfold tz_inv. cbn [fst snd]. repeat split; try congruence; lia.
Qed.

Lemma tz_leap_inv data offset lo w st st' :
  tz_inv data offset lo st -> tz_leap offset w st = inr st' -> tz_inv data offset lo st'.
Proof.
  intros Hinv. unfold tz_leap.
  destruct (tz_read offset w _ st) as [r|st1] eqn:E0; [discriminate|].
  apply (tz_read_inv data offset lo) in E0; [|exact Hinv].
  apply tz_read_inv. exact E0.
Qed.

Lemma tz_data_inv data offset lo w c st st' :
  tz_inv data offset lo st -> tz_data offset w c st = inr st' -> tz_inv data offset lo st'.
Proof.
  intros Hinv. unfold tz_data.
  repeat match goal with
  | |- context [match for_range ?n ?body ?s with _ => _ end] =>
      let E := fresh "E" in
      destruct (for_range n body s) as [?|?] eqn:E; [discriminate|];
      apply (for_range_inr (tz_inv data offset lo)) in E;
      [|intros ? ?; first [apply tz_read_inv|apply tz_index_inv|apply tz_ttinfo_inv
                          |apply tz_leap_inv]|assumption]
  | |- context [match tz_read ?o ?k ?w ?s with _ => _ end] =>
      let E := fresh "E" in
      destruct (tz_read o k w s) as [?|?] eqn:E; [discriminate|];
      apply (tz_read_inv data offset lo) in E; [|assumption]
  end.
  intros Hlast. apply (for_range_inr (tz_inv data offset lo)) in Hlast;
    [exact Hlast|intros ? ?; apply tz_read_inv|assumption].
Qed.

(** a header of which the 39 bytes after the version lie in the file *)
Lemma tz_header_inv data offset lo st c st' :
  tz_inv data offset lo st -> fpos st.1 + 39 <= len data ->
  tz_header offset st = inr (c, st') -> tz_inv data offset (lo + 39) st'.
Proof.
  destruct st as [f u]. intros (D & Hoff & P & E & L) Hin. cbn [fst snd] in *.
  destruct f as [d pos]. cbn [fdata fpos] in *. subst d.
  unfold tz_header.
  rewrite (read_full data pos 15) by lia.
  destruct (bytes_eqb _ (zeros 15)); cbn [negb]; [|discriminate].
  rewrite (read_full data (pos + 15) 4) by lia.
  rewrite (read_full data (pos + 15 + 4) 4) by lia.
  rewrite (read_full data (pos + 15 + 4 + 4) 4) by lia.
  rewrite (read_full data (pos + 15 + 4 + 4 + 4) 4) by lia.
  rewrite (read_full data (pos + 15 + 4 + 4 + 4 + 4) 4) by lia.
  destruct (_ =? 0); [discriminate|].
  rewrite (read_full data (pos + 15 + 4 + 4 + 4 + 4 + 4) 4) by lia.
  intros [= <- <-]. unfold tz_inv. cbn [fst snd fdata fpos]. repeat split; lia.
Qed.

Lemma tz_posix_string_size offset rest u u' :
  tz_posix_string offset rest u = inr u' -> u < u' <= u + len rest.
Proof.
  revert u. induction rest as [|c rest IH]; intros u; cbn [tz_posix_string]; [discriminate|].
  replace (len (c :: rest)) with (len rest + 1) by (unfold len; cbn [length]; lia).
  destruct (bytes_eqb [c] [x0a]).
  - intros [= <-]. pose proof (len_nonneg rest). lia.
  - destruct (lookup_global "string"); [discriminate|].
    destruct (_ || _)%bool; [discriminate|].
    intros H. apply IH in H. lia.
Qed.

Lemma tz_finish_success data offset unpackdir fs size r fs' :
  tz_finish data offset unpackdir fs size = (Returned r, fs') ->
  ok r = true /\ consumed r = size /\ error r = None
  /\ ((offset = 0 /\ consumed r = len data /\ carved r = []
       /\ stream_tags r = ["resource"; "timezone"]%string /\ fs' = fs)
      \/ (~ (offset = 0 /\ consumed r = len data)
          /\ carved r = [(path_join unpackdir "unpacked-from-timezone",
                          ["timezone"; "resource"; "unpacked"]%string)]
          /\ stream_tags r = []
          /\ fs' = write_file (path_join unpackdir "unpacked-from-timezone")
                     (sendfile data offset (consumed r)) fs)).
Proof.
  unfold tz_finish. cbv zeta.
  destruct ((offset =? 0) && (size =? len data))%bool eqn:Hwhole;
    intros [= <- <-]; cbn [ok consumed carved stream_tags error]; repeat split.
  - apply andb_true_iff in Hwhole as [H0 Hall]. apply Z.eqb_eq in H0, Hall.
    left. repeat split; assumption.
  - right. repeat split.
    intros [H0 Hall]. subst offset. rewrite Hall, !Z.eqb_refl in Hwhole. discriminate.
Qed.

Lemma tz_fail_not_ok offset u why (r : UnpackResult) (fs fs' : FS) (P : Prop) :
  (Returned (tz_fail offset u why), fs) = (Returned r, fs') -> ok r = true -> P.
Proof. intros [= <- <-]. discriminate. Qed.

(** X4: a timezone file that is accepted holds at least the 44 bytes of a
    header and lies in the file; the call either labels the whole file and
    writes nothing, or writes exactly the consumed bytes to one file. *)
Theorem timezone_success (filename : string) (data : bytes) (offset : Z)
    (unpackdir temporarydirectory : string) (fs fs' : FS) (r : UnpackResult) :
  0 <= offset ->
  unpackTimeZone filename data offset unpackdir temporarydirectory fs = (Returned r, fs') ->
  ok r = true ->
  44 <= consumed r <= len data - offset
  /\ error r = None
  /\ ((offset = 0 /\ consumed r = len data /\ carved r = []
       /\ stream_tags r = ["resource"; "timezone"]%string /\ fs' = fs)
      \/ (~ (offset = 0 /\ consumed r = len data)
          /\ carved r = [(path_join unpackdir "unpacked-from-timezone",
                          ["timezone"; "resource"; "unpacked"]%string)]
          /\ stream_tags r = []
          /\ fs' = write_file (path_join unpackdir "unpacked-from-timezone")
                     (sendfile data offset (consumed r)) fs)).
Proof.
  intros Hoff. unfold unpackTimeZone. cbv zeta.
  destruct (len data - offset <? 44) eqn:E44; [apply tz_fail_not_ok|].
  unfold seek, open_rb. cbn [fdata].
  rewrite (read_full data (offset + 4) 1) by lia.
  match goal with
  | |- context [match ?v with Some _ => _ | None => _ end] =>
      destruct v as [version|]; [|apply tz_fail_not_ok]
  end.
  destruct (tz_header _ _) as [r1|[c1 st1]] eqn:H1.
  { apply tz_header_inl in H1 as [H1 _]. intros [= <- <-] Hok. congruence. }
  apply (tz_header_inv data offset 5) in H1;
    [|unfold tz_inv; cbn [fst snd fdata fpos]; repeat split; lia|cbn [fst fpos]; lia].
  destruct (tz_data _ 4 _ _) as [r2|[f2 u2]] eqn:H2.
  { apply tz_data_inl in H2 as [H2 _]. intros [= <- <-] Hok. congruence. }
  apply (tz_data_inv data offset (5 + 39)) in H2; [|exact H1].
  destruct H2 as (D2 & _ & P2 & B2 & L2). cbn [fst snd] in *.
  assert (Hfin : forall size, 44 <= size <= len data - offset ->
            tz_finish data offset unpackdir fs size = (Returned r, fs') -> ok r = true ->
            44 <= consumed r <= len data - offset
            /\ error r = None
            /\ ((offset = 0 /\ consumed r = len data /\ carved r = []
                 /\ stream_tags r = ["resource"; "timezone"]%string /\ fs' = fs)
                \/ (~ (offset = 0 /\ consumed r = len data)
                    /\ carved r = [(path_join unpackdir "unpacked-from-timezone",
                                    ["timezone"; "resource"; "unpacked"]%string)]
                    /\ stream_tags r = []
                    /\ fs' = write_file (path_join unpackdir "unpacked-from-timezone")
                               (sendfile data offset (consumed r)) fs))).
  { intros size Hsize H _. apply tz_finish_success in H as (_ & Hc & He & Hcase).
    rewrite <- Hc in Hsize. repeat split; try lia; assumption. }
  destruct (version =? 0); [apply Hfin; lia|].
  destruct (offset + u2 + 44 >? len data) eqn:E2; [apply tz_fail_not_ok|].
  destruct f2 as [d2 p2]. cbn [fdata fpos] in *. subst d2.
  rewrite (read_full data p2 4) by lia.
  destruct (bytes_eqb _ (b "TZif")); cbn [negb]; [|apply tz_fail_not_ok].
  rewrite (read_full data (p2 + 4) 1) by lia.
  match goal with
  | |- context [match ?v with Some _ => _ | None => _ end] =>
      destruct v as [newversion|]; [|apply tz_fail_not_ok]
  end.
  destruct (version =? newversion); cbn [negb]; [|apply tz_fail_not_ok].
  destruct (tz_header _ _) as [r3|[c3 st3]] eqn:H3.
  { apply tz_header_inl in H3 as [H3 _]. intros [= <- <-] Hok. congruence. }
  apply (tz_header_inv data offset 5) in H3;
    [|unfold tz_inv; cbn [fst snd fdata fpos]; repeat split; lia|cbn [fst fpos]; lia].
  destruct (tz_data _ 8 _ _) as [r4|[f4 u4]] eqn:H4.
  { apply tz_data_inl in H4 as [H4 _]. intros [= <- <-] Hok. congruence. }
  apply (tz_data_inv data offset (5 + 39)) in H4; [|exact H3].
  destruct H4 as (D4 & _ & P4 & B4 & L4). cbn [fst snd] in *.
  destruct (read f4 1) as [cb f5] eqn:E5.
  destruct (len cb =? 1) eqn:Hcb; cbn [negb]; [|apply tz_fail_not_ok].
  destruct (bytes_eqb cb [x0a]); cbn [negb]; [|apply tz_fail_not_ok].
  apply Z.eqb_eq in Hcb.
  apply read_whole in E5 as (D5 & P5 & _ & B5); [|lia|exact Hcb].
  destruct (tz_posix_string _ _ _) as [o|u6] eqn:H6.
  { destruct o as [r6| |]; try (intros [=]; fail).
    apply tz_posix_string_inl in H6 as [H6 _]. intros [= <- <-] Hok. congruence. }
  apply tz_posix_string_size in H6.
  apply Hfin. unfold tell, len in *. rewrite length_drop in H6.
  rewrite D4 in B5. unfold len in B5. lia.
Qed.

Lemma timezone_success_witness :
  let r := Result true 59 [] ["resource"; "timezone"]%string None in
  44 <= consumed r <= len tz_v0_utc - 0
  /\ error r = None
  /\ ((0 = 0 /\ consumed r = len tz_v0_utc /\ carved r = []
       /\ stream_tags r = ["resource"; "timezone"]%string /\ (∅ : FS) = ∅)
      \/ (~ (0 = 0 /\ consumed r = len tz_v0_utc)
          /\ carved r = [(path_join "/out" "unpacked-from-timezone",
                          ["timezone"; "resource"; "unpacked"]%string)]
          /\ stream_tags r = []
          /\ (∅ : FS) = write_file (path_join "/out" "unpacked-from-timezone")
                          (sendfile tz_v0_utc 0 (consumed r)) ∅)).
Proof.
  cbv zeta.
  apply (timezone_success "UTC"%string tz_v0_utc 0 "/out"%string "/tmp"%string
           ∅ ∅ (Result true 59 [] ["resource"; "timezone"]%string None)).
  - lia.
  - vm_compute. reflexivity.
  - reflexivity.
Defined.

(** * What a result lists and what a failure leaves *)

(** ** What a result lists *)

Lemma failure_tags_follow offset filesize size err :
  tags_follow offset filesize (Result false size [] [] err).
Proof. split; [intros _; split; reflexivity|intros H; exfalso; apply H; reflexivity]. Qed.

Lemma unlabelled_tags_follow offset filesize size files err :
  tags_follow offset filesize (Result true size files [] err).
Proof. split; [discriminate|intros H; exfalso; apply H; reflexivity]. Qed.

Lemma whole_tags_follow offset filesize size files tags err :
  ((offset =? 0) && (size =? filesize))%bool = true ->
  tags_follow offset filesize (Result true size files tags err).
Proof.
  intros H. apply andb_true_iff in H as [H0 Hall]. apply Z.eqb_eq in H0, Hall.
  split; [discriminate|intros _; split; assumption].
Qed.

Lemma not_ok_tags_follow offset filesize r :
  ok r = false -> carved r = [] -> stream_tags r = [] -> tags_follow offset filesize r.
Proof.
  intros Hok Hc Ht. split; [intros _; split; assumption|intros H; congruence].
Qed.

Ltac tags_done :=
  first [ apply failure_tags_follow
        | apply unlabelled_tags_follow
        | apply whole_tags_follow; assumption ].

(** *** RIFF *)

Lemma riff_tags host data offset unpackdir valid name header filesize fs
    status size files labels err :
  fst (unpackRIFF host data offset unpackdir valid name header filesize fs)
    = Returned (status, size, files, labels, err) ->
  (status = false -> files = [] /\ labels = [])
  /\ (labels <> [] -> ((offset =? 0) && (size =? filesize))%bool = true)
  /\ (((offset =? 0) && (size =? filesize))%bool = false -> labels = []).
Proof.
  unfold unpackRIFF. intros H.
  repeat break_in H; cbn [fst] in H; try discriminate H.
  all: try (injection H as <- <- <- <- <-;
            repeat split; intros; try reflexivity; try discriminate; try congruence).
  apply while_loop_inr in Heqo as [st' Hst].
  apply riff_chunk_return in Hst as [e ->].
  injection H as <- <- <- <- <-.
  repeat split; intros; try reflexivity; congruence.
Qed.

Lemma riff_labels_tags host data offset unpackdir valid name header fs tags r :
  fst (riff_labels tags offset (len data)
         (unpackRIFF host data offset unpackdir valid name header (len data) fs))
    = Returned r ->
  tags_follow offset (len data) r.
Proof.
  destruct (unpackRIFF _ _ _ _ _ _ _ _ _)
    as [[[[[[status size] files] labels] err]| |] fs1] eqn:Hriff;
    cbn [riff_labels fst]; try discriminate.
  assert (Hr : fst (unpackRIFF host data offset unpackdir valid name header (len data) fs)
               = Returned (status, size, files, labels, err)) by (rewrite Hriff; reflexivity).
  apply riff_tags in Hr as (Hfail & Hwhole & Hpart).
  destruct status.
  - destruct ((offset =? 0) && (size =? len data))%bool eqn:Hw;
      cbn [fst]; intros [= <-].
    + apply whole_tags_follow, Hw.
    + rewrite (Hpart eq_refl). apply unlabelled_tags_follow.
  - cbn [fst]. intros [= <-]. destruct (Hfail eq_refl) as [_ ->].
    apply failure_tags_follow.
Qed.

(** *** PNG *)

Lemma png_chunk_return_bare offset filesize st r :
  png_chunk offset filesize st = Return r ->
  ok r = false /\ carved r = [] /\ stream_tags r = [].
Proof.
  unfold png_chunk. intros H.
  repeat break_in H; try discriminate; injection H as <-; cbn; repeat split.
Qed.

Lemma png_tags_follow host filename data offset unpackdir tmp fs r :
  fst (unpackPNG host filename data offset unpackdir tmp fs) = Returned r ->
  tags_follow offset (len data) r.
Proof.
  unfold unpackPNG. intros H.
  repeat break_in H; known_result H; try tags_done.
  all: match goal with
       | E : while_loop _ _ _ = Some (inr _) |- _ =>
           apply while_loop_inr in E as [st' E];
           apply png_chunk_return_bare in E as (? & ? & ?);
           apply not_ok_tags_follow; assumption
       end.
Qed.

(** *** BMP *)

Lemma bmp_tags_follow host filename data offset unpackdir tmp fs r :
  fst (unpackBMP host filename data offset unpackdir tmp fs) = Returned r ->
  tags_follow offset (len data) r.
Proof.
  unfold unpackBMP. intros H.
  repeat break_in H; known_result H; try tags_done.
  match goal with
  | E : ((offset =? 0) && _)%bool = true |- _ =>
      apply andb_true_iff in E as [H0 _]; apply Z.eqb_eq in H0
  end.
  split; [discriminate|intros _; split; [assumption|reflexivity]].
Qed.

(** *** Timezone files *)

Lemma tz_finish_tags data offset unpackdir fs size r :
  fst (tz_finish data offset unpackdir fs size) = Returned r ->
  tags_follow offset (len data) r.
Proof.
  unfold tz_finish. intros H.
  repeat break_in H; known_result H; tags_done.
Qed.

Lemma tz_fail_tags offset filesize u why : tags_follow offset filesize (tz_fail offset u why).
Proof. apply failure_tags_follow. Qed.

Lemma tz_read_bare offset k why st r :
  tz_read offset k why st = inl r -> exists u w, r = tz_fail offset u w.
Proof.
  unfold tz_read. intros H.
  repeat break_in H; try discriminate; injection H as <-; eauto.
Qed.

Lemma tz_index_bare offset n st r :
  tz_index offset n st = inl r -> exists u w, r = tz_fail offset u w.
Proof.
  unfold tz_index. intros H.
  repeat break_in H; try discriminate; injection H as <-; eauto.
Qed.

Lemma tz_ttinfo_bare offset n st r :
  tz_ttinfo offset n st = inl r -> exists u w, r = tz_fail offset u w.
Proof.
  unfold tz_ttinfo. intros H.
  repeat break_in H; try discriminate; try (injection H as <-; eauto; fail).
  all: injection H as <-; eapply tz_read_bare; eassumption.
Qed.

Lemma tz_leap_bare offset w st r :
  tz_leap offset w st = inl r -> exists u w, r = tz_fail offset u w.
Proof.
  unfold tz_leap. intros H.
  repeat break_in H; try discriminate.
  - injection H as <-. eapply tz_read_bare; eassumption.
  - eapply tz_read_bare; eassumption.
Qed.

Lemma tz_header_bare offset st r :
  tz_header offset st = inl r -> exists u w, r = tz_fail offset u w.
Proof.
  unfold tz_header. intros H.
  repeat break_in H; try discriminate; injection H as <-; eauto.
Qed.

Lemma tz_data_bare offset width c st r :
  tz_data offset width c st = inl r -> exists u w, r = tz_fail offset u w.
Proof.
  unfold tz_data. intros H.
  repeat break_in H; try discriminate; try (injection H as <-);
    match goal with
    | E : for_range _ _ _ = inl _ |- _ => apply for_range_inl in E as [st' E]
    | _ => idtac
    end;
    eauto using tz_read_bare, tz_index_bare, tz_ttinfo_bare, tz_leap_bare.
Qed.

Lemma tz_posix_string_bare offset rest n r :
  tz_posix_string offset rest n = inl (Returned r) -> exists u w, r = tz_fail offset u w.
Proof.
  revert n. induction rest as [|c rest IH]; intros n; cbn [tz_posix_string].
  - intros [= <-]. eauto.
  - intros H. repeat break_in H; try discriminate;
      try (injection H as <-; eauto; fail); try (eapply IH, H).
Qed.

Lemma tz_tags_follow filename data offset unpackdir tmp fs r :
  fst (unpackTimeZone filename data offset unpackdir tmp fs) = Returned r ->
  tags_follow offset (len data) r.
Proof.
  unfold unpackTimeZone. intros H.
  assert (Hfail : (exists u w, r = tz_fail offset u w) -> tags_follow offset (len data) r).
  { intros (u & w & ->). apply tz_fail_tags. }
  repeat break_in H; cbn [fst] in H; try discriminate H;
    try (injection H as <-);
    try (apply tz_fail_tags);
    try (eapply tz_finish_tags; eassumption).
  all: subst; eauto using tz_header_bare, tz_data_bare, tz_posix_string_bare.
Qed.

(** *** gzip *)

Lemma gzip_block_tags zlib offset unpackdir outfilename fs st run filesize r :
  gzip_block zlib offset unpackdir outfilename fs st = Return run ->
  fst run = Returned r -> tags_follow offset filesize r.
Proof.
  unfold gzip_block. intros H Hr.
  repeat break_in H; try discriminate; injection H as <-; known_result Hr.
  tags_done.
Qed.

Lemma gzip_trailer_tags host data offset unpackdir outfilename fs havefname origname
    checkfile size outdata r :
  fst (gzip_trailer host data offset unpackdir outfilename fs havefname origname
         checkfile size outdata) = Returned r ->
  tags_follow offset (len data) r.
Proof.
  unfold gzip_trailer. intros H.
  repeat break_in H; known_result H; try tags_done.
  all: match goal with
       | E : ((?o =? 0) && (?o + ?u =? len ?d))%bool = true |- _ =>
           apply andb_true_iff in E as [H0 Hall]; apply Z.eqb_eq in H0, Hall;
           split; [discriminate|intros _; cbn [consumed]; split; [assumption|lia]]
       end.
Qed.

Lemma gzip_body_tags zlib host fuel filename data offset unpackdir fs checkfile
    size havefname origname r :
  fst (gzip_body zlib host fuel filename data offset unpackdir fs checkfile size
         havefname origname) = Returned r ->
  tags_follow offset (len data) r.
Proof.
  unfold gzip_body. intros H.
  destruct (while_loop _ _ _) as [[st|run]|] eqn:Hloop.
  - eapply gzip_trailer_tags, H.
  - apply while_loop_inr in Hloop as [st' Hst].
    eapply gzip_block_tags; eassumption.
  - discriminate H.
Qed.

Lemma gzip_tags_follow zlib host fuel filename data offset unpackdir tmp fs r :
  fst (unpackGzip zlib host fuel filename data offset unpackdir tmp fs) = Returned r ->
  tags_follow offset (len data) r.
Proof.
  unfold unpackGzip. intros H.
  repeat break_in H; try (apply gzip_body_tags in H; exact H);
    known_result H; try tags_done.
  all: repeat match goal with
       | E : (match ?X with _ => _ end) = inl _ |- _ =>
           destruct X eqn:?; try discriminate E
       end.
  all: match goal with E : inl _ = inl _ |- _ => injection E as <- end;
       tags_done.
Qed.

(** *** LZMA and XZ *)

Lemma lzma_block_tags lzma offset outfilename ppfiletype fs st run filesize r :
  lzma_block lzma offset outfilename ppfiletype fs st = Return run ->
  fst run = Returned r -> tags_follow offset filesize r.
Proof.
  unfold lzma_block. intros H Hr.
  repeat break_in H; try discriminate; injection H as <-; known_result Hr.
  tags_done.
Qed.

Lemma lzma_wrapper_tags lzma host filename data offset unpackdir extension filetype
    ppfiletype lzmaunpackedsize fs r :
  fst (unpackLZMAWrapper lzma host filename data offset unpackdir extension filetype
         ppfiletype lzmaunpackedsize fs) = Returned r ->
  tags_follow offset (len data) r.
Proof.
  unfold unpackLZMAWrapper. cbv zeta. intros H.
  repeat break_in H; known_result H; try tags_done.
  all: match goal with
       | E : while_loop _ _ _ = Some (inr _) |- _ =>
           apply while_loop_inr in E as [st' E];
           eapply lzma_block_tags in E; [exact E|exact H]
       end.
Qed.

Lemma lzma_tags_follow lzma host filename data offset unpackdir tmp fs r :
  fst (unpackLZMA lzma host filename data offset unpackdir tmp fs) = Returned r ->
  tags_follow offset (len data) r.
Proof.
  unfold unpackLZMA. intros H.
  repeat break_in H; try (apply lzma_wrapper_tags in H; exact H);
    known_result H; tags_done.
Qed.

(** *** ar and squashfs *)

Lemma ar_tags_follow host filename data offset unpackdir tmp fs r :
  fst (unpackAr host filename data offset unpackdir tmp fs) = Returned r ->
  tags_follow offset (len data) r.
Proof.
  unfold unpackAr. intros H.
  repeat break_in H; known_result H; try tags_done.
  match goal with
  | E : negb (offset =? 0) = false |- _ =>
      apply negb_false_iff, Z.eqb_eq in E
  end.
  split; [discriminate|intros _; split; [assumption|reflexivity]].
Qed.

Lemma squashfs_tags_follow host filename data offset unpackdir tmp fs r :
  fst (unpackSquashfs host filename data offset unpackdir tmp fs) = Returned r ->
  tags_follow offset (len data) r.
Proof.
  unfold unpackSquashfs. cbv zeta. intros H.
  repeat break_in H; known_result H; try tags_done.
  all: repeat match goal with
       | E : (match ?X with _ => _ end) = inl _ |- _ =>
           destruct X eqn:?; try discriminate E
       end.
  all: match goal with E : inl _ = inl _ |- _ => injection E as <- end;
       tags_done.
Qed.

(** *** tar *)

Lemma tar_except_inv tarfile offset unpackdir old tounpack msg st st' :
  tar_inv tarfile st ->
  tar_except tarfile offset unpackdir old tounpack msg st = Break st' ->
  tar_inv tarfile st'.
Proof.
  unfold tar_except, tar_inv. intros Hinv H.
  repeat break_in H; try discriminate; injection H as <-; exact Hinv.
Qed.

Lemma tar_except_continue tarfile offset unpackdir old tounpack msg st st' :
  tar_except tarfile offset unpackdir old tounpack msg st <> Continue st'.
Proof.
  unfold tar_except. repeat break_goal; discriminate.
Qed.

Lemma tar_member_inv tarfile offset unpackdir st :
  tar_inv tarfile st ->
  match tar_member tarfile offset unpackdir st with
  | Continue st' | Break st' => tar_inv tarfile st'
  | Return _ => True
  end.
Proof.
  intros Hinv.
  destruct (tar_member tarfile offset unpackdir st) as [st'|st'|res] eqn:H; [| |exact I].
  - unfold tar_member in H.
    repeat break_in H; try discriminate;
      try (exfalso; eapply tar_except_continue; eassumption);
      injection H as <-; unfold tar_inv; cbn; try discriminate; exact Hinv.
  - unfold tar_member in H.
    repeat break_in H; try discriminate;
      try (injection H as <-; exact Hinv);
      (eapply tar_except_inv; [|exact H]); unfold tar_inv; cbn;
        try discriminate; exact Hinv.
Qed.

Lemma tar_tags_follow tarfile fuel filename data offset unpackdir tmp fs r :
  fst (unpackTar tarfile fuel filename data offset unpackdir tmp fs) = Returned r ->
  tags_follow offset (len data) r.
Proof.
  unfold unpackTar. cbv zeta.
  destruct (t_open _ _ _) as [unpacktar|]; [|discriminate].
  destruct (while_loop _ _ _) as [[st|[e fs1]]|] eqn:Hloop; try discriminate.
  apply (while_loop_break _ (tar_inv tarfile)) in Hloop as (s1 & Hinv & Hbreak).
  - pose proof (tar_member_inv tarfile offset unpackdir s1 Hinv) as Hst.
    rewrite Hbreak in Hst.
    destruct (tar_tarunpacked tarfile st) eqn:Hun; cbn [negb].
    + intros H. repeat break_in H; known_result H; tags_done.
    + cbn [fst]. intros [= <-]. rewrite (Hst Hun). apply failure_tags_follow.
  - intros s s' Hs Hc. pose proof (tar_member_inv tarfile offset unpackdir s Hs) as Hst.
    rewrite Hc in Hst. exact Hst.
  - unfold tar_inv. reflexivity.
Qed.

(** X13: whatever the unpacker, a failure lists no file and no label *)
Theorem failure_lists_nothing (zlib : ZlibModule) (lzma : LzmaModule)
    (tarfile : TarfileModule) (host : Host) (u : Unpacker) (fuel : nat)
    (filename : string) (data : bytes) (offset : Z)
    (unpackdir temporarydirectory : string) (fs : FS) (r : UnpackResult) :
  fst (unpack zlib lzma tarfile host u fuel filename data offset unpackdir
         temporarydirectory fs) = Returned r ->
  ok r = false ->
  carved r = [] /\ stream_tags r = [].
Proof.
  intros H. 
  assert (Hf : tags_follow offset (len data) r).
  { destruct u; cbn [unpack] in H;
      eauto using riff_labels_tags, png_tags_follow, gzip_tags_follow, bmp_tags_follow,
        lzma_tags_follow, lzma_wrapper_tags, tz_tags_follow, tar_tags_follow,
        ar_tags_follow, squashfs_tags_follow. }
  apply Hf.
Qed.

Lemma failure_lists_nothing_witness :
  let r := Result false 0 [] [] (Some (Error 37 false "Could not read chunk type")) in
  carved r = [] /\ stream_tags r = [].
Proof.
  cbv zeta.
  apply (failure_lists_nothing stored_zlib no_lzma no_tar plain_host PNG 0%nat
           "cut.png"%string png_cut 0 "/out"%string "/tmp"%string ∅
           (Result false 0 [] [] (Some (Error 37 false "Could not read chunk type")))).
  - vm_compute. reflexivity.
  - reflexivity.
Defined.

(** X14: whatever the unpacker, a result has labels only when the parse
    succeeded at offset 0 and consumed the whole file *)
Theorem labels_mean_whole_file (zlib : ZlibModule) (lzma : LzmaModule)
    (tarfile : TarfileModule) (host : Host) (u : Unpacker) (fuel : nat)
    (filename : string) (data : bytes) (offset : Z)
    (unpackdir temporarydirectory : string) (fs : FS) (r : UnpackResult) :
  fst (unpack zlib lzma tarfile host u fuel filename data offset unpackdir
         temporarydirectory fs) = Returned r ->
  stream_tags r <> [] ->
  ok r = true /\ offset = 0 /\ consumed r = len data.
Proof.
  intros H Htags.
  assert (Hf : tags_follow offset (len data) r).
  { destruct u; cbn [unpack] in H;
      eauto using riff_labels_tags, png_tags_follow, gzip_tags_follow, bmp_tags_follow,
        lzma_tags_follow, lzma_wrapper_tags, tz_tags_follow, tar_tags_follow,
        ar_tags_follow, squashfs_tags_follow. }
  destruct Hf as [Hfail Hwhole]. split; [|apply Hwhole, Htags].
  destruct (ok r); [reflexivity|]. destruct (Hfail eq_refl) as [_ Hno]. congruence.
Qed.

Lemma labels_mean_whole_file_witness :
  let r := Result true 67 [] ["png"; "graphics"]%string None in
  ok r = true /\ 0 = 0 /\ consumed r = len png_1x1.
Proof.
  cbv zeta.
  apply (labels_mean_whole_file stored_zlib no_lzma no_tar plain_host PNG 0%nat
           "dot.png"%string png_1x1 0 "/out"%string "/tmp"%string ∅
           (Result true 67 [] ["png"; "graphics"]%string None)).
  - vm_compute. reflexivity.
  - discriminate.
Defined.

(** ** What a failure leaves on disk *)

(** removing the file that was written leaves nothing new *)
Lemma unlink_written (name : string) (content : bytes) (base fs fs1 : FS) :
  delete name base ⊆ fs ->
  os_unlink name (write_file name content base) = Some fs1 -> fs1 ⊆ fs.
Proof.
  unfold os_unlink, write_file. rewrite lookup_insert_eq. intros Hbase [= <-].
  rewrite delete_insert_eq. exact Hbase.
Qed.

Lemma delete_written (name : string) (content : bytes) (fs : FS) :
  delete name (write_file name content fs) ⊆ fs.
Proof. unfold write_file. rewrite delete_insert_eq. apply delete_subseteq. Qed.

Lemma riff_failure_fs host data offset unpackdir valid name header filesize fs
    size files labels err fs' :
  unpackRIFF host data offset unpackdir valid name header filesize fs
    = (Returned (false, size, files, labels, err), fs') -> fs' = fs.
Proof.
  unfold unpackRIFF. intros H.
  repeat break_in H; try discriminate H; congruence.
Qed.

Lemma riff_labels_failure_fs host data offset unpackdir valid name header tags fs r fs' :
  riff_labels tags offset (len data)
    (unpackRIFF host data offset unpackdir valid name header (len data) fs)
    = (Returned r, fs') ->
  ok r = false -> fs' = fs.
Proof.
  destruct (unpackRIFF _ _ _ _ _ _ _ _ _)
    as [[[[[[status size] files] labels] err]| |] fs1] eqn:Hriff;
    cbn [riff_labels]; try discriminate.
  destruct status; intros [= <- <-]; [discriminate|]. intros _.
  eapply riff_failure_fs, Hriff.
Qed.

Lemma png_failure_fs host filename data offset unpackdir tmp fs r fs' :
  unpackPNG host filename data offset unpackdir tmp fs = (Returned r, fs') ->
  ok r = false -> fs' ⊆ fs.
Proof.
  unfold unpackPNG. intros H Hok.
  repeat break_in H; try discriminate H; injection H as <- <-;
    try reflexivity; try discriminate Hok.
  eapply unlink_written; [|eassumption]. apply delete_subseteq.
Qed.

Lemma bmp_failure_fs host filename data offset unpackdir tmp fs r fs' :
  unpackBMP host filename data offset unpackdir tmp fs = (Returned r, fs') ->
  ok r = false -> fs' = fs.
Proof.
  unfold unpackBMP. intros H Hok.
  repeat break_in H; try discriminate H; injection H as <- <-;
    try reflexivity; discriminate Hok.
Qed.

Lemma tz_finish_ok data offset unpackdir fs size r fs' :
  tz_finish data offset unpackdir fs size = (Returned r, fs') -> ok r = true.
Proof.
  unfold tz_finish. intros H. repeat break_in H; injection H as <- <-; reflexivity.
Qed.

Lemma tz_failure_fs filename data offset unpackdir tmp fs r fs' :
  unpackTimeZone filename data offset unpackdir tmp fs = (Returned r, fs') ->
  ok r = false -> fs' = fs.
Proof.
  unfold unpackTimeZone. intros H Hok.
  repeat break_in H; try discriminate H;
    try (apply tz_finish_ok in H; congruence);
    congruence.
Qed.

Lemma lzma_block_failure_fs lzma offset outfilename ppfiletype base fs st r fs' :
  delete outfilename base ⊆ fs ->
  lzma_block lzma offset outfilename ppfiletype base st = Return (Returned r, fs') ->
  fs' ⊆ fs.
Proof.
  unfold lzma_block. intros Hbase H.
  repeat break_in H; try discriminate; injection H as <- <-.
  eapply unlink_written; eassumption.
Qed.

Lemma lzma_wrapper_failure_fs lzma host filename data offset unpackdir extension filetype
    ppfiletype lzmaunpackedsize fs r fs' :
  unpackLZMAWrapper lzma host filename data offset unpackdir extension filetype
    ppfiletype lzmaunpackedsize fs = (Returned r, fs') ->
  ok r = false -> fs' ⊆ fs.
Proof.
  unfold unpackLZMAWrapper. cbv zeta. intros H Hok.
  repeat break_in H; try discriminate H;
    try (injection H as <- <-; try reflexivity; try discriminate Hok).
  all: try (eapply unlink_written; [|eassumption]; apply delete_written).
  match goal with
  | E : while_loop _ _ _ = Some (inr _) |- _ =>
      apply while_loop_inr in E as [st' E]; rewrite H in E;
      eapply lzma_block_failure_fs; [|exact E]; apply delete_written
  end.
Qed.

Lemma lzma_failure_fs lzma host filename data offset unpackdir tmp fs r fs' :
  unpackLZMA lzma host filename data offset unpackdir tmp fs = (Returned r, fs') ->
  ok r = false -> fs' ⊆ fs.
Proof.
  unfold unpackLZMA. intros H Hok.
  repeat break_in H; try (eapply lzma_wrapper_failure_fs; eassumption);
    injection H as <- <-; reflexivity.
Qed.

(** X15: a failure of an unpacker that carves (WebP, WAV, ANI, PNG, BMP,
    timezone) or of LZMA or XZ adds no file and changes none *)
Theorem failure_adds_no_file (zlib : ZlibModule) (lzma : LzmaModule)
    (tarfile : TarfileModule) (host : Host) (u : Unpacker) (fuel : nat)
    (filename : string) (data : bytes) (offset : Z)
    (unpackdir temporarydirectory : string) (fs fs' : FS) (r : UnpackResult) :
  u <> Gzip -> u <> Tar -> u <> Ar -> u <> Squashfs ->
  unpack zlib lzma tarfile host u fuel filename data offset unpackdir
    temporarydirectory fs = (Returned r, fs') ->
  ok r = false ->
  fs' ⊆ fs.
Proof.
  intros Hgzip Htar Har Hsq H Hok.
  destruct u; try congruence; cbn [unpack] in H.
  - apply riff_labels_failure_fs in H; [subst; reflexivity|exact Hok].
  - apply riff_labels_failure_fs in H; [subst; reflexivity|exact Hok].
  - apply riff_labels_failure_fs in H; [subst; reflexivity|exact Hok].
  - eapply png_failure_fs; eassumption.
  - apply bmp_failure_fs in H; [subst; reflexivity|exact Hok].
  - eapply lzma_failure_fs; eassumption.
  - eapply lzma_wrapper_failure_fs; eassumption.
  - apply tz_failure_fs in H; [subst; reflexivity|exact Hok].
Qed.

Lemma failure_adds_no_file_witness :
  ({["/out/unpacked-from-lzma"%string := RegFile [x42]]} : FS)
  ⊆ {["/out/unpacked-from-lzma"%string := RegFile [x42]]}.
Proof.
  apply (failure_adds_no_file stored_zlib no_lzma no_tar plain_host LZMA 0%nat
           "stream"%string lzma_one 0 "/out"%string "/tmp"%string
           {["/out/unpacked-from-lzma"%string := RegFile [x42]]}
           {["/out/unpacked-from-lzma"%string := RegFile [x42]]}
           (Result false 0 [] [] (Some (Error 0 false "not valid LZMA data"))));
    try discriminate.
  - vm_compute. reflexivity.
  - reflexivity.
Defined.

(** ** The size in a result *)

(** *** Timezone files: the size returned by a failure *)

Lemma for_range_inl_inv {S R : Type} (inv : S -> Prop) (n : nat) (body : S -> R + S)
    (s : S) (r : R) :
  (forall s s', inv s -> body s = inr s' -> inv s') ->
  inv s -> for_range n body s = inl r -> exists s', inv s' /\ body s' = inl r.
Proof.
  intros Hstep. revert s. induction n as [|n IH]; intros s Hinv; cbn [for_range];
    [discriminate|].
  destruct (body s) as [r'|s1] eqn:Hbody.
  - intros [= <-]. eauto.
  - apply IH. eapply Hstep; eauto.
Qed.

Lemma tz_read_size data offset lo k why st r :
  tz_inv data offset lo st -> tz_read offset k why st = inl r ->
  consumed r <= len data - offset.
Proof.
  destruct st as [f u]. intros (D & Hoff & P & E & L). cbn [fst snd] in *.
  unfold tz_read. destruct (read f k) as [cb f1].
  destruct (negb _); [|discriminate]. intros [= <-]. cbn. lia.
Qed.

Lemma tz_index_size data offset lo n st r :
  tz_inv data offset lo st -> tz_index offset n st = inl r ->
  consumed r <= len data - offset.
Proof.
  destruct st as [f u]. intros (D & Hoff & P & E & L). cbn [fst snd] in *.
  unfold tz_index. destruct (read f 1) as [cb f1] eqn:E1.
  destruct cb as [|c [|? ?]]; try (intros [= <-]; cbn; lia).
  apply (read_one data) in E1 as (D1 & P1 & B1); [|assumption|lia|assumption].
  destruct (byte_val c >? n); [|discriminate]. intros [= <-]. cbn. lia.
Qed.

Lemma tz_ttinfo_size data offset lo n st r :
  tz_inv data offset lo st -> tz_ttinfo offset n st = inl r ->
  consumed r <= len data - offset.
Proof.
  intros Hinv. unfold tz_ttinfo.
  destruct (tz_read offset 4 _ st) as [r0|[f u]] eqn:E0.
  { intros [= <-]. eapply tz_read_size; eassumption. }
  apply (tz_read_inv data offset lo) in E0; [|exact Hinv].
  destruct E0 as (D & Hoff & P & E & L). cbn [fst snd] in *.
  destruct (read f 1) as [cb f1] eqn:E1.
  destruct cb as [|c [|? ?]]; try (intros [= <-]; cbn; lia).
  destruct ((byte_val c =? 0) || (byte_val c =? 1))%bool; cbn [negb];
    [|intros [= <-]; cbn; lia].
  apply (read_one data) in E1 as (D1 & P1 & B1); [|assumption|lia|assumption].
  destruct (read f1 1) as [cb2 f2] eqn:E2.
  destruct cb2 as [|c2 [|? ?]]; try (intros [= <-]; cbn; lia).
  destruct (byte_val c2 >? n); [|discriminate]. intros [= <-]. cbn. lia.
Qed.

Lemma tz_leap_size data offset lo w st r :
  tz_inv data offset lo st -> tz_leap offset w st = inl r ->
  consumed r <= len data - offset.
Proof.
  intros Hinv. unfold tz_leap.
  destruct (tz_read offset w _ st) as [r0|st1] eqn:E0.
  { intros [= <-]. eapply tz_read_size; eassumption. }
  apply (tz_read_inv data offset lo) in E0; [|exact Hinv].
  eapply tz_read_size; eassumption.
Qed.

Lemma tz_data_size data offset lo w c st r :
  tz_inv data offset lo st -> tz_data offset w c st = inl r ->
  consumed r <= len data - offset.
Proof.
  intros Hinv. unfold tz_data.
  repeat match goal with
  | |- context [match for_range ?n ?body ?s with _ => _ end] =>
      let E := fresh "E" in
      destruct (for_range n body s) as [?|?] eqn:E;
      [ apply (for_range_inl_inv (tz_inv data offset lo)) in E;
        [ destruct E as (? & ? & E); intros [= <-];
          first [eapply tz_read_size; eassumption | eapply tz_index_size; eassumption
                |eapply tz_ttinfo_size; eassumption | eapply tz_leap_size; eassumption]
        | intros ? ?; first [apply tz_read_inv|apply tz_index_inv|apply tz_ttinfo_inv
                            |apply tz_leap_inv]
        | assumption ]
      | apply (for_range_inr (tz_inv data offset lo)) in E;
        [|intros ? ?; first [apply tz_read_inv|apply tz_index_inv|apply tz_ttinfo_inv
                            |apply tz_leap_inv]|assumption] ]
  | |- context [match tz_read ?o ?k ?w ?s with _ => _ end] =>
      let E := fresh "E" in
      destruct (tz_read o k w s) as [?|?] eqn:E;
      [ intros [= <-]; eapply tz_read_size; eassumption
      | apply (tz_read_inv data offset lo) in E; [|assumption] ]
  end.
  intros Hlast. apply (for_range_inl_inv (tz_inv data offset lo)) in Hlast;
    [|intros ? ?; apply tz_read_inv|assumption].
  destruct Hlast as (? & ? & Hlast). eapply tz_read_size; eassumption.
Qed.

Lemma tz_header_size data offset lo st r :
  tz_inv data offset lo st -> fpos st.1 + 39 <= len data ->
  tz_header offset st = inl r -> consumed r <= len data - offset.
Proof.
  destruct st as [f u]. intros (D & Hoff & P & E & L) Hin. cbn [fst snd] in *.
  unfold tz_header. intros H.
  repeat break_in H; try discriminate; injection H as <-; cbn; lia.
Qed.

Lemma tz_posix_string_fail_size offset rest u r :
  tz_posix_string offset rest u = inl (Returned r) -> consumed r <= u + len rest.
Proof.
  revert u. induction rest as [|c rest IH]; intros u; cbn [tz_posix_string].
  - intros [= <-]. unfold tz_fail, len. cbn [consumed length]. lia.
  - replace (len (c :: rest)) with (len rest + 1) by (unfold len; cbn [length]; lia).
    pose proof (len_nonneg rest).
    destruct (bytes_eqb [c] [x0a]); [discriminate|].
    destruct (lookup_global "string"); [discriminate|].
    destruct (_ || _)%bool.
    + intros [= <-]. cbn. lia.
    + intros H1. apply IH in H1. lia.
Qed.

Lemma tz_size filename data offset unpackdir tmp fs r :
  0 <= offset <= len data ->
  fst (unpackTimeZone filename data offset unpackdir tmp fs) = Returned r ->
  consumed r <= len data - offset.
Proof.
  intros Hoff. unfold unpackTimeZone. cbv zeta.
  destruct (len data - offset <? 44) eqn:E44; [intros [= <-]; cbn; lia|].
  unfold seek, open_rb. cbn [fdata].
  rewrite (read_full data (offset + 4) 1) by lia.
  match goal with
  | |- context [match ?v with Some _ => _ | None => _ end] =>
      destruct v as [version|]; [|intros [= <-]; cbn; lia]
  end.
  destruct (tz_header _ _) as [r1|[c1 st1]] eqn:H1.
  { intros [= <-]. eapply (tz_header_size data offset 5); [| |exact H1];
      [unfold tz_inv; cbn [fst snd fdata fpos]; repeat split; lia|cbn [fst fpos]; lia]. }
  apply (tz_header_inv data offset 5) in H1;
    [|unfold tz_inv; cbn [fst snd fdata fpos]; repeat split; lia|cbn [fst fpos]; lia].
  destruct (tz_data _ 4 _ _) as [r2|[f2 u2]] eqn:H2.
  { intros [= <-]. eapply tz_data_size; eassumption. }
  apply (tz_data_inv data offset (5 + 39)) in H2; [|exact H1].
  destruct H2 as (D2 & _ & P2 & B2 & L2). cbn [fst snd] in *.
  assert (Hfin : forall size, size <= len data - offset ->
            fst (tz_finish data offset unpackdir fs size) = Returned r ->
            consumed r <= len data - offset).
  { intros size Hsize H. destruct (tz_finish _ _ _ _ _) as [o fs'] eqn:Hrun.
    cbn [fst] in H. subst o. apply tz_finish_success in Hrun as (_ & Hc & _). lia. }
  destruct (version =? 0); [apply Hfin; lia|].
  destruct (offset + u2 + 44 >? len data) eqn:E2; [intros [= <-]; cbn; lia|].
  destruct f2 as [d2 p2]. cbn [fdata fpos] in *. subst d2.
  rewrite (read_full data p2 4) by lia.
  destruct (bytes_eqb _ (b "TZif")); cbn [negb]; [|intros [= <-]; cbn; lia].
  rewrite (read_full data (p2 + 4) 1) by lia.
  match goal with
  | |- context [match ?v with Some _ => _ | None => _ end] =>
      destruct v as [newversion|]; [|intros [= <-]; cbn; lia]
  end.
  destruct (version =? newversion); cbn [negb]; [|intros [= <-]; cbn; lia].
  destruct (tz_header _ _) as [r3|[c3 st3]] eqn:H3.
  { intros [= <-]. eapply (tz_header_size data offset 5); [| |exact H3];
      [unfold tz_inv; cbn [fst snd fdata fpos]; repeat split; lia|cbn [fst fpos]; lia]. }
  apply (tz_header_inv data offset 5) in H3;
    [|unfold tz_inv; cbn [fst snd fdata fpos]; repeat split; lia|cbn [fst fpos]; lia].
  destruct (tz_data _ 8 _ _) as [r4|[f4 u4]] eqn:H4.
  { intros [= <-]. eapply tz_data_size; eassumption. }
  apply (tz_data_inv data offset (5 + 39)) in H4; [|exact H3].
  destruct H4 as (D4 & _ & P4 & B4 & L4). cbn [fst snd] in *.
  destruct (read f4 1) as [cb f5] eqn:E5.
  destruct (len cb =? 1) eqn:Hcb; cbn [negb]; [|intros [= <-]; cbn; lia].
  destruct (bytes_eqb cb [x0a]); cbn [negb]; [|intros [= <-]; cbn; lia].
  apply Z.eqb_eq in Hcb.
  apply read_whole in E5 as (D5 & P5 & _ & B5); [|lia|exact Hcb].
  rewrite D4 in B5.
  destruct (tz_posix_string _ _ _) as [o|u6] eqn:H6.
  { cbn [fst]. intros ->. apply tz_posix_string_fail_size in H6.
    unfold tell, len in *. rewrite length_drop in H6. lia. }
  apply tz_posix_string_size in H6.
  apply Hfin. unfold tell, len in *. rewrite length_drop in H6. lia.
Qed.

(** *** LZMA and XZ *)

Lemma read_within data f n cb f' :
  reads data f -> fpos f <= len data -> read f n = (cb, f') ->
  reads data f' /\ fpos f' <= len data /\ fpos f' = fpos f + len cb.
Proof.
  intros [D P] E H. apply read_eq in H as (D1 & P1 & L1 & F1).
  unfold reads. repeat split; try congruence; try lia.
  subst cb. destruct (Z_le_gt_dec 0 n) as [Hn|Hn].
  - rewrite read_len in P1 by lia. rewrite D in P1. lia.
  - unfold read in P1. cbn [fst] in P1.
    replace (Z.to_nat n) with 0%nat in P1 by lia.
    rewrite take_0 in P1. change (len []) with 0 in P1. lia.
Qed.

Lemma lzma_block_counts lzma data offset outfilename ppfiletype fs st :
  lzma_counts lzma data offset st ->
  match lzma_block lzma offset outfilename ppfiletype fs st with
  | Continue st' => lzma_counts lzma data offset st'
  | Break st' => lz_unpackedsize lzma st' <= len data - offset
  | Return run => forall r, fst run = Returned r -> consumed r = 0
  end.
Proof.
  intros (R & E & C). unfold lzma_block.
  pose proof (len_nonneg (lz_checkdata lzma st)) as Hcd.
  destruct (bytes_eqb (lz_checkdata lzma st) []); [cbv beta iota; lia|].
  destruct (l_decompress lzma _ _) as [unpackeddata o| |]; [|cbv beta iota; lia|].
  - pose proof (len_nonneg (l_unused_data lzma o)) as Hun.
    destruct (bytes_eqb (l_unused_data lzma o) []); cbn [negb].
    + destruct (read (lz_checkfile lzma st) 10000000) as [cb f1] eqn:E1.
      apply (read_within data) in E1 as (R1 & B1 & P1); [|assumption|assumption].
      unfold lzma_counts. cbn [lz_checkfile lz_checkdata lz_unpackedsize].
      repeat split; try apply R1; lia.
    + cbn [lz_unpackedsize]. lia.
  - destruct (os_unlink _ _); cbn [fst]; intros r [= <-]; reflexivity.
Qed.

Lemma lzma_wrapper_size lzma host filename data offset unpackdir extension filetype
    ppfiletype lzmaunpackedsize fs r :
  0 <= offset <= len data ->
  fst (unpackLZMAWrapper lzma host filename data offset unpackdir extension filetype
         ppfiletype lzmaunpackedsize fs) = Returned r ->
  consumed r <= len data - offset.
Proof.
  intros Hoff. unfold unpackLZMAWrapper. cbv zeta.
  unfold seek, open_rb. cbn [fdata].
  destruct (read (mkFile data offset) 900000) as [cb0 f0] eqn:E0.
  apply (read_within data) in E0 as (R0 & B0 & P0);
    [|split; [reflexivity|cbn; lia]|cbn; lia].
  cbn [fpos] in P0.
  destruct (l_decompress lzma _ cb0) as [unpackeddata o| |];
    [|intros [= <-]; cbn; lia|intros [= <-]; cbn; lia].
  match goal with
  | |- context [match ?v with Some _ => _ | None => _ end] =>
      destruct v as [outfilename|]; [|discriminate]
  end.
  destruct (read f0 10000000) as [cb1 f1] eqn:E1.
  apply (read_within data) in E1 as (R1 & B1 & P1); [|assumption|assumption].
  pose proof (len_nonneg (l_unused_data lzma o)) as Hun.
  destruct (while_loop _ _ _) as [[st|run]|] eqn:Hloop; [| |discriminate].
  - apply (while_loop_break _ (lzma_counts lzma data offset)) in Hloop
      as (s1 & Hinv & Hbreak).
    + pose proof (lzma_block_counts lzma data offset outfilename ppfiletype
                    (write_file outfilename unpackeddata fs) s1 Hinv) as Hs.
      rewrite Hbreak in Hs.
      intros H. repeat break_in H; known_result H; lia.
    + intros s s' Hs Hc.
      pose proof (lzma_block_counts lzma data offset outfilename ppfiletype
                    (write_file outfilename unpackeddata fs) s Hs) as Hs'.
      rewrite Hc in Hs'. exact Hs'.
    + unfold lzma_counts. cbn [lz_checkfile lz_checkdata lz_unpackedsize].
      repeat split; try apply R1; lia.
  - intros H. apply while_loop_inr in Hloop as [st' Hst].
    pose proof (len_nonneg data).
    assert (Hz : consumed r = 0); [|lia].
    (* every pass that leaves the function returns the size 0 *)
    revert Hst. unfold lzma_block. intros Hst.
    repeat break_in Hst; try discriminate; injection Hst as <-; known_result H.
    reflexivity.
Qed.

Lemma lzma_size lzma host filename data offset unpackdir tmp fs r :
  0 <= offset <= len data ->
  fst (unpackLZMA lzma host filename data offset unpackdir tmp fs) = Returned r ->
  consumed r <= len data - offset.
Proof.
  intros Hoff. unfold unpackLZMA. intros H.
  repeat break_in H; try (eapply lzma_wrapper_size; eassumption);
    known_result H; lia.
Qed.

(** *** RIFF, BMP, ar and squashfs *)

Lemma riff_failure_size host data offset unpackdir valid name header filesize fs
    size files labels err :
  fst (unpackRIFF host data offset unpackdir valid name header filesize fs)
    = Returned (false, size, files, labels, err) -> size = 0.
Proof.
  unfold unpackRIFF. intros H.
  repeat break_in H; cbn [fst] in H; try discriminate H; try congruence.
  apply while_loop_inr in Heqo as [st' Hst].
  apply riff_chunk_return in Hst as [e ->]. congruence.
Qed.

Lemma riff_labels_size host data offset unpackdir valid name header fs tags r :
  0 <= offset <= len data ->
  fst (riff_labels tags offset (len data)
         (unpackRIFF host data offset unpackdir valid name header (len data) fs))
    = Returned r ->
  consumed r <= len data - offset.
Proof.
  intros Hoff H. destruct (ok r) eqn:Hok.
  - destruct (riff_labels _ _ _ _) as [o fs'] eqn:Hrun. cbn [fst] in H. subst o.
    apply riff_labels_success in Hrun; [lia|lia|exact Hok].
  - revert H Hok.
    destruct (unpackRIFF _ _ _ _ _ _ _ _ _)
      as [[[[[[status size] files] labels] err]| |] fs1] eqn:Hriff;
      cbn [riff_labels fst]; try discriminate.
    destruct status; intros [= <-]; cbn [ok consumed]; [discriminate|]. intros _.
    assert (Hr : fst (unpackRIFF host data offset unpackdir valid name header (len data) fs)
                 = Returned (false, size, files, labels, err)) by (rewrite Hriff; reflexivity).
    apply riff_failure_size in Hr. lia.
Qed.

Lemma bmp_size_within host filename data offset unpackdir tmp fs r :
  0 <= offset <= len data ->
  fst (unpackBMP host filename data offset unpackdir tmp fs) = Returned r ->
  consumed r <= len data - offset.
Proof.
  intros Hoff. unfold unpackBMP. cbv zeta.
  destruct (len data - offset <? 26) eqn:E26; [intros [= <-]; cbn; lia|].
  intros H. repeat break_in H; known_result H; lia.
Qed.

Lemma ar_size host filename data offset unpackdir tmp fs r :
  0 <= offset <= len data ->
  fst (unpackAr host filename data offset unpackdir tmp fs) = Returned r ->
  consumed r <= len data - offset.
Proof.
  intros Hoff. unfold unpackAr. intros H.
  repeat break_in H; known_result H; lia.
Qed.

Lemma squashfs_size host filename data offset unpackdir tmp fs r :
  0 <= offset <= len data ->
  fst (unpackSquashfs host filename data offset unpackdir tmp fs) = Returned r ->
  consumed r <= len data - offset.
Proof.
  intros Hoff. unfold unpackSquashfs. cbv zeta. intros H.
  repeat break_in H; known_result H; try lia.
  all: repeat match goal with
       | E : (match ?X with _ => _ end) = inl _ |- _ =>
           destruct X eqn:?; try discriminate E
       end.
  all: match goal with E : inl _ = inl _ |- _ => injection E as <- end;
       cbn; lia.
Qed.

(** X16: but for PNG, gzip and tar, the size in a result, of a success or
    of a failure, is at most what the file holds from the offset on *)
Theorem consumed_within_file (zlib : ZlibModule) (lzma : LzmaModule)
    (tarfile : TarfileModule) (host : Host) (u : Unpacker) (fuel : nat)
    (filename : string) (data : bytes) (offset : Z)
    (unpackdir temporarydirectory : string) (fs : FS) (r : UnpackResult) :
  u <> PNG -> u <> Gzip -> u <> Tar ->
  0 <= offset <= len data ->
  fst (unpack zlib lzma tarfile host u fuel filename data offset unpackdir
         temporarydirectory fs) = Returned r ->
  consumed r <= len data - offset.
Proof.
  intros Hpng Hgzip Htar Hoff H.
  destruct u; try congruence; cbn [unpack] in H;
    eauto using riff_labels_size, bmp_size_within, lzma_size, lzma_wrapper_size,
      tz_size, ar_size, squashfs_size.
Qed.

Lemma consumed_within_file_witness :
  consumed (Result true 59 [] ["resource"; "timezone"]%string None) <= len tz_v0_utc - 0.
Proof.
  apply (consumed_within_file stored_zlib no_lzma no_tar plain_host TimeZone 0%nat
           "UTC"%string tz_v0_utc 0 "/out"%string "/tmp"%string ∅
           (Result true 59 [] ["resource"; "timezone"]%string None));
    try discriminate.
  - vm_compute. split; discriminate.
  - vm_compute. reflexivity.
Defined.

(** * Decompressors and archives *)

(** ** LZMA: what a success means *)

Lemma write_twice (path : string) (first second : bytes) (fs : FS) :
  write_file path second (write_file path first fs) = write_file path second fs.
Proof. unfold write_file. apply insert_insert_eq. Qed.

Lemma lzma_block_not_ok lzma offset outfilename ppfiletype fs st r fs' :
  lzma_block lzma offset outfilename ppfiletype fs st = Return (Returned r, fs') ->
  ok r = false.
Proof.
  unfold lzma_block. intros H.
  repeat break_in H; try discriminate; injection H as <- <-. reflexivity.
Qed.

Lemma lzma_wrapper_success lzma host filename data offset unpackdir declared fs r fs' :
  unpackLZMAWrapper lzma host filename data offset unpackdir ".lzma" "lzma" "LZMA"
    declared fs = (Returned r, fs') ->
  ok r = true ->
  error r = None
  /\ exists out : bytes,
      len out <> 0
      /\ (declared <> -1 -> len out = declared)
      /\ ((carved r = [(lzma_outfilename filename unpackdir, [])]
           /\ fs' = write_file (lzma_outfilename filename unpackdir) out fs)
          \/ (offset = 0 /\ consumed r = len data
              /\ carved r = [(path_join unpackdir (drop_last 5 (basename filename)), [])]
              /\ shutil_move host (lzma_outfilename filename unpackdir)
                   (path_join unpackdir (drop_last 5 (basename filename)))
                   (write_file (lzma_outfilename filename unpackdir) out fs) = Some fs')).
Proof.
  unfold unpackLZMAWrapper. cbv zeta.
  change (String.eqb "lzma" "lzma") with true.
  set (name0 := lzma_outfilename filename unpackdir).
  destruct (read _ 900000) as [cb0 f0].
  destruct (l_decompress lzma _ cb0) as [ud o| |]; [|not_ok|not_ok].
  match goal with
  | |- context [match ?v with Some _ => _ | None => _ end] =>
      replace v with (Some name0)
        by (unfold name0, lzma_outfilename; cbn;
            destruct (endswith filename ".lzma"); reflexivity)
  end.
  destruct (read f0 10000000) as [cb1 f1].
  destruct (while_loop _ _ _) as [[st|[[r1| |] fs1]]|] eqn:Hloop; try (intros [=]; fail).
  - cbv beta. rewrite !write_twice, st_size_written.
    destruct (len (lz_outdata lzma st) =? 0) eqn:Hzero.
    { destruct (os_unlink _ _); [not_ok|intros [=]]. }
    apply Z.eqb_neq in Hzero. cbn [andb].
    destruct (negb (declared =? -1) && negb (declared =? len (lz_outdata lzma st)))%bool
      eqn:Hdecl.
    { destruct (os_unlink _ _); [not_ok|intros [=]]. }
    assert (Hsize : declared <> -1 -> len (lz_outdata lzma st) = declared).
    { intros Hne. apply andb_false_iff in Hdecl as [Hd|Hd];
        apply negb_false_iff, Z.eqb_eq in Hd; congruence. }
    destruct ((offset =? 0) && (lz_unpackedsize lzma st =? len data))%bool eqn:Hwhole.
    + cbn [andb]. destruct (endswith (lower filename) ".lzma").
      * change (String.length ".lzma") with 5%nat.
        destruct (shutil_move host name0 _ _) as [fs2|] eqn:Hmove; [|intros [=]].
        intros [= <- <-] _. cbn [ok consumed carved stream_tags error].
        split; [reflexivity|]. exists (lz_outdata lzma st).
        apply andb_true_iff in Hwhole as [H0 Hall]. apply Z.eqb_eq in H0, Hall.
        repeat split; try assumption. right. repeat split; assumption.
      * intros [= <- <-] _. cbn [ok consumed carved stream_tags error].
        split; [reflexivity|]. exists (lz_outdata lzma st).
        repeat split; try assumption. left. split; reflexivity.
    + cbn [andb]. intros [= <- <-] _. cbn [ok consumed carved stream_tags error].
      split; [reflexivity|]. exists (lz_outdata lzma st).
      repeat split; try assumption. left. split; reflexivity.
  - apply while_loop_inr in Hloop as [st' Hst].
    apply lzma_block_not_ok in Hst. intros [= <- <-] Hok. congruence.
Qed.

(** X9: an LZMA stream that unpacks leaves one file, which is not empty
    and has the size the header declares unless the header leaves the size
    open; the file keeps its first name unless the stream is the whole
    file, in which case it may be moved to the name of the file without
    its extension. *)
Theorem lzma_success (lzma : LzmaModule) (host : Host) (filename : string)
    (data : bytes) (offset : Z) (unpackdir temporarydirectory : string)
    (fs fs' : FS) (r : UnpackResult) :
  0 <= offset ->
  unpackLZMA lzma host filename data offset unpackdir temporarydirectory fs
    = (Returned r, fs') ->
  ok r = true ->
  13 <= len data - offset
  /\ error r = None
  /\ exists out : bytes,
      len out <> 0
      /\ (take 8 (drop (Z.to_nat (offset + 5)) data)
            <> [xff; xff; xff; xff; xff; xff; xff; xff] ->
          len out = lzma_declared data offset)
      /\ ((carved r = [(lzma_outfilename filename unpackdir, [])]
           /\ fs' = write_file (lzma_outfilename filename unpackdir) out fs)
          \/ (offset = 0 /\ consumed r = len data
              /\ carved r = [(path_join unpackdir (drop_last 5 (basename filename)), [])]
              /\ shutil_move host (lzma_outfilename filename unpackdir)
                   (path_join unpackdir (drop_last 5 (basename filename)))
                   (write_file (lzma_outfilename filename unpackdir) out fs) = Some fs')).
Proof.
  intros Hoff. unfold unpackLZMA, lzma_declared. cbv zeta.
  destruct (len data - offset <? 13) eqn:E13; [not_ok|].
  unfold seek, open_rb. cbn [fdata].
  rewrite (read_full data (offset + 5) 8) by lia.
  change (Z.to_nat 8) with 8%nat.
  set (header := take 8 (drop (Z.to_nat (offset + 5)) data)).
  unfold bytes_eqb at 1.
  match goal with
  | |- context [negb ?c] => destruct c eqn:Hopen
  end; cbn [negb];
    [apply bool_decide_eq_true in Hopen|apply bool_decide_eq_false in Hopen].
  - intros H Hok. apply lzma_wrapper_success in H as (Herr & out & Hout & _ & Hcase);
      [|exact Hok].
    split; [lia|]. split; [exact Herr|]. exists out.
    split; [exact Hout|]. split; [intros Hne; contradiction|exact Hcase].
  - destruct (from_bytes_little header =? 0) eqn:Hzero; [not_ok|].
    destruct (from_bytes_little header >? 274877906944); [not_ok|].
    intros H Hok. apply lzma_wrapper_success in H as (Herr & out & Hout & Hsize & Hcase);
      [|exact Hok].
    split; [lia|]. split; [exact Herr|]. exists out.
    split; [exact Hout|]. split; [|exact Hcase].
    intros _. apply Hsize. pose proof (from_bytes_little_nonneg header). lia.
Qed.

Lemma lzma_success_witness :
  let r := Result true 14 [("/out/unpacked-from-lzma"%string, [])]
             ["lzma"; "compressed"]%string None in
  let fs' : FS := {["/out/unpacked-from-lzma"%string := RegFile [x41]]} in
  13 <= len lzma_one - 0
  /\ error r = None
  /\ exists out : bytes,
      len out <> 0
      /\ (take 8 (drop (Z.to_nat (0 + 5)) lzma_one)
            <> [xff; xff; xff; xff; xff; xff; xff; xff] ->
          len out = lzma_declared lzma_one 0)
      /\ ((carved r = [(lzma_outfilename "stream" "/out", [])]
           /\ fs' = write_file (lzma_outfilename "stream" "/out") out ∅)
          \/ (0 = 0 /\ consumed r = len lzma_one
              /\ carved r = [(path_join "/out" (drop_last 5 (basename "stream")), [])]
              /\ shutil_move plain_host (lzma_outfilename "stream" "/out")
                   (path_join "/out" (drop_last 5 (basename "stream")))
                   (write_file (lzma_outfilename "stream" "/out") out ∅) = Some fs')).
Proof.
  cbv zeta.
  apply (lzma_success copy_lzma plain_host "stream"%string lzma_one 0 "/out"%string
           "/tmp"%string ∅ {["/out/unpacked-from-lzma"%string := RegFile [x41]]}
           (Result true 14 [("/out/unpacked-from-lzma"%string, [])]
              ["lzma"; "compressed"]%string None)).
  - lia.
  - vm_compute. reflexivity.
  - reflexivity.
Defined.

(** ** ar and squashfs: what a success lists *)

Lemma ar_found_lists filename unpackdir foundfiles files labels :
  fst (ar_found filename unpackdir foundfiles files labels)
  = files ++ map (fun f => (path_join unpackdir f, [])) foundfiles.
Proof.
  revert files labels. induction foundfiles as [|f rest IH]; intros files labels;
    cbn [ar_found map].
  - rewrite app_nil_r. reflexivity.
  - rewrite IH, <- app_assoc. reflexivity.
Qed.

Lemma ar_found_labels filename unpackdir foundfiles files labels tag :
  In tag (snd (ar_found filename unpackdir foundfiles files labels))
  <-> In tag labels
      \/ (In tag ["debian"; "deb"]%string /\ In "debian-binary"%string foundfiles
          /\ deb_name filename = true).
Proof.
  set (T := In tag ["debian"; "deb"]%string).
  revert files labels. induction foundfiles as [|f rest IH]; intros files labels;
    cbn [ar_found].
  - cbn [snd In]. tauto.
  - rewrite IH. fold (deb_name filename). cbn [In].
    assert (Htrue : true = true) by reflexivity.
    assert (Hfalse : false = true -> False) by discriminate.
    destruct (String.eqb_spec f "debian-binary") as [->|Hne]; cbn [andb].
    + assert (Hrefl : "debian-binary"%string = "debian-binary"%string) by reflexivity.
      destruct (deb_name filename) eqn:Hdeb.
      * rewrite in_app_iff. fold T. tauto.
      * tauto.
    + tauto.
Qed.

(** X10: a success of [unpackAr] is at offset 0 and stands for the whole
    file; it lists, without labels, every entry of the output directory
    as [ar x] left it, and labels the file as a Debian package exactly when
    an entry is called debian-binary and the file name ends in .deb or
    .udeb. *)
Theorem ar_success (host : Host) (filename : string) (data : bytes) (offset : Z)
    (unpackdir temporarydirectory : string) (fs fs' : FS) (r : UnpackResult) :
  unpackAr host filename data offset unpackdir temporarydirectory fs = (Returned r, fs') ->
  ok r = true ->
  offset = 0 /\ consumed r = len data /\ error r = None
  /\ run_ar_x host filename data unpackdir fs = (0, fs')
  /\ carved r = map (fun f => (path_join unpackdir f, []))
                  (os_listdir host unpackdir fs')
  /\ (forall tag, In tag (stream_tags r) <->
        In tag ["archive"; "ar"]%string
        \/ (In tag ["debian"; "deb"]%string
            /\ In "debian-binary"%string (os_listdir host unpackdir fs')
            /\ deb_name filename = true)).
Proof.
  unfold unpackAr. cbv zeta.
  destruct (offset =? 0) eqn:H0; cbn [negb]; [|not_ok].
  apply Z.eqb_eq in H0.
  destruct (shutil_which host "ar"); cbn [negb]; [|not_ok].
  destruct (run_ar_t host filename data =? 0); cbn [negb]; [|not_ok].
  destruct (run_ar_x host filename data unpackdir fs) as [code fs1] eqn:Hx.
  destruct (code =? 0) eqn:Hcode; cbn [negb].
  - apply Z.eqb_eq in Hcode. subst code.
    destruct (ar_found _ _ _ _ _) as [files labels] eqn:Hfound.
    intros [= <- <-] _. cbn [ok consumed carved stream_tags error].
    repeat split; try assumption.
    + change files with (fst (files, labels)). rewrite <- Hfound.
      rewrite ar_found_lists. reflexivity.
    + change labels with (snd (files, labels)). rewrite <- Hfound.
      apply ar_found_labels.
    + change labels with (snd (files, labels)). rewrite <- Hfound.
      apply ar_found_labels.
  - destruct (ar_cleanup _ _ _) as [[e fs2]|fs2]; [intros [=]|not_ok].
Qed.

Lemma ar_success_witness :
  let host := listing_host ["debian-binary"; "control.tar.gz"; "data.tar.xz"]%string in
  let r := Result true 8
             [("/out/debian-binary"%string, []); ("/out/control.tar.gz"%string, []);
              ("/out/data.tar.xz"%string, [])]
             ["archive"; "ar"; "debian"; "deb"]%string None in
  0 = 0 /\ consumed r = len (b "!<arch>" ++ [x0a]) /\ error r = None
  /\ run_ar_x host "hello.deb" (b "!<arch>" ++ [x0a]) "/out" ∅ = (0, ∅)
  /\ carved r = map (fun f => (path_join "/out" f, [])) (os_listdir host "/out" ∅)
  /\ (forall tag, In tag (stream_tags r) <->
        In tag ["archive"; "ar"]%string
        \/ (In tag ["debian"; "deb"]%string
            /\ In "debian-binary"%string (os_listdir host "/out" ∅)
            /\ deb_name "hello.deb" = true)).
Proof.
  cbv zeta.
  apply (ar_success (listing_host ["debian-binary"; "control.tar.gz"; "data.tar.xz"]%string)
           "hello.deb"%string (b "!<arch>" ++ [x0a]) 0 "/out"%string "/tmp"%string ∅ ∅
           (Result true 8
              [("/out/debian-binary"%string, []); ("/out/control.tar.gz"%string, []);
               ("/out/data.tar.xz"%string, [])]
              ["archive"; "ar"; "debian"; "deb"]%string None)).
  - vm_compute. reflexivity.
  - reflexivity.
Defined.

(** X11: a success of [unpackSquashfs] needs 30 bytes and the program
    unsquashfs, stays within the file, gives no label, and lists without
    labels every file that is found below the output directory when the
    call ends. *)
Theorem squashfs_success (host : Host) (filename : string) (data : bytes) (offset : Z)
    (unpackdir temporarydirectory : string) (fs fs' : FS) (r : UnpackResult) :
  unpackSquashfs host filename data offset unpackdir temporarydirectory fs
    = (Returned r, fs') ->
  ok r = true ->
  shutil_which host "unsquashfs" = true
  /\ 30 <= len data - offset
  /\ 0 <= consumed r <= len data - offset
  /\ stream_tags r = []
  /\ carved r = map (fun f => (f, [])) (os_walk_files host unpackdir fs').
Proof.
  unfold unpackSquashfs. cbv zeta.
  destruct (shutil_which host "unsquashfs"); cbn [negb]; [|not_ok].
  destruct (len data - offset <? 30) eqn:E30; [not_ok|].
  destruct (read _ 4) as [magic f0].
  destruct (read _ 2) as [vb f1].
  set (bigendian := if bytes_eqb magic (b "hsqs") then false else true).
  set (major := if bigendian then from_bytes_big vb else from_bytes_little vb).
  destruct ((major =? 0) || (major >? 4))%bool; [not_ok|].
  match goal with
  | |- context [match ?v with inl _ => _ | inr _ => _ end] =>
      destruct v as [r0|[size|]] eqn:Hsize
  end; [|  |intros [=]].
  { intros [= <- <-] Hok. exfalso. revert Hsize.
    repeat break_goal; intros [=]; subst r0; discriminate. }
  assert (Hnn : 0 <= size).
  { revert Hsize. repeat break_goal; intros [=]; subst size;
      first [apply from_bytes_big_nonneg|apply from_bytes_little_nonneg]. }
  destruct (offset + size >? len data) eqn:Hfit; [not_ok|].
  intros H. repeat break_in H; try discriminate H; try (revert H; not_ok).
  all: injection H as <- <-; intros _; cbn [ok consumed carved stream_tags error];
    repeat split; lia.
Qed.

Lemma squashfs_success_witness :
  let r := Result true 96 [] [] (Some (Error 0 false "Not a valid Squashfs")) in
  shutil_which plain_host "unsquashfs" = true
  /\ 30 <= len squashfs_v4 - 0
  /\ 0 <= consumed r <= len squashfs_v4 - 0
  /\ stream_tags r = []
  /\ carved r = map (fun f => (f, [])) (os_walk_files plain_host "/out" ∅).
Proof.
  cbv zeta.
  apply (squashfs_success plain_host "root.sqsh"%string squashfs_v4 0 "/out"%string
           "/tmp"%string ∅ ∅
           (Result true 96 [] [] (Some (Error 0 false "Not a valid Squashfs")))).
  - vm_compute. reflexivity.
  - reflexivity.
Defined.

(** ** tar: the padding after the last member *)

Lemma take_plus {A : Type} (n m : nat) (l : list A) :
  take (n + m) l = take n l ++ take m (drop n l).
Proof.
  revert l. induction n as [|n IH]; intros l; [reflexivity|].
  destruct l as [|x l]; cbn [Nat.add take drop app].
  - rewrite take_nil. reflexivity.
  - rewrite IH. reflexivity.
Qed.

Lemma zeros_plus (n m : nat) : zeros (n + m) = zeros n ++ zeros m.
Proof. unfold zeros. apply repeat_app. Qed.

Lemma tar_padding_blocks (data : bytes) (offset size : Z) (fuel : nat)
    (checkfile : FileObj) (size' : Z) :
  0 <= offset + size ->
  while_loop (tar_padding offset (len data)) fuel (mkFile data (offset + size), size)
    = Some (inl (checkfile, size')) ->
  exists k : nat,
    size' = size + 512 * Z.of_nat k
    /\ sendfile data (offset + size) (512 * Z.of_nat k) = zeros (512 * k)
    /\ (len data <= offset + size'
        \/ sendfile data (offset + size') 512 <> zeros 512).
Proof.
  revert size. induction fuel as [|fuel IH]; intros size Hpos; cbn [while_loop];
    [discriminate|].
  unfold tar_padding at 1.
  destruct (offset + size <? len data) eqn:Hend; cbn [negb].
  - apply Z.ltb_lt in Hend.
    unfold read. cbn [fdata fpos].
    change (Z.to_nat 512) with 512%nat.
    set (block := take 512 (drop (Z.to_nat (offset + size)) data)).
    assert (Hblock : sendfile data (offset + size) 512 = block) by reflexivity.
    destruct (len block =? 512) eqn:Hlen; cbn [negb].
    + destruct (bytes_eqb block (zeros 512)) eqn:Hzero; cbn [negb].
      * apply Z.eqb_eq in Hlen. rewrite Hlen.
        replace (offset + size + 512) with (offset + (size + 512)) by lia.
        intros H. apply IH in H as (k & Hk & Hzeros & Hstop); [|lia].
        exists (S k). split; [lia|]. split; [|exact Hstop].
        unfold bytes_eqb in Hzero. apply bool_decide_eq_true in Hzero.
        unfold sendfile in *.
        replace (Z.to_nat (512 * Z.of_nat (S k))) with (512 + Z.to_nat (512 * Z.of_nat k))%nat
          by lia.
        replace (512 * S k)%nat with (512 + 512 * k)%nat by lia.
        rewrite take_plus, zeros_plus, drop_drop.
        replace (Z.to_nat (offset + size) + 512)%nat with (Z.to_nat (offset + (size + 512)))
          by lia.
        fold block. rewrite Hzero, Hzeros. reflexivity.
      * intros [= <- <-]. exists 0%nat. split; [lia|]. split; [reflexivity|].
        right. rewrite Hblock. unfold bytes_eqb in Hzero.
        apply bool_decide_eq_false in Hzero. exact Hzero.
    + intros [= <- <-]. exists 0%nat. split; [lia|]. split; [reflexivity|].
      right. rewrite Hblock. intros Hz. rewrite Hz in Hlen. discriminate.
  - intros [= <- <-]. exists 0%nat. split; [lia|]. split; [reflexivity|].
    left. apply Z.ltb_ge in Hend. lia.
Qed.

Lemma tar_padding_continue (data : bytes) (offset : Z) (st st' : FileObj * Z) :
  fdata st.1 = data /\ 0 <= fpos st.1 ->
  tar_padding offset (len data) st = Continue st' ->
  (fdata st'.1 = data /\ 0 <= fpos st'.1)
  /\ (left_in data st'.1 < left_in data st.1)%nat.
Proof.
  destruct st as [f size]. cbn [fst]. intros [D P]. unfold tar_padding.
  destruct (offset + size <? len data); cbn [negb]; [|discriminate].
  destruct (read f 512) as [cb f1] eqn:E1.
  destruct (len cb =? 512) eqn:Hlen; cbn [negb]; [|discriminate].
  destruct (bytes_eqb cb (zeros 512)); cbn [negb]; [|discriminate].
  apply Z.eqb_eq in Hlen.
  apply read_whole in E1 as (D1 & P1 & _ & B1); [|exact P|exact Hlen].
  intros [= <-]. cbn [fst]. unfold left_in. rewrite D in *.
  split; [split; [congruence|lia]|lia].
Qed.

Lemma tar_padding_never_returns (offset filesize : Z) (st : FileObj * Z) (u : unit) :
  tar_padding offset filesize st <> Return u.
Proof.
  destruct st as [f size]. unfold tar_padding. repeat break_goal; discriminate.
Qed.

(** X12: the loop over the padding of a tar archive ends; it counts whole
    blocks of 512 NUL bytes and nothing else, and stops at the end of the
    file or before the first block that is short or holds another byte. *)
Theorem tar_padding_counts_zero_blocks (data : bytes) (offset size : Z) :
  0 <= offset + size ->
  exists (k : nat) (checkfile : FileObj),
    while_loop (tar_padding offset (len data)) (S (length data))
      (mkFile data (offset + size), size)
      = Some (inl (checkfile, size + 512 * Z.of_nat k))
    /\ sendfile data (offset + size) (512 * Z.of_nat k) = zeros (512 * k)
    /\ (len data <= offset + (size + 512 * Z.of_nat k)
        \/ sendfile data (offset + (size + 512 * Z.of_nat k)) 512 <> zeros 512).
Proof.
  intros Hpos.
  destruct (while_loop (tar_padding offset (len data)) (S (length data))
              (mkFile data (offset + size), size)) as [[[f size']|u]|] eqn:Hloop.
  - pose proof Hloop as Hblocks.
    apply tar_padding_blocks in Hblocks as (k & -> & Hzeros & Hstop); [|exact Hpos].
    exists k, f. repeat split; assumption.
  - apply while_loop_inr in Hloop as [st Hst].
    exfalso. eapply tar_padding_never_returns, Hst.
  - exfalso. revert Hloop.
    apply (while_loop_terminates _ (fun st => fdata st.1 = data /\ 0 <= fpos st.1)
             (fun st => left_in data st.1)).
    + intros s s'. apply tar_padding_continue.
    + cbn [fst fdata fpos]. split; [reflexivity|exact Hpos].
    + cbn [fst]. unfold left_in, len. cbn [fpos]. lia.
Qed.

Lemma tar_padding_counts_zero_blocks_witness :
  let data := zeros 1024 ++ b "next member" in
  exists (k : nat) (checkfile : FileObj),
    while_loop (tar_padding 0 (len data)) (S (length data)) (mkFile data (0 + 0), 0)
      = Some (inl (checkfile, 0 + 512 * Z.of_nat k))
    /\ sendfile data (0 + 0) (512 * Z.of_nat k) = zeros (512 * k)
    /\ (len data <= 0 + (0 + 512 * Z.of_nat k)
        \/ sendfile data (0 + (0 + 512 * Z.of_nat k)) 512 <> zeros 512).
Proof.
  cbv zeta.
  apply (tar_padding_counts_zero_blocks (zeros 1024 ++ b "next member") 0 0).
  lia.
Defined.

(** ** gzip: the name stored in the header *)

Lemma path_join_absolute_name (dir name : string) :
  startswith name "/" = true -> path_join dir name = name.
Proof. unfold path_join. intros ->. reflexivity. Qed.

(** the trailer and the renaming, for a member with a stored name *)
Lemma gzip_trailer_named host data offset unpackdir outfilename fs origname s
    checkfile size outdata r fs' :
  origname <> [] ->
  bytes_decode host origname = Some s ->
  gzip_trailer host data offset unpackdir outfilename fs true origname
    checkfile size outdata = (Returned r, fs') ->
  ok r = true ->
  (shutil_move host outfilename (path_join unpackdir s)
     (write_file outfilename outdata fs) = Some fs'
   /\ carved r = [(path_join unpackdir s, [])])
  \/ (shutil_move host outfilename (path_join unpackdir s)
        (write_file outfilename outdata fs) = None
      /\ fs' = write_file outfilename outdata fs
      /\ carved r = [(outfilename, [])]).
Proof.
  intros Hname Hdecode. unfold gzip_trailer. cbv zeta. rewrite st_size_written.
  destruct (len data - size + offset <? 8); [not_ok|].
  destruct (read _ 4) as [crc f1]. destruct (read f1 4) as [isize f2].
  destruct (from_bytes_little isize =? _); cbn [negb]; [|not_ok].
  assert (Hlen : (len origname =? 0) = false).
  { apply Z.eqb_neq. destruct origname; [congruence|]. unfold len. cbn [length]. lia. }
  rewrite Hlen, Hdecode. cbn [andb negb].
  destruct (shutil_move host _ _ _) as [fs1|] eqn:Hmove;
    intros [= <- <-] _; cbn [carved app]; [left|right]; repeat split.
Qed.

Lemma gzip_body_named zlib host fuel filename data offset unpackdir fs checkfile
    size origname s r fs' :
  origname <> [] ->
  bytes_decode host origname = Some s ->
  gzip_body zlib host fuel filename data offset unpackdir fs checkfile size
    true origname = (Returned r, fs') ->
  ok r = true ->
  exists outdata,
    (shutil_move host (gzip_outfilename filename unpackdir) (path_join unpackdir s)
       (write_file (gzip_outfilename filename unpackdir) outdata fs) = Some fs'
     /\ carved r = [(path_join unpackdir s, [])])
    \/ (shutil_move host (gzip_outfilename filename unpackdir) (path_join unpackdir s)
          (write_file (gzip_outfilename filename unpackdir) outdata fs) = None
        /\ fs' = write_file (gzip_outfilename filename unpackdir) outdata fs
        /\ carved r = [(gzip_outfilename filename unpackdir, [])]).
Proof.
  intros Hname Hdecode. unfold gzip_body. cbv zeta. intros H Hok.
  destruct (while_loop _ _ _) as [[st|run]|] eqn:Hloop.
  - exists (gz_outdata zlib st).
    apply (gzip_trailer_named _ _ _ _ _ _ _ s) in H; try assumption.
    rewrite write_twice in H. exact H.
  - apply while_loop_inr in Hloop as [st' Hst].
    subst run. eapply gzip_block_fails in Hst; [|reflexivity]. congruence.
  - discriminate H.
Qed.

(** X6: a gzip member that stores a name (flag byte 0x08) and unpacks is
    listed under that name joined to the output directory, to which the
    decompressed file is moved; the name is joined as it is stored, so an
    absolute name is itself the target of the move.  When the move raises,
    the file stays under the name derived from the input. *)
Theorem gzip_stored_name (zlib : ZlibModule) (host : Host) (fuel : nat)
    (filename : string) (data : bytes) (offset : Z)
    (unpackdir temporarydirectory : string) (fs fs' : FS)
    (name rest : bytes) (s : string) (r : UnpackResult) :
  0 <= offset ->
  data !! Z.to_nat (offset + 3) = Some x08 ->
  drop (Z.to_nat (offset + 10)) data = name ++ x00 :: rest ->
  x00 ∉ name -> name <> [] ->
  bytes_decode host name = Some s ->
  unpackGzip zlib host fuel filename data offset unpackdir temporarydirectory fs
    = (Returned r, fs') ->
  ok r = true ->
  (startswith s "/" = true -> path_join unpackdir s = s)
  /\ exists outdata,
      (shutil_move host (gzip_outfilename filename unpackdir) (path_join unpackdir s)
         (write_file (gzip_outfilename filename unpackdir) outdata fs) = Some fs'
       /\ carved r = [(path_join unpackdir s, [])])
      \/ (shutil_move host (gzip_outfilename filename unpackdir) (path_join unpackdir s)
            (write_file (gzip_outfilename filename unpackdir) outdata fs) = None
          /\ fs' = write_file (gzip_outfilename filename unpackdir) outdata fs
          /\ carved r = [(gzip_outfilename filename unpackdir, [])]).
Proof.
  intros Hoff Hflags Hdrop Hnul Hname Hdecode Hrun Hsuccess.
  split; [apply path_join_absolute_name|]. revert Hrun Hsuccess.
  unfold unpackGzip.
  rewrite (read_byte (seek (open_rb data) (offset + 3)) x08);
    [|cbn [seek fpos]; lia|exact Hflags].
  cbv zeta.
  destruct (gzip_flags_name x08 eq_refl) as (H2 & H5 & H67 & H1 & H3 & H4).
  rewrite H2, H5, H67, H3, H4, H1. unfold seek, open_rb.
  cbn [seek_cur tell fpos fdata].
  replace (offset + 3 + 1 + 4 + 2) with (offset + 10) by lia.
  rewrite Hdrop, read_until_nul_found by assumption.
  cbn [app].
  destruct (read _ 1) as [cb f1].
  destruct cb as [|first [|? ?]]; try not_ok.
  destruct (_ && _)%bool; [not_ok|].
  intros H Hok. eapply gzip_body_named; eassumption.
Qed.

(** the decompression loop on [gzip_named]: one pass, as on [gzip_A] *)
Lemma gzip_named_loop (fuel : nat) (outfilename : string) (fs : FS) :
  exists st,
    while_loop (gzip_block stored_zlib 0 "/out" outfilename fs) (S fuel)
      {| gz_checkfile := mkFile gzip_named 20;
         gz_checkbytes := zeros (Z.to_nat 10000000);
         gz_decompressor := z_decompressobj stored_zlib;
         gz_outdata := [];
         gz_gzipcrc32 := crc32 [];
         gz_unpackedsize := 20 |} = Some (inl st)
    /\ gz_checkfile _ st = mkFile gzip_named 34
    /\ gz_outdata _ st = [x41]
    /\ gz_unpackedsize _ st = 26.
Proof.
  replace (Z.to_nat 10000000) with (14 + Z.to_nat 9999986)%nat by lia.
  generalize (Z.to_nat 9999986). intros m.
  cbn [while_loop]. unfold gzip_block.
  cbn [fpos fdata gz_checkfile gz_checkbytes gz_decompressor gz_outdata gz_gzipcrc32 gz_unpackedsize].
  rewrite readinto_short.
  2:{ cbn [fpos fdata]. unfold zeros. rewrite repeat_length.
      change (Z.to_nat 20) with 20%nat. unfold gzip_named. cbn. lia. }
  cbn [fpos fdata].
  change (drop (Z.to_nat 20) gzip_named)
    with ([x01; x01; x00; xfe; xff; x41] ++ [x8b; x9e; xd9; xd3; x01; x00; x00; x00]).
  cbn [app length]. rewrite drop_zeros.
  change (z_decompress stored_zlib (z_decompressobj stored_zlib)) with (stored_decompress None).
  rewrite stored_decompress_A.
  cbn [z_unused_data stored_zlib app].
  change (bytes_eqb (x8b :: x9e :: xd9 :: xd3 :: x01 :: x00 :: x00 :: x00 :: zeros m) [])
    with false.
  cbn [negb]. eexists. split; [reflexivity|].
  cbn [gz_checkfile gz_outdata gz_unpackedsize app].
  repeat rewrite len_cons. rewrite len_zeros.
  repeat split; f_equal; unfold len; cbn [length]; lia.
Qed.

(** the header of [gzip_named]: [unpackGzip] takes the name and reaches
    the DEFLATE data at position 20 *)
Lemma gzip_named_header (host : Host) (fuel : nat) (filename : string)
    (unpackdir temporarydirectory : string) (fs : FS) :
  unpackGzip stored_zlib host fuel filename gzip_named 0 unpackdir temporarydirectory fs
  = gzip_body stored_zlib host fuel filename gzip_named 0 unpackdir fs
      (mkFile gzip_named 20) 20 true (b "/etc/motd").
Proof. reflexivity. Qed.

Lemma gzip_named_run (host : Host) (fuel : nat) (filename : string)
    (temporarydirectory : string) (fs : FS) :
  unpackGzip stored_zlib host (S fuel) filename gzip_named 0 "/out" temporarydirectory fs
  = gzip_trailer host gzip_named 0 "/out" (gzip_outfilename filename "/out")
      (write_file (gzip_outfilename filename "/out") [] fs)
      true (b "/etc/motd") (mkFile gzip_named 34) 26 [x41].
Proof.
  rewrite gzip_named_header. unfold gzip_body. cbv zeta.
  destruct (gzip_named_loop fuel (gzip_outfilename filename "/out")
              (write_file (gzip_outfilename filename "/out") [] fs))
    as (st & Hloop & Hfile & Hout & Hsize).
  rewrite Hloop, Hfile, Hout, Hsize. reflexivity.
Qed.

(** on a host that moves what it is asked to move, the file stored as
    /etc/motd leaves the output directory *)
Lemma gzip_named_leaves_unpackdir :
  unpackGzip stored_zlib plain_host 1 "letter.gz" gzip_named 0 "/out" "/tmp" ∅
  = (Returned (Result true 34 [("/etc/motd"%string, [])] ["gzip"; "compressed"]%string None),
     {["/etc/motd"%string := RegFile [x41]]}).
Proof. rewrite gzip_named_run. vm_compute. reflexivity. Qed.

Lemma gzip_stored_name_witness :
  let r := Result true 34 [("/etc/motd"%string, [])] ["gzip"; "compressed"]%string None in
  let fs' : FS := {["/etc/motd"%string := RegFile [x41]]} in
  (startswith "/etc/motd" "/" = true -> path_join "/out" "/etc/motd" = "/etc/motd"%string)
  /\ exists outdata,
      (shutil_move plain_host (gzip_outfilename "letter.gz" "/out")
         (path_join "/out" "/etc/motd")
         (write_file (gzip_outfilename "letter.gz" "/out") outdata ∅) = Some fs'
       /\ carved r = [(path_join "/out" "/etc/motd", [])])
      \/ (shutil_move plain_host (gzip_outfilename "letter.gz" "/out")
            (path_join "/out" "/etc/motd")
            (write_file (gzip_outfilename "letter.gz" "/out") outdata ∅) = None
          /\ fs' = write_file (gzip_outfilename "letter.gz" "/out") outdata ∅
          /\ carved r = [(gzip_outfilename "letter.gz" "/out", [])]).
Proof.
  cbv zeta.
  apply (gzip_stored_name stored_zlib plain_host 1%nat "letter.gz"%string gzip_named 0
           "/out"%string "/tmp"%string ∅ {["/etc/motd"%string := RegFile [x41]]}
           (b "/etc/motd") ([x01; x01; x00; xfe; xff; x41]
                            ++ [x8b; x9e; xd9; xd3; x01; x00; x00; x00])
           "/etc/motd"%string
           (Result true 34 [("/etc/motd"%string, [])] ["gzip"; "compressed"]%string None)).
  - lia.
  - reflexivity.
  - reflexivity.
  - apply (bool_decide_unpack _). vm_compute. exact I.
  - discriminate.
  - reflexivity.
  - exact gzip_named_leaves_unpackdir.
  - reflexivity.
Defined.

(** ** tar: device members *)

Lemma tar_member_devices tarfile offset unpackdir fs st :
  (forall t info t', t_next tarfile t = (TarNextInfo info, t') -> isdev info = true) ->
  tar_untouched tarfile fs st ->
  match tar_member tarfile offset unpackdir st with
  | Continue st' | Break st' => tar_untouched tarfile fs st'
  | Return _ => False
  end.
Proof.
  intros Hdev [Hfs Hun]. unfold tar_member.
  destruct (t_next tarfile (tar_obj tarfile st)) as [[msg| |info] t'] eqn:Hnext.
  - unfold tar_except. cbn [String.eqb negb]. split; assumption.
  - split; assumption.
  - rewrite (Hdev _ _ _ Hnext). split; assumption.
Qed.

(** X18: device members (character and block devices, FIFOs) are skipped,
    neither extracted nor listed: on an archive of which tarfile reports
    only such members, [unpackTar] leaves the file system as it was and
    reports that the file is not a tar file, with the size of the whole
    file. *)
Theorem tar_devices_are_skipped (tarfile : TarfileModule) (fuel : nat)
    (filename : string) (data : bytes) (offset : Z)
    (unpackdir temporarydirectory : string) (fs fs' : FS) (r : UnpackResult) :
  (forall t info t', t_next tarfile t = (TarNextInfo info, t') -> isdev info = true) ->
  unpackTar tarfile fuel filename data offset unpackdir temporarydirectory fs
    = (Returned r, fs') ->
  r = Result false (len data) [] [] (Some (Error offset false "Not a valid tar file"))
  /\ fs' = fs.
Proof.
  intros Hdev. unfold unpackTar. cbv zeta.
  destruct (t_open _ _ _) as [unpacktar|]; [|discriminate].
  destruct (while_loop _ _ _) as [[st|[e fs1]]|] eqn:Hloop; try discriminate.
  apply (while_loop_break _ (fun st => tar_untouched tarfile fs st /\ tar_inv tarfile st))
    in Hloop as (s1 & [Hun Hinv] & Hbreak).
  - pose proof (tar_member_devices tarfile offset unpackdir fs s1 Hdev Hun) as Hst.
    pose proof (tar_member_inv tarfile offset unpackdir s1 Hinv) as Hlist.
    rewrite Hbreak in Hst, Hlist. destruct Hst as [Hfs Hno].
    rewrite Hno. cbn [negb]. intros [= <- <-].
    rewrite (Hlist Hno). split; [reflexivity|exact Hfs].
  - intros s s' [Hs Hi] Hc.
    pose proof (tar_member_devices tarfile offset unpackdir fs s Hdev Hs) as Hst.
    pose proof (tar_member_inv tarfile offset unpackdir s Hi) as Hlist.
    rewrite Hc in Hst, Hlist. split; assumption.
  - split; [split; reflexivity|]. unfold tar_inv. reflexivity.
Qed.

Lemma tar_devices_are_skipped_witness :
  Result false 1024 [] [] (Some (Error 0 false "Not a valid tar file"))
  = Result false (len (zeros 1024)) [] [] (Some (Error 0 false "Not a valid tar file"))
  /\ (∅ : FS) = ∅.
Proof.
  apply (tar_devices_are_skipped device_tar 3%nat "dev.tar"%string (zeros 1024) 0
           "/out"%string "/tmp"%string ∅ ∅
           (Result false 1024 [] [] (Some (Error 0 false "Not a valid tar file")))).
  - intros t info t'. destruct t as [|[|t]]; cbn; intros [= <- _]; reflexivity.
  - vm_compute. reflexivity.
Defined.
